(** * unfair/model: the data pipeline, the training loop and the trial loop

    A shallow embedding of [model/train.py]: the Scaling Engine
    ([scale_fets]), the Simulation Ingestor ([process_sim]), the Dataset
    Assembler ([make_datasets]), the Dataset Splitter ([split_data]), the
    Training Loop Controller ([train]) and the Trial Orchestrator
    ([run_trials], with [run_many] of [train_lstm.py]).

    Numbers.  A Python [int] is a [Z].  A [float64] feature value is a real
    number ([R]): sums, means, square roots and quotients are exact, so a
    statement proved here is a statement about the arithmetic the code
    asks for, not about its rounding.  Losses, accuracies and percentages
    of the control code, where no square root is taken, are rationals ([Q])
    and every definition over them computes.

    Part I holds the definitions, Part II the theorems. *)

From Stdlib Require Import Strings.String Strings.Ascii.
From Stdlib Require Import List ZArith QArith Qround Reals Lra Lia Bool Arith Psatz.
From Stdlib Require Import Permutation.
Import ListNotations.

(* ===================================================================== *)
(** * Part I: the model *)
(* ===================================================================== *)

(** ** Python and numpy primitives *)

Module Py.

(** The exceptions the modelled code can raise.  [UninitialisedRead] is no
    Python exception: it marks a read of a row of an [np.empty] array that
    was never written (see [Scaling.read_prms]). *)
Inductive exn : Type :=
| AssertionError
| IndexError
| ValueError
| ZeroDivisionError
| KeyError
| TypeError
| FileNotFoundError
| UninitialisedRead.

(** A computation that returns or raises. *)
Inductive res (A : Type) : Type :=
| Ok (a : A)
| Raise (e : exn).

Arguments Ok {A} a.
Arguments Raise {A} e.

Definition bind {A B : Type} (c : res A) (k : A -> res B) : res B :=
  match c with
  | Ok a => k a
  | Raise e => Raise e
  end.

Notation "x <- c ;; k" := (bind c (fun x => k))
  (at level 61, c at next level, right associativity).
Notation "' p <- c ;; k" := (bind c (fun p => k))
  (at level 61, p pattern, c at next level, right associativity).

(** [assert cond] *)
Definition assert (cond : bool) : res unit :=
  if cond then Ok tt else Raise AssertionError.

(** A list comprehension whose body can raise: left to right, the first
    exception ends it. *)
Fixpoint mapM {A B : Type} (f : A -> res B) (l : list A) : res (list B) :=
  match l with
  | [] => Ok []
  | a :: t => b <- f a ;; bs <- mapM f t ;; Ok (b :: bs)
  end.

(** [a[i]] on a sequence of length [len]: a negative index counts from the
    end, anything outside [-len, len) is an [IndexError]. *)
Definition py_index (len : nat) (i : Z) : res nat :=
  if ((0 <=? i) && (i <? Z.of_nat len))%Z then Ok (Z.to_nat i)
  else if ((- Z.of_nat len <=? i) && (i <? 0))%Z then Ok (Z.to_nat (i + Z.of_nat len))
  else Raise IndexError.

(** [a[i] = v] at a position already resolved by [py_index]. *)
Fixpoint set_nth {A : Type} (i : nat) (v : A) (l : list A) : list A :=
  match l, i with
  | [], _ => []
  | _ :: t, O => v :: t
  | h :: t, S i' => h :: set_nth i' v t
  end.

(** [a[lo:hi]] for [0 <= lo <= hi]: Python clamps both ends to [len(a)]. *)
Definition slice {A : Type} (lo hi : nat) (l : list A) : list A :=
  firstn (hi - lo) (skipn lo l).

(** [a[k:]] for any integer [k]: a negative start counts from the end and is
    clamped at the first element. *)
Definition slice_from {A : Type} (k : Z) (l : list A) : list A :=
  if (k <? 0)%Z then skipn (length l - Z.to_nat (- k)) l
  else skipn (Z.to_nat k) l.

(** [a[i]] for a position [i >= 0]. *)
Definition item {A : Type} (l : list A) (i : nat) : res A :=
  match nth_error l i with
  | Some a => Ok a
  | None => Raise IndexError
  end.

(** [os.path.basename]: what follows the last slash. *)
Fixpoint basename_from (s acc : String.string) : String.string :=
  match s with
  | String.EmptyString => acc
  | String.String c t =>
      if Ascii.eqb c "/"%char then basename_from t String.EmptyString
      else basename_from t (String.append acc (String.String c String.EmptyString))
  end.

Definition basename (s : String.string) : String.string :=
  basename_from s String.EmptyString.

(** [s[:-k]] *)
Definition drop_last (k : nat) (s : String.string) : String.string :=
  String.substring 0 (String.length s - k) s.

Definition ends_with_slash (s : String.string) : bool :=
  match String.get (String.length s - 1) s with
  | Some c => Ascii.eqb c "/"%char
  | None => false
  end.

(** [os.path.join(a, b)] *)
Definition path_join (a b : String.string) : String.string :=
  match b with
  | String.String c _ =>
      if Ascii.eqb c "/"%char then b
      else if (String.length a =? 0)%nat || ends_with_slash a then String.append a b
      else String.append a (String.String "/"%char b)
  | String.EmptyString =>
      if (String.length a =? 0)%nat || ends_with_slash a then a
      else String.append a (String.String "/"%char String.EmptyString)
  end.

End Py.

Export Py.

(** ** numpy over real numbers *)

Module Np.

Open Scope R_scope.

(** A 1-D float array. *)
Definition column : Type := list R.

(** A structured array: one column per field, in [dtype.names] order.  A
    field is named by its position; numpy never lists an empty field name
    in [dtype.names], so the test [fet != ""] of [rdc] keeps every field. *)
Definition sarray : Type := list column.

Definition np_sum (l : list R) : R := fold_right Rplus 0 l.

(** [np.mean]: the sum over the count.  On an empty array numpy answers nan
    (with a warning, no exception); a real-number model has no nan, and no
    theorem below reads the mean of an empty array. *)
Definition np_mean (l : list R) : R := np_sum l / INR (length l).

(** [np.std] (ddof = 0): [sqrt(mean(abs(x - x.mean())**2))]. *)
Definition np_std (l : list R) : R :=
  sqrt (np_mean (map (fun x => (x - np_mean l) * (x - np_mean l)) l)).

(** [np.min] and [np.max]: a [ValueError] on an empty array. *)
Definition np_min (l : list R) : res R :=
  match l with
  | [] => Raise ValueError
  | x :: t => Ok (fold_left Rmin t x)
  end.

Definition np_max (l : list R) : res R :=
  match l with
  | [] => Raise ValueError
  | x :: t => Ok (fold_left Rmax t x)
  end.

(** [np.zeros(shape)] for a 1-D shape. *)
Definition np_zeros (n : nat) : column := repeat 0 n.

(** A float division in the transform.  numpy reports a division by zero with
    a warning and an inf or nan result; the model has neither, and marks the
    event as [ZeroDivisionError], so that "no division by zero is performed"
    can be stated of the code. *)
Definition np_div (x y : R) : res R :=
  if Req_dec_T y 0 then Raise ZeroDivisionError else Ok (x / y).

Close Scope R_scope.

End Np.

Export Np.

(** ** The Scaling Engine: [scale_fets] (train.py, lines 44-119) *)

Module Scaling.

Open Scope R_scope.

(** Modelled from the spec: [utils.clean] and the flattening of [np.mean] and
    [np.std] over a 2-D array are not under src/; the spec (4.1) derives a
    group's parameters "from the pooled values of all columns in that group".
    The pooled values are the cells of the selected columns. *)
Definition pooled (cols : sarray) : list R := concat cols.

(** Modelled from the spec: [utils.scale] is not under src/; the spec (4.1)
    has range mode "map linearly to [0,1]" from the pooled (min, max). *)
Definition scale (x min_in max_in min_out max_out : R) : res R :=
  q <- np_div ((x - min_in) * (max_out - min_out)) (max_in - min_in) ;;
  Ok (min_out + q).

(** [rdc = lambda fnc, arr: fnc(np.array([fnc(arr[fet]) for fet in names]))] *)
Definition rdc (fnc : list R -> res R) (arr : sarray) : res R :=
  xs <- mapM fnc arr ;; fnc xs.

(** [dat[scl_grp_fets]]: the columns whose scaling group is [scl_grp]. *)
Definition scl_grp_fets (scl_grps : list Z) (scl_grp : Z) (dat : sarray) : sarray :=
  map snd (filter (fun p => Z.eqb (fst p) scl_grp) (combine scl_grps dat)).

(** The two parameters of one scaling group (lines 79-84). *)
Definition grp_prms (standardize : bool) (fet_values : sarray) : res (R * R) :=
  if standardize
  then Ok (np_mean (pooled fet_values), np_std (pooled fet_values))
  else lo <- rdc np_min fet_values ;;
       hi <- rdc np_max fet_values ;;
       Ok (lo, hi).

(** [scl_grps_prms]: one row per distinct group; [np.empty] leaves a row
    unwritten ([None]) until the loop stores into it. *)
Definition table : Type := list (option (R * R)).

(** [set(scl_grps)]: the distinct groups.  Python fixes no iteration order;
    the model takes the order of [nodup]. *)
Definition scl_grps_unique (scl_grps : list Z) : list Z := nodup Z.eq_dec scl_grps.

(** The loop of lines 72-84: [scl_grps_prms[scl_grp] = [prm_1, prm_2]].  The
    right-hand side is evaluated first, then the row is indexed. *)
Fixpoint fill_prms (standardize : bool) (dat : sarray) (scl_grps : list Z)
  (todo : list Z) (tbl : table) : res table :=
  match todo with
  | [] => Ok tbl
  | scl_grp :: rest =>
      prm <- grp_prms standardize (scl_grp_fets scl_grps scl_grp dat) ;;
      i <- py_index (length tbl) scl_grp ;;
      fill_prms standardize dat scl_grps rest (set_nth i (Some prm) tbl)
  end.

(** [scl_grps_prms[scl_grps[fet_idx]]] *)
Definition read_prms (tbl : table) (scl_grp : Z) : res (R * R) :=
  i <- py_index (length tbl) scl_grp ;;
  match nth i tbl None with
  | Some prm => Ok prm
  | None => Raise UninitialisedRead
  end.

(** The body of the loop of lines 92-117 for one feature. *)
Definition scale_col (standardize : bool) (prm_1 prm_2 : R) (fet_values : column)
  : res column :=
  if standardize then
    if Req_dec_T prm_2 0 then Ok (np_zeros (length fet_values))
    else mapM (fun x => np_div (x - prm_1) prm_2) fet_values
  else
    if Req_dec_T prm_1 prm_2 then Ok (np_zeros (length fet_values))
    else mapM (fun x => scale x prm_1 prm_2 0 1) fet_values.

(** The loop of lines 92-117: the parameters and the rescaled column of every
    feature, in feature order. *)
Definition scale_one (standardize : bool) (tbl : table) (p : Z * column)
  : res ((R * R) * column) :=
  '(prm_1, prm_2) <- read_prms tbl (fst p) ;;
  scaled <- scale_col standardize prm_1 prm_2 (snd p) ;;
  Ok ((prm_1, prm_2), scaled).

(** [scale_fets(dat, scl_grps, standardize)] returns [(new, scl_prms)]. *)
Definition scale_fets (dat : sarray) (scl_grps : list Z) (standardize : bool)
  : res (sarray * list (R * R)) :=
  _ <- assert (length scl_grps =? length dat)%nat ;;
  let uniq := scl_grps_unique scl_grps in
  scl_grps_prms <- fill_prms standardize dat scl_grps uniq (repeat None (length uniq)) ;;
  out <- mapM (scale_one standardize scl_grps_prms) (combine scl_grps dat) ;;
  Ok (map snd out, map fst out).

(** The transform of one column in closed form, in the words of the spec
    (4.1): "(x - mean)/std; if std = 0, output is all zeros" and "maps
    linearly to [0,1]; if min = max, output is all zeros". *)
Definition standardized (mean std : R) (fet_values : column) : column :=
  if Req_dec_T std 0 then np_zeros (length fet_values)
  else map (fun x => (x - mean) / std) fet_values.

Definition ranged (lo hi : R) (fet_values : column) : column :=
  if Req_dec_T lo hi then np_zeros (length fet_values)
  else map (fun x => 0 + (x - lo) * (1 - 0) / (hi - lo)) fet_values.

Definition rescaled (standardize : bool) (prm : R * R) (fet_values : column) : column :=
  if standardize then standardized (fst prm) (snd prm) fet_values
  else ranged (fst prm) (snd prm) fet_values.

(** [np.min] and [np.max] of an array known to hold a value. *)
Definition min_of (l : list R) : R :=
  match l with [] => 0 | x :: t => fold_left Rmin t x end.

Definition max_of (l : list R) : R :=
  match l with [] => 0 | x :: t => fold_left Rmax t x end.

(** The pooled values of the scaling group [scl_grp] of [dat]. *)
Definition grp_values (dat : sarray) (scl_grps : list Z) (scl_grp : Z) : list R :=
  pooled (scl_grp_fets scl_grps scl_grp dat).

(** The group ids index the rows of [scl_grps_prms]: with [k] distinct
    groups they are [0 .. k-1]. *)
Definition dense_groups (scl_grps : list Z) : Prop :=
  Forall (fun g => (0 <= g < Z.of_nat (length (scl_grps_unique scl_grps)))%Z) scl_grps.

(** Every column has [n] rows. *)
Definition has_rows (n : nat) (dat : sarray) : Prop :=
  Forall (fun c => length c = n) dat.

Close Scope R_scope.

End Scaling.

(** ** The Simulation Ingestor and the Dataset Assembler:
       [process_sim] and [make_datasets] (train.py, lines 122-348)

    A structured array is taken by fields here too: [dat[k:]] and
    [dat[idxs]] act on every column, [np.concatenate(axis=0)] appends the
    columns of equal position. *)

Module Ingest.

(** [dat.shape[0]]: the rows of the first field.  The arrays whose shape the
    code reads have a field ([net.in_spc] and [net.out_spc] are asserted not
    empty). *)
Definition shape0 (dat : sarray) : nat :=
  match dat with
  | [] => 0
  | col :: _ => length col
  end.

(** [dat[spc]]: the fields listed in [spc]; a field that [dat] has not is a
    [KeyError]. *)
Definition select (spc : list nat) (dat : sarray) : res sarray :=
  mapM (fun fet => match nth_error dat fet with
                   | Some col => Ok col
                   | None => Raise KeyError
                   end) spc.

(** [dat[idxs]]: the rows at [idxs], in every field. *)
Definition take (idxs : list nat) (dat : sarray) : res sarray :=
  mapM (fun col => mapM (item col) idxs) dat.

(** [np.random.random_integers(0, num_rows - 1, size)], from the raw draws of
    the generator: a negative size, and a draw from an empty range, are
    [ValueError]s. *)
Definition random_integers (draw : nat -> nat) (num_rows : nat) (size : Z)
  : res (list nat) :=
  if (size <? 0)%Z then Raise ValueError
  else if ((num_rows =? 0)%nat && (0 <? size)%Z)%bool then Raise ValueError
  else Ok (map (fun k => (draw k mod num_rows)%nat) (seq 0 (Z.to_nat size))).

(** What [utils.save_tmp_file] stores: [dat_in], [dat_out], [dat_out_raw],
    [dat_out_oracle] and [scl_grps]. *)
Definition tmp_file : Type := (sarray * sarray * sarray * sarray * list Z)%type.

Definition tmp_in (c : tmp_file) : sarray := let '(a, _, _, _, _) := c in a.
Definition tmp_out (c : tmp_file) : sarray := let '(_, a, _, _, _) := c in a.
Definition tmp_raw (c : tmp_file) : sarray := let '(_, _, a, _, _) := c in a.
Definition tmp_oracle (c : tmp_file) : sarray := let '(_, _, _, a, _) := c in a.

(** The files of the temporary directory, by path. *)
Definition store : Type := String.string -> option tmp_file.

Definition save_tmp_file (flp : String.string) (c : tmp_file) (fs : store) : store :=
  fun p => if String.eqb p flp then Some c else fs p.

Definition load_tmp_file (fs : store) (flp : String.string) : res tmp_file :=
  match fs flp with
  | Some c => Ok c
  | None => Raise FileNotFoundError
  end.

(** [path.join(tmp_dir, f"{path.basename(sim_flp)[:-4]}_tmp.npz")] *)
Definition tmp_flp (tmp_dir sim_flp : String.string) : String.string :=
  path_join tmp_dir (String.append (drop_last 4 (basename sim_flp)) "_tmp.npz"%string).

Section Simulations.

(** [utils.Sim], the description of a simulation. *)
Variable Sim : Type.

(** Modelled from the spec: the model capability interface ([models.py] is
    not under src/; spec, section 6): the input and output feature
    specifications, the number of classes, the field that holds the class,
    the conversion of the output features to class labels and the data
    transform. *)
Record Net : Type := {
  in_spc : list nat;
  out_spc : list nat;
  class_fet : nat;
  num_clss : Z;
  convert_to_class : Sim -> sarray -> sarray;
  modify_data :
    Sim -> sarray -> sarray -> sarray -> sarray -> bool ->
    sarray * sarray * sarray * sarray * list Z
}.

(** Modelled from the spec: what [utils.py], [os] and the random generator
    answer ([utils.py] is not under src/; spec 4.2, "treated as a black-box
    loader returning a structured record"): the loader ([None] for a
    simulation that cannot be loaded), [np.isfinite] (the real-number model
    of a float has no nan and no inf of its own), the field of the oracle
    label, the flow counts of a simulation, the sorted listing of a
    directory, the seeded [random.shuffle] and the raw draws of the
    generator in the call for one simulation. *)
Record World : Type := {
  load_sim : String.string -> Sim * option sarray;
  isfinite : R -> bool;
  oracle_fet : nat;
  unfair_flws : Sim -> Z;
  fair_flws : Sim -> Z;
  listdir_sorted : String.string -> list String.string;
  shuffle_sims : list String.string -> list String.string;
  draws : String.string -> nat -> nat
}.

Variable net : Net.
Variable w : World.

(** [has_non_finite(arr)] (lines 156-163): some field holds a value that is
    not finite. *)
Definition has_non_finite (arr : sarray) : bool :=
  existsb (fun col => negb (forallb (isfinite w) col)) arr.

(** [0 <= cls < net.num_clss] *)
Definition valid_class (cls : R) : bool :=
  if Rle_dec 0 cls then (if Rlt_dec cls (IZR (num_clss net)) then true else false)
  else false.

Definition not_empty {A : Type} (l : list A) : bool :=
  match l with [] => false | _ :: _ => true end.

(** [process_sim] (lines 122-198); [idx] and [total] only feed the log.  The
    result is [None] for a discarded simulation, and the temporary file is
    written into [fs]. *)
Definition process_sim (sim_flp tmp_dir : String.string) (warmup_prc keep_prc : Q)
  (sequential : bool) (fs : store) : res (option (String.string * Sim) * store) :=
  let (sim, loaded) := load_sim w sim_flp in
  match loaded with
  | None => Ok (None, fs)
  | Some dat =>
      let dat :=
        map (slice_from
               (Qfloor (inject_Z (Z.of_nat (shape0 dat)) * warmup_prc / inject_Z 100)))
            dat in
      _ <- assert (not_empty (in_spc net)) ;;
      _ <- assert (not_empty (out_spc net)) ;;
      dat_in <- select (in_spc net) dat ;;
      dat_out <- select (out_spc net) dat ;;
      let dat_out_raw := dat_out in
      let dat_out := convert_to_class net sim dat_out in
      if (has_non_finite dat_in || has_non_finite dat_out)%bool then Ok (None, fs)
      else
        _ <- assert (shape0 dat_in =? shape0 dat_out)%nat ;;
        clss <- select [class_fet net] dat_out ;;
        _ <- assert (forallb (forallb valid_class) clss) ;;
        dat_out_oracle <- select [oracle_fet w] dat ;;
        let '(dat_in, dat_out, dat_out_raw, dat_out_oracle, scl_grps) :=
          modify_data net sim dat_in dat_out dat_out_raw dat_out_oracle sequential in
        let num_rows := shape0 dat_in in
        let num_to_pick :=
          Qceiling (inject_Z (Z.of_nat num_rows) * keep_prc / inject_Z 100) in
        idxs <- random_integers (draws w sim_flp) num_rows num_to_pick ;;
        dat_in <- take idxs dat_in ;;
        dat_out <- take idxs dat_out ;;
        dat_out_raw <- take idxs dat_out_raw ;;
        dat_out_oracle <- take idxs dat_out_oracle ;;
        let dat_flp := tmp_flp tmp_dir sim_flp in
        Ok (Some (dat_flp, sim),
            save_tmp_file dat_flp
              (dat_in, dat_out, dat_out_raw, dat_out_oracle, scl_grps) fs)
  end.

(** The options of [args] that [make_datasets] reads. *)
Record Args : Type := {
  sims : list String.string;
  data_dir : String.string;
  num_sims : option nat;
  tmp_dir : option String.string;
  out_dir : String.string;
  warmup_percent : Q;
  keep_percent : Q;
  standardize : bool
}.

(** Lines 211-230: the simulations to parse ([SHUFFLE] is [True]). *)
Definition find_sims (args : Args) : res (list String.string) :=
  let found :=
    match sims args with
    | [] => map (path_join (data_dir args)) (listdir_sorted w (data_dir args))
    | _ :: _ => sims args
    end in
  let found := shuffle_sims w found in
  match num_sims args with
  | None => Ok found
  | Some n =>
      _ <- assert (n <=? length found)%nat ;;
      Ok (firstn n found)
  end.

(** Lines 244-253, in the order of [sims]: [Pool.starmap] returns the
    results in the order of its arguments, and the files written are the
    same as in the synchronous run. *)
Fixpoint parse_sims (args : Args) (tmp : String.string) (todo : list String.string)
  (fs : store) : res (list (option (String.string * Sim)) * store) :=
  match todo with
  | [] => Ok ([], fs)
  | sim_flp :: rest =>
      '(r, fs1) <- process_sim sim_flp tmp (warmup_percent args) (keep_percent args)
                     false fs ;;
      '(rs, fs2) <- parse_sims args tmp rest fs1 ;;
      Ok (r :: rs, fs2)
  end.

(** Line 255: the results of the simulations that could be parsed. *)
Fixpoint parsed {A : Type} (dat_all : list (option A)) : list A :=
  match dat_all with
  | [] => []
  | Some d :: rest => d :: parsed rest
  | None :: rest => parsed rest
  end.

(** Lines 264-299.  A [dtype] of float fields is its number of fields, so the
    two dtype assertions repeat the two dimension assertions. *)
Definition validate (dat_all : list tmp_file) : res (list Z) :=
  match dat_all with
  | [] => Raise AssertionError
  | (dat_in, dat_out, _, _, scl_grps) :: _ =>
      _ <- mapM (fun cur : tmp_file =>
                   let '(dat_in_cur, dat_out_cur, _, _, scl_grps_cur) := cur in
                   _ <- assert (length dat_in_cur =? length dat_in)%nat ;;
                   _ <- assert (length dat_out_cur =? length dat_out)%nat ;;
                   assert (if list_eq_dec Z.eq_dec scl_grps_cur scl_grps
                           then true else false))
                dat_all ;;
      Ok scl_grps
  end.

(** [np.concatenate(arrs, axis=0)]: no array is a [ValueError], arrays of
    different dtypes a [TypeError]. *)
Definition vstack (a b : sarray) : sarray :=
  map (fun p => fst p ++ snd p) (combine a b).

Definition concatenate0 (arrs : list sarray) : res sarray :=
  match arrs with
  | [] => Raise ValueError
  | a :: rest =>
      _ <- mapM (fun b : sarray => if (length b =? length a)%nat
                                   then Ok tt else Raise TypeError) rest ;;
      Ok (fold_left vstack rest a)
  end.

(** Lines 316-327: every -1 of a feature becomes [np.mean(fet_values)]; a
    feature of nothing but -1 is remembered in [bad_fets]. *)
Definition is_unknown (x : R) : bool :=
  if Req_dec_T x (-1) then true else false.

Definition fill_col (fet_values : column) : column :=
  map (fun x => if is_unknown x then np_mean fet_values else x) fet_values.

Fixpoint fill_loop (fet : nat) (todo : sarray) (bad_fets : list nat)
  : res (sarray * list nat) :=
  match todo with
  | [] => Ok ([], bad_fets)
  | fet_values :: rest =>
      if forallb is_unknown fet_values then
        '(cols, bad) <- fill_loop (S fet) rest (bad_fets ++ [fet]) ;;
        Ok (fet_values :: cols, bad)
      else
        let filled := fill_col fet_values in
        _ <- assert (forallb (fun x => negb (is_unknown x)) filled) ;;
        '(cols, bad) <- fill_loop (S fet) rest bad_fets ;;
        Ok (filled :: cols, bad)
  end.

Definition fill_unknown (dat_in_all : sarray) : res sarray :=
  '(cols, bad_fets) <- fill_loop 0 dat_in_all [] ;;
  _ <- assert (negb (not_empty bad_fets)) ;;
  Ok cols.

(** The mean over the known values of a feature, as the spec (4.3) words the
    repair: "that feature's mean over all known values". *)
Definition known_mean (fet_values : column) : R :=
  np_mean (filter (fun x => negb (is_unknown x)) fet_values).

(** [make_datasets] from line 264 on: [dat_all] and [sims] are at hand. *)
Definition assemble (args : Args) (dat_all : list tmp_file) (sims_ : list Sim)
  : res (sarray * sarray * sarray * sarray * sarray * list (R * R)) :=
  scl_grps <- validate dat_all ;;
  let dat_in_all := map tmp_in dat_all in
  let dat_out_all := map tmp_out dat_all in
  let dat_out_all_raw := map tmp_raw dat_all in
  let dat_out_all_oracle := map tmp_oracle dat_all in
  let num_flws :=
    map (fun p : Sim * sarray =>
           [repeat (IZR (unfair_flws w (fst p) + fair_flws w (fst p))) (shape0 (snd p))])
        (combine sims_ dat_in_all) in
  num_flws <- concatenate0 num_flws ;;
  dat_in_all <- concatenate0 dat_in_all ;;
  dat_out_all <- concatenate0 dat_out_all ;;
  dat_out_all_raw <- concatenate0 dat_out_all_raw ;;
  dat_out_all_oracle <- concatenate0 dat_out_all_oracle ;;
  dat_in_all <- fill_unknown dat_in_all ;;
  '(dat_in_all, prms_in) <- Scaling.scale_fets dat_in_all scl_grps (standardize args) ;;
  Ok (dat_in_all, dat_out_all, dat_out_all_raw, dat_out_all_oracle, num_flws, prms_in).

(** The temporary directory of a run (lines 236-238). *)
Definition tmp_of (args : Args) : String.string :=
  match tmp_dir args with Some d => d | None => out_dir args end.

(** [make_datasets(net, args, dat)] (lines 201-348).  The result comes with
    the files of the temporary directory. *)
Definition make_datasets (args : Args) (dat : option (list tmp_file * list Sim))
  (fs : store)
  : res (sarray * sarray * sarray * sarray * sarray * list (R * R)) :=
  match dat with
  | Some (dat_all, sims_) => assemble args dat_all sims_
  | None =>
      todo <- find_sims args ;;
      '(dat_all, fs) <- parse_sims args (tmp_of args) todo fs ;;
      let dat_all := parsed dat_all in
      _ <- assert (not_empty dat_all) ;;
      let sims_ := map snd dat_all in
      dat_all <- mapM (load_tmp_file fs) (map fst dat_all) ;;
      assemble args dat_all sims_
  end.

End Simulations.

Arguments in_spc {Sim} n.
Arguments out_spc {Sim} n.
Arguments class_fet {Sim} n.
Arguments num_clss {Sim} n.
Arguments convert_to_class {Sim} n sim dat_out.
Arguments modify_data {Sim} n sim dat_in dat_out dat_out_raw dat_out_oracle sequential.
Arguments load_sim {Sim} w sim_flp.
Arguments isfinite {Sim} w x.
Arguments oracle_fet {Sim} w.
Arguments unfair_flws {Sim} w sim.
Arguments fair_flws {Sim} w sim.
Arguments listdir_sorted {Sim} w dir.
Arguments shuffle_sims {Sim} w found.
Arguments draws {Sim} w sim_flp k.
Arguments has_non_finite {Sim} w arr.
Arguments valid_class {Sim} net cls.
Arguments process_sim {Sim} net w sim_flp tmp_dir warmup_prc keep_prc sequential fs.
Arguments find_sims {Sim} w args.
Arguments parse_sims {Sim} net w args tmp todo fs.
Arguments assemble {Sim} w args dat_all sims_.
Arguments make_datasets {Sim} net w args dat fs.

(** The data transform of the model keeps the number of rows of the input
    features (the assumption under which the spec counts rows). *)
Definition keeps_rows {Sim : Type} (net : Net Sim) : Prop :=
  forall sim a b c d q,
    shape0 (tmp_in (modify_data net sim a b c d q)) = shape0 a.

(** The rows of the simulation file [sim_flp] as loaded. *)
Definition raw_rows {Sim : Type} (w : World Sim) (sim_flp : String.string) : nat :=
  match snd (load_sim w sim_flp) with
  | Some dat => shape0 dat
  | None => 0
  end.

(** Every array the loader returns is rectangular. *)
Definition rectangular (dat : sarray) : Prop :=
  Scaling.has_rows (shape0 dat) dat.

Definition loads_rectangular {Sim : Type} (w : World Sim) : Prop :=
  forall sim_flp sim dat, load_sim w sim_flp = (sim, Some dat) -> rectangular dat.

(** The rows that [process_sim] keeps of [n] raw rows. *)
Definition kept_rows (warmup_prc keep_prc : Q) (n : nat) : nat :=
  Z.to_nat
    (Qceiling
       (inject_Z (Z.of_nat
                    (n - Z.to_nat (Qfloor (inject_Z (Z.of_nat n) * warmup_prc / inject_Z 100))))
        * keep_prc / inject_Z 100)).

(** The simulations of [todo] that [parse_sims] did not discard. *)
Fixpoint not_discarded {A : Type} (todo : list String.string)
  (results : list (option A)) : list String.string :=
  match todo, results with
  | sim_flp :: todo', Some _ :: results' => sim_flp :: not_discarded todo' results'
  | _ :: todo', None :: results' => not_discarded todo' results'
  | _, _ => []
  end.

(** A small world to run the code in: one simulation file of five rows, with
    an input feature, the class and the oracle label; a model that reads the
    first as input and the second as output, with five classes, and whose
    data transform changes nothing; draws 0, 1, 2, ... of the generator. *)
Definition demo_net : Net unit := {|
  in_spc := [0%nat];
  out_spc := [1%nat];
  class_fet := 0%nat;
  num_clss := 5%Z;
  convert_to_class := fun _ dat_out => dat_out;
  modify_data := fun _ a b c d _ => (a, b, c, d, [0%Z])
|}.

Definition demo_dat : sarray :=
  [[1; 2; 3; 4; 5]; [0; 0; 0; 0; 0]; [0; 0; 0; 0; 0]]%R.

Definition demo_world : World unit := {|
  load_sim := fun _ => (tt, Some demo_dat);
  isfinite := fun _ => true;
  oracle_fet := 2%nat;
  unfair_flws := fun _ => 1%Z;
  fair_flws := fun _ => 1%Z;
  listdir_sorted := fun _ => ["a.sim"%string];
  shuffle_sims := fun found => found;
  draws := fun _ k => k
|}.

Definition demo_args : Args := {|
  sims := [];
  data_dir := "data"%string;
  num_sims := None;
  tmp_dir := None;
  out_dir := "out"%string;
  warmup_percent := 10;
  keep_percent := 50;
  standardize := false
|}.

Definition no_files : store := fun _ => None.

(** The usable rows of a simulation of [raw_rows] rows with
    [warmup_percent = 10] and [keep_percent = 50], as the spec (8) has them,
    [ceil(0.5 * floor(0.9 * raw_rows))], and as [process_sim] counts them,
    [ceil(0.5 * (raw_rows - floor(0.1 * raw_rows)))]. *)
Definition claimed_rows (raw_rows : Z) : Z :=
  Qceiling (0.5 * inject_Z (Qfloor (0.9 * inject_Z raw_rows))).

Definition usable_rows (raw_rows : Z) : Z :=
  Qceiling (0.5 * inject_Z (raw_rows - Qfloor (0.1 * inject_Z raw_rows))).

End Ingest.

(** ** The Dataset Splitter: [split_data] (train.py, lines 366-438) *)

Module Split.

(** A regular 2-D array: its rows. *)
Definition matrix : Type := list (list R).

(** Modelled from the spec: [utils.clean] is not under src/; lines 379-380
    have it "convert from structured to regular numpy arrays": the rows of
    the array, each with the values of its fields in order. *)
Definition clean (dat : sarray) : matrix :=
  map (fun i => map (fun col => nth i col 0%R) dat) (seq 0 (Ingest.shape0 dat)).

(** [np.concatenate((a, b), axis=1)]: a [ValueError] unless the rows match. *)
Definition hstack (a b : matrix) : res matrix :=
  if (length a =? length b)%nat
  then Ok (map (fun p => fst p ++ snd p) (combine a b))
  else Raise ValueError.

(** [x[i], x[j] = x[j], x[i]] *)
Definition swap {A : Type} (i j : nat) (x : list A) : list A :=
  match nth_error x i, nth_error x j with
  | Some xi, Some xj => set_nth i xj (set_nth j xi x)
  | _, _ => x
  end.

(** [np.random.shuffle(x)]: for [i] from [len(x) - 1] down to 1, row [i] is
    exchanged with row [j], drawn from [0 .. i].  [draw t] is the raw value of
    the [t]-th draw of the generator. *)
Fixpoint shuffle_from {A : Type} (draw : nat -> nat) (t i : nat) (x : list A) : list A :=
  match i with
  | O => x
  | S i' => shuffle_from draw (S t) i' (swap i (draw t mod S i) x)
  end.

Definition np_shuffle {A : Type} (draw : nat -> nat) (x : list A) : list A :=
  shuffle_from draw 0 (length x - 1) x.

(** [merged[:, :k]] and [merged[:, k]] *)
Definition cols_upto (k : nat) (m : matrix) : matrix := map (firstn k) m.

Definition col_at (k : nat) (m : matrix) : res (list R) := mapM (fun row => item row k) m.

(** The five arrays after the shuffle (lines 393-397). *)
Record shuffled : Type := {
  s_in : matrix;
  s_out : list R;
  s_out_raw : list R;
  s_out_oracle : list R;
  s_num_flws : list R
}.

(** Lines 378-397: the five arrays are merged into one matrix, its rows are
    shuffled, and the matrix is cut into the five arrays again. *)
Definition shuffle_together (draw : nat -> nat)
  (dat_in dat_out dat_out_raw dat_out_oracle num_flws : sarray) : res shuffled :=
  let num_cols_in := length dat_in in
  m <- hstack (clean dat_in) (clean dat_out) ;;
  m <- hstack m (clean dat_out_raw) ;;
  m <- hstack m (clean dat_out_oracle) ;;
  merged <- hstack m (clean num_flws) ;;
  let merged := np_shuffle draw merged in
  out <- col_at num_cols_in merged ;;
  out_raw <- col_at (num_cols_in + 1) merged ;;
  out_oracle <- col_at (num_cols_in + 2) merged ;;
  flws <- col_at (num_cols_in + 3) merged ;;
  Ok {| s_in := cols_upto num_cols_in merged; s_out := out; s_out_raw := out_raw;
        s_out_oracle := out_oracle; s_num_flws := flws |}.

(** [round(x)]: to the nearest integer, a tie to the even one.  The product
    [num_exps * 0.3] is taken exactly. *)
Definition py_round (x : Q) : Z :=
  let f := Qfloor x in
  match Qcompare (x - inject_Z f) (1 # 2) with
  | Lt => f
  | Gt => (f + 1)%Z
  | Eq => if Z.even f then f else (f + 1)%Z
  end.

(** Lines 401-402: [int(round(num_exps * 0.2)) if use_val else 0] and
    [int(round(num_exps * 0.3))]. *)
Definition num_val_of (use_val : bool) (num_exps : nat) : nat :=
  if use_val then Z.to_nat (py_round (inject_Z (Z.of_nat num_exps) * 0.2)) else 0%nat.

Definition num_tst_of (num_exps : nat) : nat :=
  Z.to_nat (py_round (inject_Z (Z.of_nat num_exps) * 0.3)).

(** How a loader draws its batches: class-balanced ([utils.BalancedSampler]),
    shuffled, or in the order of the data. *)
Inductive sampling : Type := Balanced | Shuffled | InOrder.

(** A [DataLoader] over a [utils.Dataset]: the arrays of the dataset, the
    batch size and the sampling.  [torch] and [utils.Dataset] are outside the
    model. *)
Record loader : Type := {
  l_in : matrix;
  l_out : list R;
  l_out_raw : list R;
  l_out_oracle : list R;
  l_num_flws : list R;
  l_batch : Z;
  l_sampling : sampling
}.

(** [split_data] (lines 366-438); [is_svm] is
    [isinstance(net, models.SvmSklearnWrapper)].  Returns
    [(ldr_trn, ldr_val, ldr_tst)]. *)
Definition split_data (draw : nat -> nat) (is_svm : bool)
  (dat_in dat_out dat_out_raw dat_out_oracle num_flws : sarray)
  (bch_trn bch_tst : Z) (use_val : bool) : res (loader * option loader * loader) :=
  s <- shuffle_together draw dat_in dat_out dat_out_raw dat_out_oracle num_flws ;;
  let num_exps := length (s_in s) in
  let num_val := num_val_of use_val num_exps in
  let num_tst := num_tst_of num_exps in
  let dat_val_in := slice 0 num_val (s_in s) in
  let dat_val_out := slice 0 num_val (s_out s) in
  let dat_tst_in := slice num_val (num_val + num_tst) (s_in s) in
  let dat_tst_out := slice num_val (num_val + num_tst) (s_out s) in
  let dat_tst_out_raw := slice num_val (num_val + num_tst) (s_out_raw s) in
  let dat_tst_out_oracle := slice num_val (num_val + num_tst) (s_out_oracle s) in
  let num_flws_tst := slice num_val (num_val + num_tst) (s_num_flws s) in
  let dat_trn_in := skipn (num_val + num_tst) (s_in s) in
  let dat_trn_out := skipn (num_val + num_tst) (s_out s) in
  let ldr_trn :=
    {| l_in := dat_trn_in; l_out := dat_trn_out; l_out_raw := []; l_out_oracle := [];
       l_num_flws := [];
       l_batch := if is_svm then bch_tst else bch_trn;
       l_sampling := if is_svm then Shuffled else Balanced |} in
  let ldr_val :=
    if use_val
    then Some {| l_in := dat_val_in; l_out := dat_val_out; l_out_raw := [];
                 l_out_oracle := []; l_num_flws := [];
                 l_batch := bch_tst; l_sampling := InOrder |}
    else None in
  let ldr_tst :=
    {| l_in := dat_tst_in; l_out := dat_tst_out; l_out_raw := dat_tst_out_raw;
       l_out_oracle := dat_tst_out_oracle; l_num_flws := num_flws_tst;
       l_batch := bch_tst; l_sampling := InOrder |} in
  Ok (ldr_trn, ldr_val, ldr_tst).

(** The validation rows of a split: those of [ldr_val], none without it. *)
Definition val_rows (ldr_val : option loader) : matrix :=
  match ldr_val with Some l => l_in l | None => [] end.

Definition val_labels (ldr_val : option loader) : list R :=
  match ldr_val with Some l => l_out l | None => [] end.

(** A structured array of one field. *)
Definition one_field (dat : sarray) : Prop := length dat = 1%nat.

(** Row [k] of a structured array, and the value at row [k] of an array of
    one field. *)
Definition in_row (dat : sarray) (k : nat) : list R :=
  map (fun col => nth k col 0%R) dat.

Definition label_at (dat : sarray) (k : nat) : R :=
  nth k (nth 0 dat []) 0%R.

End Split.

(** ** The Training Loop Controller: [train] (train.py, lines 484-592) *)

Module Train.

(** The number of validation passes per epoch. *)
Definition VALS_PER_EPC : Z := 15.

(** One validation pass as the log shows it: the lowest validation loss so
    far (the loss of this pass when it is the first) and the loss of this
    pass. *)
Record pass : Type := { p_min : Q; p_val : Q }.

(** How a run of the loop ends. *)
Inductive outcome : Type :=
| StoppedByPatience (epoch_idx : nat)
| StoppedByTimeout (epoch_idx : nat)
| CompletedEpochs
| Raised (e : exn).

(** What a step of the loop tells the loop around it. *)
Inductive signal : Type :=
| Continue
| Return
| Throw (e : exn).

(** [prc = (los_val_min - los_val) / los_val_min * 100] on Python floats: a
    [ZeroDivisionError] when [los_val_min] is zero. *)
Definition improvement (los_val_min los_val : Q) : res Q :=
  if Qeq_bool los_val_min 0 then Raise ZeroDivisionError
  else Ok ((los_val_min - los_val) / los_val_min * 100).

(** [prc > val_imp_thresh] *)
Definition exceeds (prc val_imp_thresh : Q) : bool :=
  if Qlt_le_dec val_imp_thresh prc then true else false.

(** The improvement test of one pass: [None] when it cannot be evaluated. *)
Definition improves (val_imp_thresh : Q) (p : pass) : option bool :=
  match improvement (p_min p) (p_val p) with
  | Ok prc => Some (exceeds prc val_imp_thresh)
  | Raise _ => None
  end.

Section Loop.

(** Modelled from the spec: the model capability interface and torch are not
    under src/ (spec, section 6: "forward-pass invocation", "a loss
    function", "a way to persist/restore a trained snapshot").  [Model] is
    the state of [net.net]; [fit m b] is one training step on the batch [b]
    (zero the gradients, forward pass, backward pass, optimiser step);
    [inference m b] is the loss [inference(...)[0].item()] of the batch [b]
    under [m].  A snapshot written by [torch.jit.save] and read back by
    [torch.jit.load] is the model that was written. *)
Variables Model Batch : Type.
Variable fit : Model -> Batch -> Model.
Variable inference : Model -> Batch -> Q.

(** The variables of [train]: the live model [net.net], the file [out_flp]
    ([None] while it does not exist), [los_val_min], [val_pat], and what was
    logged of the validation passes. *)
Record state : Type := {
  net : Model;
  out_flp : option Model;
  los_val_min : option Q;
  val_pat : Z;
  log : list pass
}.

(** The arguments of [train]: [ldr_trn e i] is batch [i] of epoch [e] (a
    loader may draw other batches in every epoch), [num_bchs_trn] is
    [len(ldr_trn)], [elapsed e] is [time.time() - tim_srt_s] as read at the
    start of epoch [e]. *)
Record config : Type := {
  num_epochs : nat;
  ldr_trn : nat -> nat -> Batch;
  num_bchs_trn : nat;
  ldr_val : option (list Batch);
  ely_stp : bool;
  val_pat_max : Z;
  val_imp_thresh : Q;
  tim_out_s : Q;
  elapsed : nat -> Q
}.

Variable cfg : config.

(** [bchs_per_val = math.ceil(num_bchs_trn / VALS_PER_EPC)] *)
Definition bchs_per_val : nat :=
  Z.to_nat (Qceiling (inject_Z (Z.of_nat (num_bchs_trn cfg)) / inject_Z VALS_PER_EPC)).

(** Lines 547-557: the validation set in inference mode, the losses summed. *)
Definition sum_losses (m : Model) (bchs : list Batch) : Q :=
  fold_left (fun los_val b => los_val + inference m b) bchs 0.

(** Lines 561-586: one validation checkpoint.  [Return] is the [return net]
    of line 586. *)
Definition validation (s : state) : state * signal :=
  match ldr_val cfg with
  | None => (s, Throw TypeError)
  | Some bchs =>
      let los_val := sum_losses (net s) bchs in
      let best := match los_val_min s with None => los_val | Some b => b end in
      let s := {| net := net s; out_flp := out_flp s; los_val_min := Some best;
                  val_pat := val_pat s;
                  log := log s ++ [{| p_min := best; p_val := los_val |}] |} in
      match improvement best los_val with
      | Raise e => (s, Throw e)
      | Ok prc =>
          let s :=
            if exceeds prc (val_imp_thresh cfg) then
              {| net := net s; out_flp := Some (net s); los_val_min := Some los_val;
                 val_pat := val_pat_max cfg; log := log s |}
            else
              {| net := match out_flp s with Some saved => saved | None => net s end;
                 out_flp := out_flp s; los_val_min := los_val_min s;
                 val_pat := (val_pat s - 1)%Z; log := log s |} in
          (s, if (val_pat s <=? 0)%Z then Return else Continue)
      end
  end.

(** [not bch_idx_trn % bchs_per_val]: a modulo by zero is a
    [ZeroDivisionError]. *)
Definition validation_due (bch_idx_trn : nat) : res bool :=
  if (bchs_per_val =? 0)%nat then Raise ZeroDivisionError
  else Ok (bch_idx_trn mod bchs_per_val =? 0)%nat.

(** Lines 524-586: the batches of one epoch, from [bch_idx_trn] on. *)
Fixpoint run_batches (epoch_idx : nat) (todo : list nat) (s : state) : state * signal :=
  match todo with
  | [] => (s, Continue)
  | bch_idx_trn :: rest =>
      let s := {| net := fit (net s) (ldr_trn cfg epoch_idx bch_idx_trn);
                  out_flp := out_flp s; los_val_min := los_val_min s;
                  val_pat := val_pat s; log := log s |} in
      if ely_stp cfg then
        match validation_due bch_idx_trn with
        | Raise e => (s, Throw e)
        | Ok false => run_batches epoch_idx rest s
        | Ok true =>
            match validation s with
            | (s, Continue) => run_batches epoch_idx rest s
            | stop => stop
            end
        end
      else run_batches epoch_idx rest s
  end.

(** [tim_out_s != 0 and tim_del_s > tim_out_s] *)
Definition timed_out (epoch_idx : nat) : bool :=
  negb (Qeq_bool (tim_out_s cfg) 0)
  && (if Qlt_le_dec (tim_out_s cfg) (elapsed cfg epoch_idx) then true else false).

(** Lines 587-592: without early stopping the final model is saved. *)
Definition save_final (s : state) : state :=
  if ely_stp cfg then s
  else {| net := net s; out_flp := Some (net s); los_val_min := los_val_min s;
          val_pat := val_pat s; log := log s |}.

(** Lines 516-592: the epochs from [epoch_idx] on. *)
Fixpoint run_epochs (todo : list nat) (s : state) : state * outcome :=
  match todo with
  | [] => (save_final s, CompletedEpochs)
  | epoch_idx :: rest =>
      if timed_out epoch_idx then (save_final s, StoppedByTimeout epoch_idx)
      else
        match run_batches epoch_idx (seq 0 (num_bchs_trn cfg)) s with
        | (s, Continue) => run_epochs rest s
        | (s, Return) => (s, StoppedByPatience epoch_idx)
        | (s, Throw e) => (s, Raised e)
        end
  end.

(** [train(net, num_epochs, ldr_trn, ldr_val, dev, ely_stp, val_pat_max,
    out_flp, val_imp_thresh, tim_out_s, opt_params)], from the model [net0]
    and the file [out_flp0]. *)
Definition train (net0 : Model) (out_flp0 : option Model) : state * outcome :=
  run_epochs (seq 0 (num_epochs cfg))
    {| net := net0; out_flp := out_flp0; los_val_min := None;
       val_pat := val_pat_max cfg; log := [] |}.

(** The validation passes that are due among the batches [todo], and in a
    whole epoch. *)
Definition dues (todo : list nat) : nat :=
  length (filter (fun bch_idx_trn => (bch_idx_trn mod bchs_per_val =? 0)%nat) todo).

Definition vals_per_epoch : nat := dues (seq 0 (num_bchs_trn cfg)).

(** The pass that a validation in the state [s] logs. *)
Definition pass_of (s : state) (bchs : list Batch) : pass :=
  let los_val := sum_losses (net s) bchs in
  {| p_min := match los_val_min s with None => los_val | Some b => b end;
     p_val := los_val |}.

(** A pass whose improvement test was evaluated and failed. *)
Definition no_gain (p : pass) : Prop :=
  improves (val_imp_thresh cfg) p = Some false.

(** The first validation pass takes its own loss as the lowest so far, and
    [los_val_min] is [None] until then. *)
Definition starts_at_best (s : state) : Prop :=
  match log s with
  | [] => los_val_min s = None
  | p :: _ => p_min p = p_val p /\ los_val_min s <> None
  end.

End Loop.

Arguments net {Model} s.
Arguments out_flp {Model} s.
Arguments los_val_min {Model} s.
Arguments val_pat {Model} s.
Arguments log {Model} s.
Arguments num_epochs {Batch} c.
Arguments ldr_trn {Batch} c epoch_idx bch_idx_trn.
Arguments num_bchs_trn {Batch} c.
Arguments ldr_val {Batch} c.
Arguments ely_stp {Batch} c.
Arguments val_pat_max {Batch} c.
Arguments val_imp_thresh {Batch} c.
Arguments tim_out_s {Batch} c.
Arguments elapsed {Batch} c epoch_idx.
Arguments bchs_per_val {Batch} cfg.
Arguments sum_losses {Model Batch} inference m bchs.
Arguments validation {Model Batch} inference cfg s.
Arguments validation_due {Batch} cfg bch_idx_trn.
Arguments run_batches {Model Batch} fit inference cfg epoch_idx todo s.
Arguments timed_out {Batch} cfg epoch_idx.
Arguments save_final {Model Batch} cfg s.
Arguments run_epochs {Model Batch} fit inference cfg todo s.
Arguments train {Model Batch} fit inference cfg net0 out_flp0.
Arguments dues {Batch} cfg todo.
Arguments vals_per_epoch {Batch} cfg.
Arguments pass_of {Model Batch} inference s bchs.
Arguments no_gain {Batch} cfg p.
Arguments starts_at_best {Model} s.

(** A small run: a model that counts its training steps, a loss that stays at
    1, one epoch of thirty batches (a validation pass every second batch),
    one validation batch, a patience of 3, a threshold of 0.1 percent, no
    timeout. *)
Definition demo_fit (m : nat) (_ : unit) : nat := S m.

Definition demo_inference (_ : nat) (_ : unit) : Q := 1.

Definition demo_cfg : config unit := {|
  num_epochs := 1;
  ldr_trn := fun _ _ => tt;
  num_bchs_trn := 30;
  ldr_val := Some [tt];
  ely_stp := true;
  val_pat_max := 3;
  val_imp_thresh := 0.1;
  tim_out_s := 0;
  elapsed := fun _ => 0
|}.

End Train.

(** ** Trials and attempts: [run_trials] (train.py) and [run_many]
       (train_lstm.py) *)

Module Trials.

Open Scope Q_scope.

(** A Python float: a number (a rational here), not-a-number, or positive
    infinity. *)
Inductive pyfloat : Type :=
| Num (q : Q)
| NaN
| Inf.

(** The two functions share their loop; they differ in what a trial returns
    ([A]), in the test for a failed trial ([failed]) and in the report. *)
Section Attempts.

Variable A : Type.

(** [run k] is what the trial function returns, or raises, when it is
    invoked for attempt number [k] (the value of [apts] after its
    increment): the trial function is randomised, so that a call is told
    from the others by its number. *)
Variable run : Z -> res A.

(** [res[0] == 100] in [run_trials], [res == 100] in [run_many]. *)
Variable failed : A -> bool.

(** The variables of the loop; [calls] is no variable of the code, it lists
    the attempt numbers for which the trial function was invoked. *)
Record loop : Type := {
  trls : Z;
  apts : Z;
  ress : list A;
  calls : list Z
}.

(** [while trls > 0 and apts < apts_max: ...]; [fuel] bounds the number of
    iterations (see [attempts_fuel]). *)
Fixpoint attempts (fuel : nat) (apts_max : Z) (s : loop) : res (option loop) :=
  if (0 <? trls s)%Z && (apts s <? apts_max)%Z then
    match fuel with
    | O => Ok None
    | S fuel' =>
        let apts' := (apts s + 1)%Z in
        r <- run apts' ;;
        if failed r then
          attempts fuel' apts_max
            {| trls := trls s; apts := apts'; ress := ress s;
               calls := calls s ++ [apts'] |}
        else
          attempts fuel' apts_max
            {| trls := (trls s - 1)%Z; apts := apts'; ress := ress s ++ [r];
               calls := calls s ++ [apts'] |}
    end
  else Ok (Some s).

(** The loop from its initial state.  Every iteration increments [apts], so
    that [apts_max] iterations are the most there can be. *)
Definition attempt_loop (conf_trials apts_max : Z) : res (option loop) :=
  attempts (Z.to_nat apts_max) apts_max
    {| trls := conf_trials; apts := 0; ress := []; calls := [] |}.

End Attempts.

Arguments trls {A} l.
Arguments apts {A} l.
Arguments ress {A} l.
Arguments calls {A} l.
Arguments attempts {A} run failed fuel apts_max s.
Arguments attempt_loop {A} run failed conf_trials apts_max.

(** A result of [run_sklearn] or [run_torch]: [(acc_tst, tim_trn_s)]. *)
Definition result : Type := (Q * Q)%type.

(** [res[0] == 100] *)
Definition failed_trial (r : result) : bool := Qeq_bool (fst r) 100.

(** [max(ress, key=lambda p: p[0])]: the first of the elements with the
    largest key; a [ValueError] on an empty list. *)
Definition max_by_acc (l : list result) : res result :=
  match l with
  | [] => Raise ValueError
  | r :: l' =>
      Ok (fold_left (fun best x => if Qlt_le_dec (fst best) (fst x) then x else best)
            l' r)
  end.

(** The end of [run_trials], from [if ress:]. *)
Definition report (l : list result) : res (pyfloat * pyfloat) :=
  match l with
  | [] => Ok (NaN, NaN)
  | _ :: _ => ' (max_acc, tim_s) <- max_by_acc l ;; Ok (Num (1 - max_acc), Num tim_s)
  end.

(** [run_trials], from the loop on (train.py, lines 799-826).  [None] would
    be a loop that is still running when the fuel is out. *)
Definition run_trials (run : Z -> res result) (conf_trials max_attempts : Z)
  : res (option (pyfloat * pyfloat)) :=
  o <- attempt_loop run failed_trial conf_trials max_attempts ;;
  match o with
  | None => Ok None
  | Some s => v <- report (ress s) ;; Ok (Some v)
  end.

(** [max(ress)] on floats. *)
Definition max_acc_of (l : list Q) : res Q :=
  match l with
  | [] => Raise ValueError
  | r :: l' => Ok (fold_left (fun best x => if Qlt_le_dec best x then x else best) l' r)
  end.

(** [run_many] of train_lstm.py: a trial returns its accuracy alone, and
    the report of no result is infinity. *)
Definition run_many (run : Z -> res Q) (conf_trials max_attempts : Z)
  : res (option pyfloat) :=
  o <- attempt_loop run (fun r => Qeq_bool r 100) conf_trials max_attempts ;;
  match o with
  | None => Ok None
  | Some s =>
      match ress s with
      | [] => Ok (Some Inf)
      | _ :: _ => max_acc <- max_acc_of (ress s) ;; Ok (Some (Num (1 - max_acc)))
      end
  end.

(** The attempt numbers [a + 1, ..., a + n]. *)
Fixpoint attempt_numbers (a : Z) (n : nat) : list Z :=
  match n with
  | O => []
  | S n' => (a + 1)%Z :: attempt_numbers (a + 1)%Z n'
  end.

(** The results [run_trials] keeps, when no trial raises and attempt [k]
    returns [outs k]: of the attempts 1 to [max_attempts], the first
    [conf_trials] that did not fail. *)
Definition kept (outs : Z -> result) (conf_trials max_attempts : Z) : list result :=
  firstn (Z.to_nat conf_trials)
    (filter (fun r => negb (failed_trial r))
       (map outs (attempt_numbers 0 (Z.to_nat max_attempts)))).

(** Trials that always fail, and trials of which the second and the third
    succeed. *)
Definition always_100 (_ : Z) : result := (100, 5).

Definition demo_outs (k : Z) : result :=
  if (k =? 2)%Z then (3 # 4, 7) else if (k =? 3)%Z then (9 # 10, 8) else (100, 5).

End Trials.

(** ** The LSTM trainer (train_lstm.py) *)

Module Lstm.

(** *** [match] (lines 77-109) *)

Section Match.

(** The values of the fields, and [x == y] on two of them. *)
Variable V : Type.
Variable eqb : V -> V -> bool.

(** A structured array by rows: the field names of its dtype
    ([dtype.names]) and its rows, each with one value per field. *)
Record rarray : Type := {
  names : list String.string;
  rows : list (list V)
}.

(** A dtype lists no field name twice: numpy answers a list of fields with a
    repeated name with a [ValueError]. *)
Fixpoint distinct (l : list String.string) : bool :=
  match l with
  | [] => true
  | fet :: t => negb (existsb (String.eqb fet) t) && distinct t
  end.

(** Lines 99-102: the row written into [merged], the fields of the row of
    [a] and then the fields of the row of [b] but the first. *)
Definition merged_row (cols_a cols_b : nat) (row_a row_b : list V) : list V :=
  firstn cols_a row_a ++ slice 1 cols_b row_b.

(** The loop of lines 95-107 with the assertion of line 108.  [a] and [b]
    are the rows from [i_a] and from [i_b] on, and the result lists the rows
    written into [merged] from [i_a] on.  Every iteration moves [i_b] one row
    down.  When no row of [a] is left [i_a == rows_a] holds; when the rows
    of [b] run out first the assertion fails. *)
Fixpoint match_rows (cols_a cols_b : nat) (a b : list (list V)) {struct b}
  : res (list (list V)) :=
  match a with
  | [] => Ok []
  | row_a :: a' =>
      match b with
      | [] => Raise AssertionError
      | row_b :: b' =>
          key_a <- item row_a 0 ;;
          key_b <- item row_b 0 ;;
          if eqb key_a key_b then
            rest <- match_rows cols_a cols_b a' b' ;;
            Ok (merged_row cols_a cols_b row_a row_b :: rest)
          else match_rows cols_a cols_b a b'
      end
  end.

(** [match(a, b)]: the dtype of [merged] (line 88), then the loop. *)
Definition match_ (a b : rarray) : res rarray :=
  let descr := names a ++ tl (names b) in
  _ <- (if distinct descr then Ok tt else Raise ValueError) ;;
  merged <- match_rows (length (names a)) (length (names b)) (rows a) (rows b) ;;
  Ok {| names := descr; rows := merged |}.

(** The rows [row_a] and [row_b] have a first field each, and the two are
    equal. *)
Definition same_key (row_a row_b : list V) : Prop :=
  exists key_a key_b,
    nth_error row_a 0 = Some key_a /\ nth_error row_b 0 = Some key_b /\
    eqb key_a key_b = true.

(** [pairing a b bs]: the rows [bs] are rows of [b], in the order of [b],
    one for every row of [a] and of the same key. *)
Inductive pairing : list (list V) -> list (list V) -> list (list V) -> Prop :=
| pairing_done (b : list (list V)) : pairing [] b []
| pairing_skip (a b bs : list (list V)) (row_b : list V) :
    pairing a b bs -> pairing a (row_b :: b) bs
| pairing_take (a b bs : list (list V)) (row_a row_b : list V) :
    same_key row_a row_b -> pairing a b bs ->
    pairing (row_a :: a) (row_b :: b) (row_b :: bs).

(** Every row has a first field. *)
Definition keyed (a : list (list V)) : Prop :=
  Forall (fun row => row <> []) a.

End Match.

Arguments names {V} r.
Arguments rows {V} r.
Arguments merged_row {V} cols_a cols_b row_a row_b.
Arguments match_rows {V} eqb cols_a cols_b a b.
Arguments match_ {V} eqb a b.
Arguments same_key {V} eqb row_a row_b.
Arguments pairing {V} eqb a b bs.
Arguments keyed {V} a.

(** Two arrays keyed by a sequence number: [demo_b] has the rows of
    [demo_a] and one more in between. *)
Definition demo_a : rarray Z :=
  {| names := ["seq"; "x"]%string; rows := [[1; 10]; [3; 30]]%Z |}.

Definition demo_b : rarray Z :=
  {| names := ["seq"; "y"]%string; rows := [[1; 100]; [2; 200]; [3; 300]]%Z |}.

End Lstm.

(** *** [convert_to_class] (train_lstm.py, lines 154-199) and the count of
        the ground truth in [make_datasets] (lines 256-276) *)

Module LstmLabels.

Import Lstm.

Open Scope Q_scope.

(** [x < y] on floats. *)
Definition Qlt_bool (x y : Q) : bool := negb (Qle_bool y x).

(** [percent_to_class(prc, num_flws)] (lines 163-193): [prc] is one row of
    the output features, [num_flws] an integer.  [1. / num_flws] is a
    [ZeroDivisionError] for no flow. *)
Definition percent_to_class (prc : list Q) (num_flws : Z) : res Z :=
  _ <- assert (length prc =? 1)%nat ;;
  prc <- item prc 0 ;;
  if (num_flws =? 0)%Z then Raise ZeroDivisionError
  else
    let fair := 1 / inject_Z num_flws in
    let tsh_fair := 0.1 in
    let tsh_unfair := 0.4 in
    let dif := (fair - prc) / fair in
    if Qlt_bool dif (-1 * tsh_unfair) then Ok 0%Z
    else if Qle_bool (-1 * tsh_unfair) dif && Qlt_bool dif (-1 * tsh_fair) then Ok 1%Z
    else if Qle_bool (-1 * tsh_fair) dif && Qle_bool dif tsh_fair then Ok 2%Z
    else if Qlt_bool tsh_fair dif && Qle_bool dif tsh_unfair then Ok 3%Z
    else if Qlt_bool tsh_unfair dif then Ok 4%Z
    else Raise AssertionError.

(** [convert_to_class(dat_all)]: the assertions on the dtypes first, then
    [np.vectorize(percent_to_class)] over the rows of every simulation. *)
Definition convert_to_class (dat_all : list (rarray Q * Z)) : res (list (list Z)) :=
  _ <- mapM (fun p : rarray Q * Z => assert (length (names (fst p)) =? 1)%nat) dat_all ;;
  mapM (fun p : rarray Q * Z =>
          mapM (fun prc => percent_to_class prc (snd p)) (rows (fst p)))
       dat_all.

(** [find_out(x)] (lines 257-261): the labels of all simulations that are
    [x]. *)
Definition find_out (dat_out : list (list Z)) (x : Z) : Z :=
  fold_left Z.add (map (fun v => if (v =? x)%Z then 1%Z else 0%Z) (concat dat_out)) 0%Z.

(** [sum([d.shape[0] for d in dat_out])] *)
Definition total_rows (dat_out : list (list Z)) : Z :=
  fold_left Z.add (map (fun d => Z.of_nat (length d)) dat_out) 0%Z.

(** Lines 262-276: the five totals, the percentages that are printed
    ([tot_0 / tot * 100]: a [ZeroDivisionError] when there is no label) and
    the assertion on the totals. *)
Definition ground_truth (dat_out : list (list Z)) : res unit :=
  let tot_0 := find_out dat_out 0 in
  let tot_1 := find_out dat_out 1 in
  let tot_2 := find_out dat_out 2 in
  let tot_3 := find_out dat_out 3 in
  let tot_4 := find_out dat_out 4 in
  let tot := (tot_0 + tot_1 + tot_2 + tot_3 + tot_4)%Z in
  if (tot =? 0)%Z then Raise ZeroDivisionError
  else assert (tot_0 + tot_1 + tot_2 + tot_3 + tot_4 =? total_rows dat_out)%Z.

(** The share of the queue in units of the fair share, [prc * num_flws]. *)
Definition share (prc : Q) (num_flws : Z) : Q := prc * inject_Z num_flws.

(** Two simulations of two flows: shares of 0.9, 0.5 and 0.1 of the queue,
    and a share of 0.7. *)
Definition demo_out : list (rarray Q * Z) :=
  [({| names := ["occupancy"]%string; rows := [[0.9]; [0.5]; [0.1]] |}, 2%Z);
   ({| names := ["occupancy"]%string; rows := [[0.7]] |}, 2%Z)].

Close Scope Q_scope.

End LstmLabels.

(** *** [scale_fets] of train_lstm.py (lines 112-151) *)

Module LstmScaling.

Open Scope R_scope.

(** [dat[fet]] for the field at position [j]: numpy answers the name of a
    field that [dat] has not with a [ValueError]. *)
Definition field (dat : sarray) (j : nat) : res column :=
  match nth_error dat j with
  | Some fet_values => Ok fet_values
  | None => Raise ValueError
  end.

(** Lines 131-134, one simulation: the global minimum and maximum so far
    are narrowed by the minimum and the maximum of the feature in [dat]. *)
Definition widen (j : nat) (prms : R * R) (dat : sarray) : res (R * R) :=
  fet_values <- field dat j ;;
  lo <- np_min fet_values ;;
  hi <- np_max fet_values ;;
  Ok (Rmin (fst prms) lo, Rmax (snd prms) hi).

Fixpoint widen_all (j : nat) (prms : R * R) (dat_all : list sarray) : res (R * R) :=
  match dat_all with
  | [] => Ok prms
  | dat :: rest => prms <- widen j prms dat ;; widen_all j prms rest
  end.

(** Lines 126-135 for the feature at [j], over a list of simulations that
    is not empty.  [min_global] starts at infinity and [max_global] at minus
    infinity, so that after the first simulation they are the minimum and
    the maximum of the feature in it. *)
Definition global_prms (first : sarray) (rest : list sarray) (j : nat) : res (R * R) :=
  fet_values <- field first j ;;
  lo <- np_min fet_values ;;
  hi <- np_max fet_values ;;
  widen_all j (lo, hi) rest.

(** [normalize(dat)] (lines 137-149): the features of [fets], by position. *)
Definition normalize (scl_prms : list (R * R)) (dat : sarray) : res sarray :=
  mapM (fun p : nat * (R * R) =>
          let '(j, (min_in, max_in)) := p in
          fet_values <- field dat j ;;
          if Req_dec_T min_in max_in then Ok (np_zeros (length fet_values))
          else mapM (fun x => Scaling.scale x min_in max_in 0 1) fet_values)
       (combine (seq 0 (length scl_prms)) scl_prms).

(** [scale_fets(dat_all)]: the assertion of line 119, the parameters of the
    features of the first simulation, and every simulation normalised. *)
Definition scale_fets (dat_all : list sarray) : res (list sarray * list (R * R)) :=
  match dat_all with
  | [] => Raise AssertionError
  | first :: rest =>
      scl_prms <- mapM (global_prms first rest) (seq 0 (length first)) ;;
      nrm <- mapM (normalize scl_prms) dat_all ;;
      Ok (nrm, scl_prms)
  end.

(** The values of the feature at [j] in all simulations. *)
Definition fet_values_all (dat_all : list sarray) (j : nat) : list R :=
  concat (map (fun dat => nth j dat []) dat_all).

(** Simulations of one dtype of [k] fields, with a row at least each. *)
Definition same_fields (k : nat) (dat_all : list sarray) : Prop :=
  Forall (fun dat : sarray =>
            @length column dat = k /\ Forall (fun col : column => col <> []) dat)
    dat_all.

Close Scope R_scope.

End LstmScaling.

(** *** [test] of train_lstm.py (lines 454-491) *)

Module LstmTest.

(** A batch of the test loader: [ins.size()] is [(bch_tst, seq_len, _)], and
    [labs], flattened, is the label of every element of every sequence. *)
Record batch : Type := {
  bch_tst : nat;
  seq_len : nat;
  labs : list Z
}.

Section Test.

(** Modelled from the spec: the network is not under src/ (spec, section 6,
    "forward-pass invocation").  [predict b] is [torch.argmax(out, dim=1)]
    for the output of the network on the batch [b], a class for every
    label. *)
Variable predict : batch -> list Z.

(** [torch.argmax(a, dim=1).eq(b).type(torch.IntTensor).sum().item()]: the
    positions at which the class and the label are equal. *)
Definition num_equal (b : batch) : Z :=
  fold_left Z.add
    (map (fun p : Z * Z => if (fst p =? snd p)%Z then 1%Z else 0%Z)
       (combine (predict b) (labs b)))
    0%Z.

(** Lines 464-486: [num_correct] and [total] after the batches. *)
Definition count (ldr_tst : list batch) : Z * Z :=
  fold_left
    (fun (acc : Z * Z) (b : batch) =>
       ((fst acc + num_equal b)%Z, (snd acc + Z.of_nat (bch_tst b * seq_len b))%Z))
    ldr_tst (0%Z, 0%Z).

(** [test(net, ldr_tst, dev)]: [num_correct / total] on two integers is a
    [ZeroDivisionError] for [total == 0]. *)
Definition test (ldr_tst : list batch) : res Q :=
  let '(num_correct, total) := count ldr_tst in
  if (total =? 0)%Z then Raise ZeroDivisionError
  else Ok (inject_Z num_correct / inject_Z total)%Q.

(** The labels and the classes of a batch fit its size. *)
Definition well_formed (b : batch) : Prop :=
  length (labs b) = (bch_tst b * seq_len b)%nat /\ length (predict b) = length (labs b).

(** The samples of a loader. *)
Definition samples (ldr_tst : list batch) : Z :=
  fold_left Z.add (map (fun b => Z.of_nat (bch_tst b * seq_len b)) ldr_tst) 0%Z.

End Test.

(** Two sequences of two elements, of which the network gets three labels
    right. *)
Definition demo_batch : batch := {| bch_tst := 2; seq_len := 2; labs := [0; 1; 2; 3]%Z |}.

Definition demo_predict (_ : batch) : list Z := [0; 1; 2; 0]%Z.

(** Accuracies as [test] returns them. *)
Definition demo_accs (k : Z) : Q := if (k =? 2)%Z then (3 # 4)%Q else (1 # 2)%Q.

End LstmTest.

(** ** The arguments of a run: [prepare_args] (train.py, lines 725-733) and
       the first lines of [run] (train_lstm.py, lines 503-506) *)

Module Args.

(** The values of the arguments. *)
Inductive value : Type :=
| VBool (b : bool)
| VInt (z : Z)
| VFloat (q : Q)
| VStr (s : String.string).

(** [if v:] *)
Definition truthy (v : value) : bool :=
  match v with
  | VBool b => b
  | VInt z => negb (z =? 0)%Z
  | VFloat q => negb (Qeq_bool q 0)
  | VStr s => negb (String.eqb s String.EmptyString)
  end.

(** A [dict] with string keys: its items in insertion order, no key
    twice. *)
Definition dict : Type := list (String.string * value).

(** [d[k]]: a [KeyError] for a key that [d] has not. *)
Fixpoint lookup (k : String.string) (d : dict) : option value :=
  match d with
  | [] => None
  | (k', v) :: t => if String.eqb k k' then Some v else lookup k t
  end.

Definition getitem (d : dict) (k : String.string) : res value :=
  match lookup k d with
  | Some v => Ok v
  | None => Raise KeyError
  end.

(** [d[k] = v]: the value of a key that [d] has is replaced, a new key comes
    last. *)
Fixpoint setitem (k : String.string) (v : value) (d : dict) : dict :=
  match d with
  | [] => [(k, v)]
  | (k', v') :: t => if String.eqb k k' then (k', v) :: t else (k', v') :: setitem k v t
  end.

(** [d.update(other)] *)
Definition update (d other : dict) : dict :=
  fold_left (fun d kv => setitem (fst kv) (snd kv) d) other d.

(** A dict as Python has it: no key twice. *)
Definition well_keyed (d : dict) : Prop := NoDup (map fst d).

(** [prepare_args(args_)] with the dict [DEFAULTS] of the module
    [defaults], which is not under src/: [copy.copy] makes a dict of its
    own, that the update changes.  Returns [args] and [DEFAULTS] as it is
    afterwards. *)
Definition prepare_args (DEFAULTS args_ : dict) : dict * dict :=
  let args := DEFAULTS in
  let args := update args args_ in
  (args, DEFAULTS).

(** [DEFAULTS] and [EPCS_MAX] of train_lstm.py (lines 26-43). *)
Definition DEFAULTS : dict :=
  [("epochs", VInt 100); ("num_gpus", VInt 0); ("train_batch", VInt 10);
   ("test_batch", VInt 10000); ("learning_rate", VFloat 0.001);
   ("momentum", VFloat 0.9); ("early_stop", VBool false); ("val_patience", VInt 10);
   ("val_improvement_thresh", VFloat 0.1); ("conf_trials", VInt 1);
   ("max_attempts", VInt 10); ("no_rand", VBool false); ("timeout_s", VInt (-1));
   ("out_dir", VStr ".")]%string.

Definition EPCS_MAX : Z := 10000.

(** Lines 503-506 of [run(args_)]: [args = DEFAULTS] names the dict of the
    module, so that the update and the assignment to [args["epochs"]] change
    [DEFAULTS] itself.  [defaults] is [DEFAULTS] as the call finds it;
    returns [args] and [DEFAULTS] as it is afterwards, the same dict. *)
Definition run_args (defaults args_ : dict) : res (dict * dict) :=
  let args := update defaults args_ in
  early_stop <- getitem args "early_stop" ;;
  let args := if truthy early_stop then setitem "epochs" (VInt EPCS_MAX) args else args in
  Ok (args, args).

End Args.

(** ** The command line: the verifiers of cl_args.py *)

Module ClArgs.

(** The attributes of the parsed arguments that the verifiers read.
    [num_sims] is [None] when the default of the option is. *)
Record Namespace : Type := {
  out_dir : String.string;
  warmup_percent : Q;
  num_sims : option Z;
  early_stop : bool;
  epochs : Z;
  degree : Z;
  max_iter : Z;
  folds : Z;
  keep_percent : Q;
  scale_params : String.string
}.

(** The paths that exist. *)
Definition files : Type := list String.string.

(** [path.exists(p)]: the empty path does not exist. *)
Definition exists_ (fs : files) (p : String.string) : bool :=
  negb (String.eqb p String.EmptyString) && existsb (String.eqb p) fs.

(** [os.makedirs(p)] for a path that does not exist: the empty path is a
    [FileNotFoundError]; otherwise the directory is made.  The parents that
    are made with it, and the failures of the operating system, are outside
    the model. *)
Definition makedirs (p : String.string) (fs : files) : res unit * files :=
  if String.eqb p String.EmptyString then (Raise FileNotFoundError, fs)
  else (Ok tt, p :: fs).

(** A verifier: it returns the arguments or raises, and leaves the files as
    they are or makes a directory. *)
Definition verifier : Type := Namespace -> files -> res Namespace * files.

(** The default [psr_verify=lambda args: args]. *)
Definition no_verify : verifier := fun args fs => (Ok args, fs).

(** [lambda args: verify(psr_verify(args))] *)
Definition then_verify (psr_verify verify : verifier) : verifier :=
  fun args fs =>
    match psr_verify args fs with
    | (Ok args, fs) => verify args fs
    | (Raise e, fs) => (Raise e, fs)
    end.

(** [add_out] (lines 10-23) *)
Definition verify_out : verifier :=
  fun args fs =>
    if exists_ fs (out_dir args) then (Ok args, fs)
    else match makedirs (out_dir args) fs with
         | (Ok _, fs) => (Ok args, fs)
         | (Raise e, fs) => (Raise e, fs)
         end.

Definition add_out (psr_verify : verifier) : verifier := then_verify psr_verify verify_out.

(** [add_warmup] (lines 26-43) *)
Definition verify_warmup : verifier :=
  fun args fs =>
    (_ <- assert (Qle_bool 0 (warmup_percent args)
                  && negb (Qle_bool 100 (warmup_percent args))) ;;
     Ok args, fs).

Definition add_warmup (psr_verify : verifier) : verifier :=
  then_verify psr_verify verify_warmup.

(** [add_num_sims] (lines 46-59): [None >= 0] is a [TypeError]. *)
Definition verify_num_sims : verifier :=
  fun args fs =>
    (match num_sims args with
     | None => Raise TypeError
     | Some n => _ <- assert (0 <=? n)%Z ;; Ok args
     end, fs).

Definition add_num_sims (psr_verify : verifier) : verifier :=
  then_verify psr_verify verify_num_sims.

(** [add_common] (lines 62-72): [add_out] on what [add_warmup] returns. *)
Definition add_common (psr_verify : verifier) : verifier :=
  add_out (add_warmup psr_verify).

Section Training.

(** [defaults.EPCS_MAX]; the module [defaults] is not under src/. *)
Variable EPCS_MAX : Z.

(** [args.epochs = defaults.EPCS_MAX] *)
Definition set_epochs (args : Namespace) : Namespace :=
  {| out_dir := out_dir args; warmup_percent := warmup_percent args;
     num_sims := num_sims args; early_stop := early_stop args; epochs := EPCS_MAX;
     degree := degree args; max_iter := max_iter args; folds := folds args;
     keep_percent := keep_percent args; scale_params := scale_params args |}.

(** [add_training] (lines 75-187) *)
Definition verify_training : verifier :=
  fun args fs =>
    (let args := if early_stop args then set_epochs args else args in
     _ <- assert (0 <=? degree args)%Z ;;
     _ <- assert (0 <? max_iter args)%Z ;;
     _ <- assert (2 <=? folds args)%Z ;;
     _ <- assert (negb (Qle_bool (keep_percent args) 0)
                  && Qle_bool (keep_percent args) 100) ;;
     Ok args, fs).

Definition add_training (psr_verify : verifier) : verifier :=
  then_verify (add_num_sims (add_common psr_verify)) verify_training.

End Training.

(** [add_running] (lines 190-205) *)
Definition verify_running : verifier :=
  fun args fs => (_ <- assert (exists_ fs (scale_params args)) ;; Ok args, fs).

Definition add_running (psr_verify : verifier) : verifier :=
  then_verify (add_common psr_verify) verify_running.

(** The arguments that every check of [add_training] accepts. *)
Definition acceptable (args : Namespace) : Prop :=
  (0 <= warmup_percent args < 100)%Q /\
  out_dir args <> String.EmptyString /\
  (exists n, num_sims args = Some n /\ (0 <= n)%Z) /\
  (0 <= degree args)%Z /\ (0 < max_iter args)%Z /\ (2 <= folds args)%Z /\
  (0 < keep_percent args <= 100)%Q.

(** The files after [add_out]. *)
Definition with_out_dir (args : Namespace) (fs : files) : files :=
  if exists_ fs (out_dir args) then fs else out_dir args :: fs.

Definition demo_namespace : Namespace :=
  {| out_dir := "out"; warmup_percent := 10; num_sims := Some 3%Z; early_stop := true;
     epochs := 100; degree := 3; max_iter := 1000; folds := 5; keep_percent := 50;
     scale_params := "scale_params.json" |}.

End ClArgs.

(** ** The training loop of train.py, once more *)

Module TrainMore.

Import Train.

Section Loop.

Variables Model Batch : Type.
Variable fit : Model -> Batch -> Model.
Variable cfg : config Batch.

(** The model after a training step on each of the batches [todo] of the
    epoch [epoch_idx], and after every batch of each of the epochs [todo]. *)
Definition after_batches (epoch_idx : nat) (todo : list nat) (m : Model) : Model :=
  fold_left (fun m bch_idx_trn => fit m (ldr_trn cfg epoch_idx bch_idx_trn)) todo m.

Definition after_epochs (todo : list nat) (m : Model) : Model :=
  fold_left (fun m epoch_idx => after_batches epoch_idx (seq 0 (num_bchs_trn cfg)) m)
    todo m.

(** The live model is the model of the checkpoint file, when the file
    exists. *)
Definition synced (s : state Model) : Prop :=
  forall saved, out_flp s = Some saved -> net s = saved.

End Loop.

Arguments after_batches {Model Batch} fit cfg epoch_idx todo m.
Arguments after_epochs {Model Batch} fit cfg todo m.
Arguments synced {Model} s.

(** A run without early stopping: two epochs of three batches. *)
Definition demo_plain : config unit := {|
  num_epochs := 2;
  ldr_trn := fun _ _ => tt;
  num_bchs_trn := 3;
  ldr_val := None;
  ely_stp := false;
  val_pat_max := 3;
  val_imp_thresh := 0.1;
  tim_out_s := 0;
  elapsed := fun _ => 0
|}.

(** A run with early stopping and a validation loader without a batch. *)
Definition demo_no_val : config unit := {|
  num_epochs := 2;
  ldr_trn := fun _ _ => tt;
  num_bchs_trn := 3;
  ldr_val := Some [];
  ely_stp := true;
  val_pat_max := 3;
  val_imp_thresh := 0.1;
  tim_out_s := 0;
  elapsed := fun _ => 0
|}.

(** A run with a patience of one. *)
Definition demo_impatient : config unit := {|
  num_epochs := 2;
  ldr_trn := fun _ _ => tt;
  num_bchs_trn := 3;
  ldr_val := Some [tt];
  ely_stp := true;
  val_pat_max := 1;
  val_imp_thresh := 0.1;
  tim_out_s := 0;
  elapsed := fun _ => 0
|}.

End TrainMore.

(** ** The validation schedule of train_lstm.py ([train], lines 362-373, 403) *)

Module LstmTrain.

Section Schedule.

(** The module constant of line 54, 15 in the source. *)
Variable VALS_PER_EPC : Z.

(** Lines 364-373, from [len(ldr_trn)]: the assertion, then one batch per
    validation pass for a short epoch, and
    [math.floor(len(ldr_trn) / (VALS_PER_EPC - 1))] otherwise. *)
Definition bchs_per_val (num_bchs_trn : nat) : res nat :=
  _ <- assert (2 <=? VALS_PER_EPC)%Z ;;
  if (Z.of_nat num_bchs_trn <? VALS_PER_EPC)%Z then Ok 1%nat
  else Ok (Z.to_nat (Qfloor (inject_Z (Z.of_nat num_bchs_trn)
                             / inject_Z (VALS_PER_EPC - 1)))).

End Schedule.

(** [not bch_idx_trn % bchs_per_val] of line 403. *)
Definition validation_due (bchs_per_val bch_idx_trn : nat) : res bool :=
  if (bchs_per_val =? 0)%nat then Raise ZeroDivisionError
  else Ok (bch_idx_trn mod bchs_per_val =? 0)%nat.

(** The batches of an epoch that are followed by a validation pass, under
    early stopping. *)
Definition validated (bchs_per_val num_bchs_trn : nat) : list nat :=
  filter (fun bch_idx_trn =>
            match validation_due bchs_per_val bch_idx_trn with
            | Ok due => due
            | Raise _ => false
            end) (seq 0 num_bchs_trn).

End LstmTrain.

(** ** Worlds to run [make_datasets] in *)

Module IngestMore.

Import Ingest.

(** A directory of two files, of which none can be loaded. *)
Definition unloadable_world : World unit := {|
  load_sim := fun _ => (tt, None);
  isfinite := fun _ => true;
  oracle_fet := 2%nat;
  unfair_flws := fun _ => 1%Z;
  fair_flws := fun _ => 1%Z;
  listdir_sorted := fun _ => ["a.sim"; "b.sim"]%string;
  shuffle_sims := fun found => found;
  draws := fun _ k => k
|}.

(** Two simulation files of the same name in two directories. *)
Definition same_name_args : Args := {|
  sims := ["a/x.sim"; "b/x.sim"]%string;
  data_dir := "data"%string;
  num_sims := None;
  tmp_dir := None;
  out_dir := "out"%string;
  warmup_percent := 10;
  keep_percent := 50;
  standardize := false
|}.

End IngestMore.

(** ** A trial: [run_torch] (train.py, lines 666-722) *)

Module RunTorch.

Import Split.

(** What a trial can raise: the exceptions of the model so far, and the
    [AttributeError] of an attribute read on [None]. *)
Inductive raised : Type :=
| AttributeError
| Other (e : exn).

Section Run.

(** The result [(acc_tst, tim_trn_s)] of a trial. *)
Variable A : Type.

(** Modelled from the spec: torch, the models and [utils.Dataset] are not
    under src/.  [train_and_test] is the rest of [run_torch] from line 694
    on, the training, the reload of the model and the test, on the three
    loaders; the making of the network (lines 673-680) and the moves of the
    data to the device raise nothing. *)
Variable train_and_test : loader -> option loader -> loader -> A + raised.

(** [run_torch]: the split of line 683 takes the default of [use_val],
    [False]; under early stopping line 692 reads [ldr_val.dataset]. *)
Definition run_torch (draw : nat -> nat) (is_svm : bool)
  (dat_in dat_out dat_out_raw dat_out_oracle num_flws : sarray)
  (train_batch test_batch : Z) (early_stop : bool) : A + raised :=
  match split_data draw is_svm dat_in dat_out dat_out_raw dat_out_oracle num_flws
          train_batch test_batch false with
  | Raise e => inr (Other e)
  | Ok (ldr_trn, ldr_val, ldr_tst) =>
      if early_stop then
        match ldr_val with
        | None => inr AttributeError
        | Some _ => train_and_test ldr_trn ldr_val ldr_tst
        end
      else train_and_test ldr_trn ldr_val ldr_tst
  end.

End Run.

Arguments run_torch {A} train_and_test draw is_svm dat_in dat_out dat_out_raw
  dat_out_oracle num_flws train_batch test_batch early_stop.

(** A rest of the trial that always succeeds. *)
Definition demo_rest (_ : loader) (_ : option loader) (_ : loader) : (Q * Q) + raised :=
  inl (1 # 2, 3)%Q.

End RunTorch.

(* ===================================================================== *)
(** * Part II: the theorems *)
(* ===================================================================== *)

Module ScalingFacts.

Import Scaling.
Open Scope R_scope.

(** *** The error monad *)

Lemma mapM_Ok_map {A B : Type} (f : A -> res B) (h : A -> B) (l : list A) :
  (forall a, In a l -> f a = Ok (h a)) -> mapM f l = Ok (map h l).
Proof.
  induction l as [|a l IH]; intros H; simpl; [reflexivity|].
  rewrite (H a (or_introl eq_refl)). simpl.
  rewrite IH by (intros; apply H; right; assumption). reflexivity.
Qed.

Lemma bind_no_raise {A B : Type} (e : exn) (c : res A) (k : A -> res B) :
  c <> Raise e -> (forall a, c = Ok a -> k a <> Raise e) -> bind c k <> Raise e.
Proof.
  destruct c as [a|e']; simpl; intros Hc Hk.
  - apply Hk. reflexivity.
  - intro H. apply Hc. congruence.
Qed.

Lemma mapM_no_raise {A B : Type} (e : exn) (f : A -> res B) (l : list A) :
  (forall a, In a l -> f a <> Raise e) -> mapM f l <> Raise e.
Proof.
  induction l as [|a l IH]; intros H; simpl; [discriminate|].
  apply bind_no_raise; [apply H; left; reflexivity|].
  intros b _. apply bind_no_raise; [apply IH; intros; apply H; right; assumption|].
  intros; discriminate.
Qed.

(** *** Indexing *)

Lemma py_index_in_range (len : nat) (i : Z) :
  (0 <= i < Z.of_nat len)%Z -> py_index len i = Ok (Z.to_nat i).
Proof.
  intros [H0 H1]. unfold py_index.
  destruct (Z.leb_spec 0 i); [|lia]. destruct (Z.ltb_spec i (Z.of_nat len)); [|lia].
  reflexivity.
Qed.

Lemma py_index_no_zero_division (len : nat) (i : Z) :
  py_index len i <> Raise ZeroDivisionError.
Proof.
  unfold py_index.
  destruct ((0 <=? i) && (i <? Z.of_nat len))%Z; [discriminate|].
  destruct ((- Z.of_nat len <=? i) && (i <? 0))%Z; discriminate.
Qed.

Lemma length_set_nth {A : Type} (i : nat) (v : A) (l : list A) :
  length (set_nth i v l) = length l.
Proof.
  revert i; induction l as [|h t IH]; intros [|i]; simpl; auto.
Qed.

Lemma nth_set_nth_eq {A : Type} (i : nat) (v d : A) (l : list A) :
  (i < length l)%nat -> nth i (set_nth i v l) d = v.
Proof.
  revert i; induction l as [|h t IH]; intros [|i] H; simpl in *; try lia; auto.
  apply IH. lia.
Qed.

Lemma nth_set_nth_neq {A : Type} (i j : nat) (v d : A) (l : list A) :
  i <> j -> nth j (set_nth i v l) d = nth j l d.
Proof.
  revert i j; induction l as [|h t IH]; intros [|i] [|j] H; simpl; auto; try lia.
Qed.

(** *** Sums, means and standard deviations *)

Lemma np_sum_app (l1 l2 : list R) : np_sum (l1 ++ l2) = np_sum l1 + np_sum l2.
Proof.
  unfold np_sum. induction l1 as [|x l1 IH]; simpl; [lra | rewrite IH; lra].
Qed.

(** *** The parameter table *)

Lemma fill_prms_lookup (standardize : bool) (dat : sarray) (scl_grps : list Z)
  (P : Z -> R * R) (todo : list Z) :
  forall tbl : table,
  Forall (fun g => (0 <= g < Z.of_nat (length tbl))%Z) todo ->
  (forall g, In g todo ->
     grp_prms standardize (scl_grp_fets scl_grps g dat) = Ok (P g)) ->
  exists tbl',
    fill_prms standardize dat scl_grps todo tbl = Ok tbl' /\
    length tbl' = length tbl /\
    forall g, (0 <= g)%Z ->
      (In g todo -> nth (Z.to_nat g) tbl' None = Some (P g)) /\
      (~ In g todo -> nth (Z.to_nat g) tbl' None = nth (Z.to_nat g) tbl None).
Proof.
  induction todo as [|g0 rest IH]; intros tbl Hrange Hprm.
  - exists tbl. simpl. repeat split; auto. intros [].
  - inversion Hrange as [|? ? Hg0 Hrest]; subst.
    simpl. rewrite (Hprm g0 (or_introl eq_refl)). simpl.
    rewrite (py_index_in_range _ _ Hg0). simpl.
    destruct (IH (set_nth (Z.to_nat g0) (Some (P g0)) tbl)) as (tbl' & Hrun & Hlen & Hget).
    + rewrite length_set_nth. exact Hrest.
    + intros g Hg. apply Hprm. right. exact Hg.
    + exists tbl'. rewrite length_set_nth in Hlen. repeat split; auto.
      * intros [Heq|Hin].
        -- subst g. destruct (in_dec Z.eq_dec g0 rest) as [Hin|Hnin].
           ++ apply (Hget g0 H). exact Hin.
           ++ rewrite (proj2 (Hget g0 H) Hnin). apply nth_set_nth_eq. lia.
        -- apply (Hget g H). exact Hin.
      * intros Hnin. rewrite (proj2 (Hget g H)) by (intro; apply Hnin; right; assumption).
        apply nth_set_nth_neq. intro Heq. apply Hnin. left. lia.
Qed.

Lemma np_div_nonzero (x y : R) : y <> 0 -> np_div x y = Ok (x / y).
Proof.
  intros Hy. unfold np_div. destruct (Req_dec_T y 0); [contradiction | reflexivity].
Qed.

(** The guards of lines 105 and 114 keep every division away from zero:
    the loop body returns the closed form and never raises. *)
Lemma scale_col_closed (standardize : bool) (prm_1 prm_2 : R) (fet_values : column) :
  scale_col standardize prm_1 prm_2 fet_values
  = Ok (rescaled standardize (prm_1, prm_2) fet_values).
Proof.
  unfold scale_col, rescaled, standardized, ranged. simpl.
  destruct standardize.
  - destruct (Req_dec_T prm_2 0) as [|Hn]; [reflexivity|].
    apply mapM_Ok_map. intros x _. apply np_div_nonzero. exact Hn.
  - destruct (Req_dec_T prm_1 prm_2) as [|Hn]; [reflexivity|].
    apply mapM_Ok_map. intros x _. unfold scale.
    rewrite np_div_nonzero by lra. reflexivity.
Qed.

Lemma scale_fets_closed (dat : sarray) (scl_grps : list Z) (standardize : bool)
  (P : Z -> R * R) :
  length scl_grps = length dat ->
  dense_groups scl_grps ->
  (forall g, In g scl_grps ->
     grp_prms standardize (scl_grp_fets scl_grps g dat) = Ok (P g)) ->
  scale_fets dat scl_grps standardize
  = Ok (map (fun p => rescaled standardize (P (fst p)) (snd p)) (combine scl_grps dat),
        map (fun p => P (fst p)) (combine scl_grps dat)).
Proof.
  intros Hlen Hdense Hprm. unfold scale_fets.
  rewrite Hlen, Nat.eqb_refl. simpl.
  destruct (fill_prms_lookup standardize dat scl_grps P (scl_grps_unique scl_grps)
              (repeat None (length (scl_grps_unique scl_grps))))
    as (tbl & Hrun & Hlen' & Hget).
  - rewrite repeat_length. apply Forall_forall. intros g Hg.
    unfold dense_groups in Hdense. rewrite Forall_forall in Hdense.
    apply Hdense. apply (nodup_In Z.eq_dec). exact Hg.
  - intros g Hg. apply Hprm. unfold scl_grps_unique in Hg.
    rewrite nodup_In in Hg. exact Hg.
  - rewrite Hrun. simpl. rewrite repeat_length in Hlen'.
    rewrite (@mapM_Ok_map _ _ (scale_one standardize tbl)
               (fun p => (P (fst p), rescaled standardize (P (fst p)) (snd p)))).
    + simpl. rewrite !map_map. reflexivity.
    + intros [g col] Hin. apply in_combine_l in Hin.
      unfold dense_groups in Hdense. rewrite Forall_forall in Hdense.
      pose proof (Hdense g Hin) as Hg.
      unfold scale_one, read_prms. simpl.
      rewrite Hlen', (py_index_in_range _ _ Hg). simpl.
      rewrite (proj1 (Hget g (proj1 Hg))) by (apply (nodup_In Z.eq_dec); exact Hin).
      destruct (P g) as [p1 p2]. simpl. rewrite scale_col_closed. reflexivity.
Qed.

(** *** No division by zero, whatever the input *)

Lemma np_min_no_zero_division (l : list R) : np_min l <> Raise ZeroDivisionError.
Proof. destruct l; discriminate. Qed.

Lemma np_max_no_zero_division (l : list R) : np_max l <> Raise ZeroDivisionError.
Proof. destruct l; discriminate. Qed.

Lemma grp_prms_no_zero_division (standardize : bool) (cols : sarray) :
  grp_prms standardize cols <> Raise ZeroDivisionError.
Proof.
  unfold grp_prms, rdc. destruct standardize; [discriminate|].
  repeat (apply bind_no_raise; intros);
    try apply mapM_no_raise; intros;
    try apply np_min_no_zero_division; try apply np_max_no_zero_division.
  discriminate.
Qed.

Lemma fill_prms_no_zero_division (standardize : bool) (dat : sarray)
  (scl_grps todo : list Z) :
  forall tbl, fill_prms standardize dat scl_grps todo tbl <> Raise ZeroDivisionError.
Proof.
  induction todo as [|g rest IH]; intros tbl; simpl; [discriminate|].
  apply bind_no_raise; [apply grp_prms_no_zero_division|]. intros prm _.
  apply bind_no_raise; [apply py_index_no_zero_division|]. intros i _. apply IH.
Qed.

Lemma scale_fets_no_zero_division (dat : sarray) (scl_grps : list Z) (standardize : bool) :
  scale_fets dat scl_grps standardize <> Raise ZeroDivisionError.
Proof.
  unfold scale_fets.
  apply bind_no_raise; [unfold assert; destruct (_ =? _)%nat; discriminate|]. intros _ _.
  apply bind_no_raise; [apply fill_prms_no_zero_division|]. intros tbl _.
  apply bind_no_raise; [|intros; discriminate].
  apply mapM_no_raise. intros [g col] _. unfold scale_one, read_prms. simpl.
  apply bind_no_raise.
  - apply bind_no_raise; [apply py_index_no_zero_division|].
    intros i _. destruct (nth i tbl None); discriminate.
  - intros [p1 p2] _. rewrite scale_col_closed. simpl. discriminate.
Qed.

(** *** Reading the result *)

Lemma nth_map_combine {B : Type} (f : Z * column -> B) (d : B)
  (scl_grps : list Z) (dat : sarray) (j : nat) :
  length scl_grps = length dat -> (j < length dat)%nat ->
  nth j (map f (combine scl_grps dat)) d = f (nth j scl_grps 0%Z, nth j dat []).
Proof.
  intros Hlen Hj.
  rewrite (nth_indep _ d (f (0%Z, []))).
  - rewrite map_nth, combine_nth by exact Hlen. reflexivity.
  - rewrite length_map, length_combine, Hlen. lia.
Qed.

Lemma length_rescaled (standardize : bool) (prm : R * R) (col : column) :
  length (rescaled standardize prm col) = length col.
Proof.
  unfold rescaled, standardized, ranged, np_zeros.
  destruct standardize; [destruct (Req_dec_T (snd prm) 0) | destruct (Req_dec_T (fst prm) (snd prm))];
    rewrite ?repeat_length, ?length_map; reflexivity.
Qed.

Lemma nth_np_zeros (n i : nat) : nth i (np_zeros n) 0 = 0.
Proof.
  unfold np_zeros. revert i. induction n as [|n IH]; intros [|i]; simpl; auto.
Qed.

Lemma nth_standardized (mean std : R) (col : column) (i : nat) :
  (i < length col)%nat ->
  nth i (standardized mean std col) 0
  = if Req_dec_T std 0 then 0 else (nth i col 0 - mean) / std.
Proof.
  intros Hi. unfold standardized. destruct (Req_dec_T std 0).
  - apply nth_np_zeros.
  - rewrite (nth_indep _ 0 ((0 - mean) / std)) by (rewrite length_map; exact Hi).
    apply (map_nth (fun x => (x - mean) / std)).
Qed.

(** In standardize mode the table always has its parameters. *)
Lemma scale_fets_standardize (dat : sarray) (scl_grps : list Z) :
  length scl_grps = length dat ->
  dense_groups scl_grps ->
  scale_fets dat scl_grps true
  = Ok (map (fun p => standardized (np_mean (grp_values dat scl_grps (fst p)))
                                   (np_std (grp_values dat scl_grps (fst p))) (snd p))
            (combine scl_grps dat),
        map (fun p => (np_mean (grp_values dat scl_grps (fst p)),
                       np_std (grp_values dat scl_grps (fst p))))
            (combine scl_grps dat)).
Proof.
  intros Hlen Hdense.
  rewrite (scale_fets_closed dat scl_grps true
             (fun g => (np_mean (grp_values dat scl_grps g),
                        np_std (grp_values dat scl_grps g)))); auto.
Qed.

Lemma sqrt2_bounds : 1.414 < sqrt 2 < 1.415.
Proof.
  assert (H0 : 0 <= sqrt 2) by apply sqrt_pos.
  assert (H2 : sqrt 2 * sqrt 2 = 2) by (apply sqrt_sqrt; lra).
  split; nra.
Qed.

Lemma np_mean_1_to_5 : np_mean [1; 2; 3; 4; 5] = 3.
Proof. unfold np_mean, np_sum. simpl. lra. Qed.

Lemma np_std_1_to_5 : np_std [1; 2; 3; 4; 5] = sqrt 2.
Proof.
  unfold np_std. rewrite np_mean_1_to_5. f_equal.
  unfold np_mean, np_sum. simpl. lra.
Qed.



(** *** Degenerate groups *)

Lemma np_sum_const (c : R) (l : list R) :
  (forall x, In x l -> x = c) -> np_sum l = INR (length l) * c.
Proof.
  induction l as [|x l IH]; intros H.
  - simpl. lra.
  - change (np_sum (x :: l)) with (x + np_sum l).
    rewrite IH by (intros; apply H; right; assumption).
    rewrite (H x (or_introl eq_refl)). cbn [length].
    rewrite S_INR. lra.
Qed.

Lemma np_mean_const (c : R) (l : list R) :
  l <> [] -> (forall x, In x l -> x = c) -> np_mean l = c.
Proof.
  intros Hne H. unfold np_mean. rewrite (np_sum_const c l H).
  assert (0 < INR (length l)).
  { apply lt_0_INR. destruct l; [contradiction | simpl; lia]. }
  field. lra.
Qed.

Lemma np_std_const (c : R) (l : list R) :
  (forall x, In x l -> x = c) -> np_std l = 0.
Proof.
  intros H. unfold np_std.
  replace (np_mean (map (fun x => (x - np_mean l) * (x - np_mean l)) l)) with 0;
    [apply sqrt_0|].
  unfold np_mean at 1. rewrite (np_sum_const 0).
  - rewrite length_map. unfold Rdiv. ring.
  - intros y Hy. apply in_map_iff in Hy. destruct Hy as (x & <- & Hx).
    destruct l as [|x0 l']; [destruct Hx|].
    rewrite (np_mean_const c) by (auto; discriminate). rewrite (H x Hx). ring.
Qed.

Lemma fold_left_Rmin_const (c : R) (t : list R) :
  (forall x, In x t -> x = c) -> fold_left Rmin t c = c.
Proof.
  induction t as [|x t IH]; intros H; simpl; [reflexivity|].
  rewrite (H x (or_introl eq_refl)). rewrite Rmin_left by lra.
  apply IH. intros; apply H; right; assumption.
Qed.

Lemma fold_left_Rmax_const (c : R) (t : list R) :
  (forall x, In x t -> x = c) -> fold_left Rmax t c = c.
Proof.
  induction t as [|x t IH]; intros H; simpl; [reflexivity|].
  rewrite (H x (or_introl eq_refl)). rewrite Rmax_left by lra.
  apply IH. intros; apply H; right; assumption.
Qed.

Lemma min_of_const (c : R) (l : list R) :
  l <> [] -> (forall x, In x l -> x = c) -> min_of l = c.
Proof.
  destruct l as [|x t]; intros Hne H; [contradiction|]. simpl.
  rewrite (H x (or_introl eq_refl)). apply fold_left_Rmin_const.
  intros; apply H; right; assumption.
Qed.

Lemma max_of_const (c : R) (l : list R) :
  l <> [] -> (forall x, In x l -> x = c) -> max_of l = c.
Proof.
  destruct l as [|x t]; intros Hne H; [contradiction|]. simpl.
  rewrite (H x (or_introl eq_refl)). apply fold_left_Rmax_const.
  intros; apply H; right; assumption.
Qed.

Lemma np_min_min_of (l : list R) : l <> [] -> np_min l = Ok (min_of l).
Proof. destruct l; [contradiction | reflexivity]. Qed.

Lemma np_max_max_of (l : list R) : l <> [] -> np_max l = Ok (max_of l).
Proof. destruct l; [contradiction | reflexivity]. Qed.

(** With at least one column and at least one row, range mode finds its
    parameters. *)
Lemma grp_prms_range (cols : sarray) :
  cols <> [] -> (forall col, In col cols -> col <> []) ->
  grp_prms false cols
  = Ok (min_of (map min_of cols), max_of (map max_of cols)).
Proof.
  intros Hne Hrows. unfold grp_prms, rdc.
  rewrite (@mapM_Ok_map _ _ np_min min_of)
    by (intros; apply np_min_min_of; apply Hrows; assumption).
  simpl. rewrite np_min_min_of by (destruct cols; [contradiction | discriminate]).
  simpl.
  rewrite (@mapM_Ok_map _ _ np_max max_of)
    by (intros; apply np_max_max_of; apply Hrows; assumption).
  simpl. rewrite np_max_max_of by (destruct cols; [contradiction | discriminate]).
  reflexivity.
Qed.

Lemma in_scl_grp_fets (dat : sarray) (scl_grps : list Z) (g : Z) (col : column) :
  In col (scl_grp_fets scl_grps g dat) <-> In (g, col) (combine scl_grps dat).
Proof.
  unfold scl_grp_fets. rewrite in_map_iff. split.
  - intros ([g' col'] & Heq & Hin). simpl in Heq. subst col'.
    apply filter_In in Hin. destruct Hin as [Hin Hg]. simpl in Hg.
    apply Z.eqb_eq in Hg. subst. exact Hin.
  - intros Hin. exists (g, col). split; [reflexivity|].
    apply filter_In. split; [exact Hin | simpl; apply Z.eqb_refl].
Qed.

Lemma in_grp_values (dat : sarray) (scl_grps : list Z) (g : Z) (col : column) (x : R) :
  In (g, col) (combine scl_grps dat) -> In x col -> In x (grp_values dat scl_grps g).
Proof.
  intros Hin Hx. unfold grp_values, pooled. apply in_concat.
  exists col. split; [apply in_scl_grp_fets; exact Hin | exact Hx].
Qed.

Lemma in_combine_nth (scl_grps : list Z) (dat : sarray) (j : nat) :
  length scl_grps = length dat -> (j < length dat)%nat ->
  In (nth j scl_grps 0%Z, nth j dat []) (combine scl_grps dat).
Proof.
  intros Hlen Hj. rewrite <- (combine_nth _ _ _ _ _ Hlen).
  apply nth_In. rewrite length_combine, Hlen. lia.
Qed.

(** Every group that occurs has a column, and with [n > 0] rows every column
    holds a value: the parameters of range mode exist. *)
Lemma grp_prms_range_rows (dat : sarray) (scl_grps : list Z) (n : nat) (g : Z) :
  length scl_grps = length dat -> has_rows n dat -> (0 < n)%nat -> In g scl_grps ->
  grp_prms false (scl_grp_fets scl_grps g dat)
  = Ok (min_of (map min_of (scl_grp_fets scl_grps g dat)),
        max_of (map max_of (scl_grp_fets scl_grps g dat))).
Proof.
  intros Hlen Hrows Hn Hg. apply grp_prms_range.
  - apply In_nth with (d := 0%Z) in Hg. destruct Hg as (j & Hj & Hnth).
    intro Hnil.
    assert (Hin : In (nth j dat []) (scl_grp_fets scl_grps g dat)).
    { apply in_scl_grp_fets. rewrite <- Hnth. apply in_combine_nth; lia. }
    rewrite Hnil in Hin. destruct Hin.
  - intros col Hcol. apply in_scl_grp_fets in Hcol. apply in_combine_r in Hcol.
    unfold has_rows in Hrows. rewrite Forall_forall in Hrows.
    specialize (Hrows col Hcol). destruct col; [simpl in Hrows; lia | discriminate].
Qed.



(** *** Scaling a scaled matrix *)

Lemma scl_grp_fets_map (F : Z * column -> column) (g : Z) (scl_grps : list Z) :
  forall dat : sarray,
  scl_grp_fets scl_grps g (map F (combine scl_grps dat))
  = map (fun col => F (g, col)) (scl_grp_fets scl_grps g dat).
Proof.
  unfold scl_grp_fets.
  induction scl_grps as [|g0 scl_grps IH]; intros [|col dat]; simpl; try reflexivity.
  destruct (Z.eqb_spec g0 g) as [->|Hne]; simpl; rewrite IH; reflexivity.
Qed.

Lemma combine_map_combine (F : Z * column -> column) (scl_grps : list Z) :
  forall dat : sarray,
  combine scl_grps (map F (combine scl_grps dat))
  = map (fun p => (fst p, F p)) (combine scl_grps dat).
Proof.
  induction scl_grps as [|g0 scl_grps IH]; intros [|col dat]; simpl; try reflexivity.
  rewrite IH. reflexivity.
Qed.

Lemma concat_np_zeros (cols : sarray) :
  concat (map (fun col => np_zeros (length col)) cols) = np_zeros (length (concat cols)).
Proof.
  unfold np_zeros. induction cols as [|col cols IH]; simpl; [reflexivity|].
  rewrite IH, length_app, repeat_app. reflexivity.
Qed.

(** Pooling the standardized columns is standardizing the pooled values. *)
Lemma pooled_standardized (mean std : R) (cols : sarray) :
  pooled (map (standardized mean std) cols) = standardized mean std (pooled cols).
Proof.
  unfold pooled, standardized. destruct (Req_dec_T std 0).
  - apply concat_np_zeros.
  - symmetry. apply concat_map.
Qed.

Lemma np_sum_map_affine (m s : R) (l : list R) :
  np_sum (map (fun x => (x - m) / s) l) = (np_sum l - INR (length l) * m) / s.
Proof.
  induction l as [|x l IH].
  - simpl. unfold Rdiv. ring.
  - change (np_sum (map (fun x => (x - m) / s) (x :: l)))
      with ((x - m) / s + np_sum (map (fun x => (x - m) / s) l)).
    rewrite IH. change (np_sum (x :: l)) with (x + np_sum l).
    cbn [length]. rewrite S_INR. unfold Rdiv. ring.
Qed.

Lemma np_sum_map_scaled (h : R -> R) (k : R) (l : list R) :
  np_sum (map (fun x => h x * k) l) = np_sum (map h l) * k.
Proof.
  induction l as [|x l IH]; simpl; [ring|].
  unfold np_sum in *. simpl. rewrite IH. ring.
Qed.

Lemma INR_length_pos (l : list R) : l <> [] -> 0 < INR (length l).
Proof.
  intros Hne. apply lt_0_INR. destruct l; [contradiction | simpl; lia].
Qed.

Lemma np_std_nil : np_std [] = 0.
Proof.
  unfold np_std, np_mean. simpl. unfold Rdiv. rewrite Rmult_0_l. apply sqrt_0.
Qed.

(** The pooled mean of a standardized group is 0. *)
Lemma np_mean_standardized (l : list R) :
  np_mean (standardized (np_mean l) (np_std l) l) = 0.
Proof.
  unfold standardized. destruct (Req_dec_T (np_std l) 0) as [Hz|Hnz].
  - unfold np_mean. rewrite (np_sum_const 0).
    + unfold Rdiv. ring.
    + intros x Hx. unfold np_zeros in Hx. apply repeat_spec in Hx. exact Hx.
  - assert (Hne : l <> []) by (intros ->; apply Hnz, np_std_nil).
    pose proof (INR_length_pos l Hne) as Hpos.
    unfold np_mean at 1. rewrite np_sum_map_affine, length_map.
    unfold np_mean. field. split; lra.
Qed.

Lemma np_mean_map_scaled (h : R -> R) (k : R) (l : list R) :
  np_mean (map (fun x => h x * k) l) = np_mean (map h l) * k.
Proof.
  unfold np_mean. rewrite np_sum_map_scaled, !length_map. unfold Rdiv. ring.
Qed.

(** The pooled std of a standardized group is 1, or 0 for a degenerate one. *)
Lemma np_std_standardized (l : list R) :
  np_std (standardized (np_mean l) (np_std l) l)
  = if Req_dec_T (np_std l) 0 then 0 else 1.
Proof.
  unfold np_std at 1. rewrite np_mean_standardized.
  unfold standardized. destruct (Req_dec_T (np_std l) 0) as [Hz|Hnz].
  - replace (np_mean _) with 0; [apply sqrt_0|].
    unfold np_mean. rewrite (np_sum_const 0).
    + unfold Rdiv. ring.
    + intros y Hy. apply in_map_iff in Hy. destruct Hy as (x & <- & Hx).
      unfold np_zeros in Hx. apply repeat_spec in Hx. subst x. ring.
  - pose (h := fun x : R => (x - np_mean l) * (x - np_mean l)).
    assert (HV : 0 < np_mean (map h l)).
    { destruct (Rlt_le_dec 0 (np_mean (map h l))) as [|Hle]; [assumption|].
      exfalso. apply Hnz. apply sqrt_neg_0. exact Hle. }
    assert (Hsq : np_std l * np_std l = np_mean (map h l)).
    { apply sqrt_sqrt. lra. }
    replace (np_mean _) with 1; [apply sqrt_1|].
    rewrite map_map.
    rewrite (map_ext _ (fun x => h x * / np_mean (map h l))).
    + rewrite np_mean_map_scaled. field. lra.
    + intros x. rewrite <- Hsq. unfold h. field. exact Hnz.
Qed.

(** Standardizing with mean 0 and std 1 changes nothing, and so does
    standardizing a column of zeros with mean 0 and std 0. *)
Lemma standardized_0_1 (col : column) : standardized 0 1 col = col.
Proof.
  unfold standardized. destruct (Req_dec_T 1 0); [lra|].
  rewrite <- (map_id col) at 2. apply map_ext. intros x. field.
Qed.

Lemma standardized_degenerate (mean std : R) (col : column) :
  std = 0 -> standardized mean std col = np_zeros (length col).
Proof.
  intros Hz. unfold standardized. destruct (Req_dec_T std 0); [reflexivity | contradiction].
Qed.

Lemma standardized_0_0_zeros (n : nat) : standardized 0 0 (np_zeros n) = np_zeros n.
Proof.
  unfold standardized. destruct (Req_dec_T 0 0); [|contradiction].
  unfold np_zeros. rewrite repeat_length. reflexivity.
Qed.

(** The pooled values of a group of the scaled matrix. *)
Lemma grp_values_scaled (dat : sarray) (scl_grps : list Z) (g : Z) :
  grp_values
    (map (fun p => standardized (np_mean (grp_values dat scl_grps (fst p)))
                                (np_std (grp_values dat scl_grps (fst p))) (snd p))
         (combine scl_grps dat)) scl_grps g
  = standardized (np_mean (grp_values dat scl_grps g))
                 (np_std (grp_values dat scl_grps g)) (grp_values dat scl_grps g).
Proof.
  unfold grp_values at 1.
  rewrite (scl_grp_fets_map
             (fun p => standardized (np_mean (grp_values dat scl_grps (fst p)))
                                    (np_std (grp_values dat scl_grps (fst p))) (snd p))).
  simpl. apply pooled_standardized.
Qed.



(** *** Shapes *)

Lemma bind_Ok_inv {A B : Type} (c : res A) (k : A -> res B) (b : B) :
  bind c k = Ok b -> exists a, c = Ok a /\ k a = Ok b.
Proof.
  destruct c as [a|e]; simpl; intros H; [exists a; auto | discriminate].
Qed.

Lemma mapM_Ok_Forall2 {A B : Type} (f : A -> res B) (l : list A) :
  forall l', mapM f l = Ok l' -> Forall2 (fun a b => f a = Ok b) l l'.
Proof.
  induction l as [|a l IH]; simpl; intros l' H.
  - injection H as <-. constructor.
  - apply bind_Ok_inv in H. destruct H as (b & Hb & H).
    apply bind_Ok_inv in H. destruct H as (bs & Hbs & H).
    injection H as <-. constructor; auto.
Qed.

Lemma mapM_Ok_length {A B : Type} (f : A -> res B) (l : list A) (l' : list B) :
  mapM f l = Ok l' -> length l' = length l.
Proof.
  intros H. apply mapM_Ok_Forall2 in H. symmetry. exact (Forall2_length H).
Qed.

(** Whenever [scale_fets] returns, the new array has the shape of [dat]. *)
Lemma scale_fets_rows (dat new : sarray) (scl_grps : list Z) (standardize : bool)
  (scl_prms : list (R * R)) (n : nat) :
  scale_fets dat scl_grps standardize = Ok (new, scl_prms) ->
  has_rows n dat -> has_rows n new.
Proof.
  unfold scale_fets. intros H Hrows.
  apply bind_Ok_inv in H. destruct H as ([] & _ & H).
  apply bind_Ok_inv in H. destruct H as (tbl & _ & H).
  apply bind_Ok_inv in H. destruct H as (out & Hout & H).
  injection H as <- _. apply mapM_Ok_Forall2 in Hout.
  unfold has_rows in *. rewrite Forall_forall in *.
  intros col Hcol. apply in_map_iff in Hcol. destruct Hcol as ([prm c] & <- & Hin).
  simpl.
  assert (Hgen : forall l l', Forall2 (fun a b => scale_one standardize tbl a = Ok b) l l' ->
            (forall p, In p l -> length (snd p) = n) ->
            forall q, In q l' -> length (snd q) = n).
  { clear. induction 1 as [|a b l l' Hab _ IH]; intros Hl q Hq; [destruct Hq|].
    destruct Hq as [<-|Hq]; [|apply IH; auto; intros; apply Hl; right; assumption].
    unfold scale_one in Hab. apply bind_Ok_inv in Hab. destruct Hab as ([p1 p2] & _ & Hab).
    rewrite scale_col_closed in Hab. simpl in Hab. injection Hab as <-. simpl.
    rewrite length_rescaled. apply Hl. left. reflexivity. }
  apply (Hgen _ _ Hout) with (q := (prm, c)); [|exact Hin].
  intros p Hp. apply Hrows. destruct p as [g cc]. apply in_combine_r in Hp. exact Hp.
Qed.

End ScalingFacts.

Module IngestFacts.

Import Ingest.
Import ScalingFacts.
Open Scope R_scope.

(** *** The repair of unknown values *)

Lemma is_unknown_true (x : R) : x = -1 -> is_unknown x = true.
Proof. intros H. unfold is_unknown. destruct (Req_dec_T x (-1)); [reflexivity | contradiction]. Qed.

Lemma is_unknown_false (x : R) : x <> -1 -> is_unknown x = false.
Proof. intros H. unfold is_unknown. destruct (Req_dec_T x (-1)); [contradiction | reflexivity]. Qed.

Lemma is_unknown_spec (x : R) : is_unknown x = true <-> x = -1.
Proof.
  unfold is_unknown. destruct (Req_dec_T x (-1)); split; intros; auto; discriminate.
Qed.

Lemma forallb_is_unknown_false (col : column) :
  (exists x, In x col /\ x <> -1) -> forallb is_unknown col = false.
Proof.
  intros (x & Hin & Hx). destruct (forallb is_unknown col) eqn:E; [|reflexivity].
  rewrite forallb_forall in E. apply E in Hin. apply is_unknown_spec in Hin. contradiction.
Qed.

Lemma forallb_is_unknown_true (col : column) :
  (forall x, In x col -> x = -1) -> forallb is_unknown col = true.
Proof.
  intros H. apply forallb_forall. intros x Hx. apply is_unknown_true. apply H. exact Hx.
Qed.

Lemma fill_col_spec (col : column) :
  fill_col col = map (fun x => if Req_dec_T x (-1) then np_mean col else x) col.
Proof.
  unfold fill_col, is_unknown. apply map_ext. intros x.
  destruct (Req_dec_T x (-1)); reflexivity.
Qed.

Lemma fill_col_no_unknown (col : column) :
  (In (-1) col -> np_mean col <> -1) ->
  forallb (fun x => negb (is_unknown x)) (fill_col col) = true.
Proof.
  intros Hmean. apply forallb_forall. intros y Hy.
  unfold fill_col in Hy. apply in_map_iff in Hy. destruct Hy as (x & <- & Hx).
  destruct (is_unknown x) eqn:E.
  - apply is_unknown_spec in E. subst x. rewrite is_unknown_false; auto.
  - rewrite E. reflexivity.
Qed.

Lemma fill_loop_ok (todo : sarray) :
  forall (fet : nat) (bad_fets : list nat),
  (forall col, In col todo -> exists x, In x col /\ x <> -1) ->
  (forall col, In col todo -> In (-1) col -> np_mean col <> -1) ->
  fill_loop fet todo bad_fets = Ok (map fill_col todo, bad_fets).
Proof.
  induction todo as [|col rest IH]; intros fet bad Hknown Hmean; simpl; [reflexivity|].
  rewrite forallb_is_unknown_false by (apply Hknown; left; reflexivity).
  rewrite fill_col_no_unknown by (apply Hmean; left; reflexivity). simpl.
  rewrite IH; [reflexivity | |]; intros; [apply Hknown | apply Hmean]; auto; right; assumption.
Qed.

(** The loop raises nothing but the assertion of line 326, keeps what
    [bad_fets] holds, and adds every feature of nothing but -1. *)
Lemma fill_loop_bad (todo : sarray) :
  forall (fet : nat) (bad_fets : list nat),
  fill_loop fet todo bad_fets = Raise AssertionError \/
  exists cols bad,
    fill_loop fet todo bad_fets = Ok (cols, bad) /\
    (bad_fets <> [] -> bad <> []) /\
    ((exists col, In col todo /\ forall x, In x col -> x = -1) -> bad <> []).
Proof.
  induction todo as [|col rest IH]; intros fet bad_fets; simpl.
  - right. exists [], bad_fets. repeat split; auto. intros (col & [] & _).
  - destruct (forallb is_unknown col) eqn:E.
    + destruct (IH (S fet) (bad_fets ++ [fet])) as [Hr|(cols & bad & Hr & Hkeep & _)];
        rewrite Hr; simpl; [left; reflexivity|].
      right. exists (col :: cols), bad. repeat split; auto; intros; apply Hkeep;
        destruct bad_fets; discriminate.
    + destruct (forallb (fun x => negb (is_unknown x)) (fill_col col)); simpl;
        [|left; reflexivity].
      destruct (IH (S fet) bad_fets) as [Hr|(cols & bad & Hr & Hkeep & Hadd)];
        rewrite Hr; simpl; [left; reflexivity|].
      right. exists (fill_col col :: cols), bad. repeat split; auto.
      intros (c & [<-|Hin] & Hall).
      * rewrite forallb_is_unknown_true in E by exact Hall. discriminate.
      * apply Hadd. exists c. split; assumption.
Qed.

Lemma forallb_false_exists (col : column) :
  forallb is_unknown col = false -> exists x, In x col /\ x <> -1.
Proof.
  induction col as [|x col IH]; simpl; [discriminate|].
  destruct (is_unknown x) eqn:E; simpl.
  - intros H. destruct (IH H) as (y & Hy & Hne). exists y. auto.
  - intros _. exists x. split; [left; reflexivity|].
    intro Hx. apply is_unknown_true in Hx. congruence.
Qed.

Lemma fill_loop_Ok_inv (todo : sarray) :
  forall (fet : nat) (bad_fets : list nat) (cols : sarray),
  fill_loop fet todo bad_fets = Ok (cols, []) ->
  cols = map fill_col todo /\
  forall col, In col todo -> exists x, In x col /\ x <> -1.
Proof.
  induction todo as [|col rest IH]; intros fet bad_fets cols; simpl.
  - intros H. injection H as <- _. split; [reflexivity | intros ? []].
  - destruct (forallb is_unknown col) eqn:E.
    + intros H. exfalso.
      destruct (fill_loop_bad rest (S fet) (bad_fets ++ [fet]))
        as [Hr|(cols' & bad & Hr & Hkeep & _)]; rewrite Hr in H; simpl in H;
        [discriminate|].
      injection H as _ Hbad. apply Hkeep; [destruct bad_fets; discriminate | exact Hbad].
    + intros H. apply bind_Ok_inv in H. destruct H as ([] & _ & H).
      apply bind_Ok_inv in H. destruct H as ([cols' bad] & Hr & H).
      injection H as <- ->. destruct (IH _ _ _ Hr) as [-> Hknown].
      split; [reflexivity|]. intros c [<-|Hin]; [apply forallb_false_exists; exact E | auto].
Qed.

Lemma fill_unknown_Ok_inv (dat_in_all cols : sarray) :
  fill_unknown dat_in_all = Ok cols ->
  cols = map fill_col dat_in_all /\
  forall col, In col dat_in_all -> exists x, In x col /\ x <> -1.
Proof.
  unfold fill_unknown. intros H.
  apply bind_Ok_inv in H. destruct H as ([cols' bad] & Hr & H).
  destruct bad as [|b bad]; simpl in H; [|discriminate].
  injection H as <-. exact (fill_loop_Ok_inv _ _ _ _ Hr).
Qed.




(** *** The rows of one simulation *)

Lemma select_rows (spc : list nat) (dat sel : sarray) (n : nat) :
  select spc dat = Ok sel -> Scaling.has_rows n dat -> Scaling.has_rows n sel.
Proof.
  unfold select, Scaling.has_rows. intros H Hrows.
  apply mapM_Ok_Forall2 in H. rewrite Forall_forall in Hrows.
  induction H as [|fet col spc' sel' Hcol _ IH]; constructor; auto.
  destruct (nth_error dat fet) as [c|] eqn:E; [|discriminate].
  injection Hcol as <-. apply Hrows. apply nth_error_In in E. exact E.
Qed.

Lemma select_length (spc : list nat) (dat sel : sarray) :
  select spc dat = Ok sel -> length sel = length spc.
Proof. apply mapM_Ok_length. Qed.

Lemma take_rows (idxs : list nat) (dat taken : sarray) :
  take idxs dat = Ok taken -> Scaling.has_rows (length idxs) taken.
Proof.
  unfold take, Scaling.has_rows. intros H. apply mapM_Ok_Forall2 in H.
  induction H as [|col col' dat' taken' Hcol _ IH]; constructor; auto.
  apply mapM_Ok_length in Hcol. exact Hcol.
Qed.

Lemma random_integers_length (draw : nat -> nat) (num_rows : nat) (size : Z)
  (idxs : list nat) :
  random_integers draw num_rows size = Ok idxs -> length idxs = Z.to_nat size.
Proof.
  unfold random_integers. destruct (size <? 0)%Z; [discriminate|].
  destruct ((num_rows =? 0)%nat && (0 <? size)%Z)%bool; [discriminate|].
  intros H. injection H as <-. rewrite length_map, length_seq. reflexivity.
Qed.

Lemma length_slice_from (k : Z) (col : column) :
  (0 <= k)%Z -> length (slice_from k col) = (length col - Z.to_nat k)%nat.
Proof.
  intros Hk. unfold slice_from. destruct (Z.ltb_spec k 0); [lia|].
  apply length_skipn.
Qed.

Lemma has_rows_shape0 (n : nat) (dat : sarray) :
  Scaling.has_rows n dat -> dat <> [] -> shape0 dat = n.
Proof.
  intros H Hne. destruct dat as [|col dat]; [contradiction|].
  inversion H; subst. reflexivity.
Qed.

Lemma Qfloor_nonneg (q : Q) : (0 <= q)%Q -> (0 <= Qfloor q)%Z.
Proof.
  intros H. change 0%Z with (Qfloor (inject_Z 0)). apply Qfloor_resp_le. exact H.
Qed.

(** What a simulation that is not discarded leaves in its temporary file:
    the simulation was loaded, and each of the four arrays has the rows that
    [num_to_pick] counts from the rows left after the warmup. *)
Lemma process_sim_rows {Sim : Type} (net : Net Sim) (w : World Sim)
  (sim_flp tmp : String.string) (warmup_prc keep_prc : Q) (sequential : bool)
  (fs fs' : store) (flp : String.string) (sim' : Sim) :
  (0 <= warmup_prc)%Q ->
  keeps_rows net -> loads_rectangular w ->
  process_sim net w sim_flp tmp warmup_prc keep_prc sequential fs
  = Ok (Some (flp, sim'), fs') ->
  flp = tmp_flp tmp sim_flp /\
  exists c,
    fs' = save_tmp_file flp c fs /\
    snd (load_sim w sim_flp) <> None /\
    let rows := kept_rows warmup_prc keep_prc (raw_rows w sim_flp) in
    Scaling.has_rows rows (tmp_in c) /\ Scaling.has_rows rows (tmp_out c) /\
    Scaling.has_rows rows (tmp_raw c) /\ Scaling.has_rows rows (tmp_oracle c).
Proof.
  intros Hwarm Hkeeps Hrect H. unfold process_sim in H. unfold raw_rows.
  destruct (load_sim w sim_flp) as [sim [dat|]] eqn:Hload; [|discriminate].
  pose proof (Hrect _ _ _ Hload) as Hdat. unfold rectangular in Hdat.
  set (n := shape0 dat) in *.
  set (k := Qfloor (inject_Z (Z.of_nat n) * warmup_prc / inject_Z 100)) in *.
  assert (Hk : (0 <= k)%Z).
  { apply Qfloor_nonneg. apply Qle_shift_div_l; [reflexivity|].
    rewrite Qmult_0_l. apply Qmult_le_0_compat; [|exact Hwarm].
    change 0%Q with (inject_Z 0). rewrite <- Zle_Qle. lia. }
  assert (Hsliced : Scaling.has_rows (n - Z.to_nat k) (map (slice_from k) dat)).
  { unfold Scaling.has_rows in *. rewrite Forall_forall in *.
    intros col Hcol. apply in_map_iff in Hcol. destruct Hcol as (c0 & <- & Hc0).
    rewrite length_slice_from by exact Hk. rewrite (Hdat c0 Hc0). reflexivity. }
  apply bind_Ok_inv in H. destruct H as ([] & Hin_spc & H).
  apply bind_Ok_inv in H. destruct H as ([] & _ & H).
  apply bind_Ok_inv in H. destruct H as (dat_in & Hsel_in & H).
  apply bind_Ok_inv in H. destruct H as (dat_out & _ & H).
  destruct (has_non_finite w dat_in || has_non_finite w _)%bool; [discriminate|].
  apply bind_Ok_inv in H. destruct H as ([] & _ & H).
  apply bind_Ok_inv in H. destruct H as (clss & _ & H).
  apply bind_Ok_inv in H. destruct H as ([] & _ & H).
  apply bind_Ok_inv in H. destruct H as (orc & _ & H).
  pose proof (Hkeeps sim dat_in (convert_to_class net sim dat_out) dat_out orc sequential)
    as Hmod.
  destruct (modify_data net sim dat_in (convert_to_class net sim dat_out) dat_out orc
              sequential) as [[[[m_in m_out] m_raw] m_orc] grps].
  simpl in Hmod.
  apply bind_Ok_inv in H. destruct H as (idxs & Hidxs & H).
  apply bind_Ok_inv in H. destruct H as (t_in & Ht_in & H).
  apply bind_Ok_inv in H. destruct H as (t_out & Ht_out & H).
  apply bind_Ok_inv in H. destruct H as (t_raw & Ht_raw & H).
  apply bind_Ok_inv in H. destruct H as (t_orc & Ht_orc & H).
  injection H as <- <- <-.
  split; [reflexivity|].
  exists (t_in, t_out, t_raw, t_orc, grps). split; [reflexivity|].
  split; [simpl; discriminate|]. simpl. fold n.
  assert (Hshape : shape0 dat_in = (n - Z.to_nat k)%nat).
  { apply has_rows_shape0; [exact (select_rows _ _ _ _ Hsel_in Hsliced)|].
    apply select_length in Hsel_in. intros ->.
    destruct (in_spc net); [discriminate Hin_spc | discriminate Hsel_in]. }
  assert (Hlen : length idxs = kept_rows warmup_prc keep_prc n).
  { rewrite (random_integers_length _ _ _ _ Hidxs). unfold kept_rows.
    rewrite Hmod, Hshape. reflexivity. }
  rewrite <- Hlen. repeat split; eapply take_rows; eassumption.
Qed.

(** *** The rows of the assembled dataset *)

Lemma vstack_rows (a b : sarray) (na nb : nat) :
  Scaling.has_rows na a -> Scaling.has_rows nb b ->
  Scaling.has_rows (na + nb) (vstack a b).
Proof.
  unfold Scaling.has_rows, vstack. rewrite !Forall_forall. intros Ha Hb col Hcol.
  apply in_map_iff in Hcol. destruct Hcol as ([ca cb] & <- & Hin). simpl.
  rewrite length_app, (Ha ca), (Hb cb);
    [reflexivity | eapply in_combine_r | eapply in_combine_l]; eassumption.
Qed.

Lemma fold_left_vstack_rows (rest : list sarray) :
  forall (a : sarray) (na : nat) (ns : list nat),
  Scaling.has_rows na a -> Forall2 Scaling.has_rows ns rest ->
  Scaling.has_rows (na + list_sum ns) (fold_left vstack rest a).
Proof.
  induction rest as [|b rest IH]; intros a na ns Ha Hns; inversion Hns; subst; simpl.
  - rewrite Nat.add_0_r. exact Ha.
  - rewrite Nat.add_assoc. apply IH; [apply vstack_rows|]; assumption.
Qed.

Lemma concatenate0_rows (arrs : list sarray) (merged : sarray) (ns : list nat) :
  concatenate0 arrs = Ok merged -> Forall2 Scaling.has_rows ns arrs ->
  Scaling.has_rows (list_sum ns) merged.
Proof.
  unfold concatenate0. destruct arrs as [|a rest]; [discriminate|].
  intros H Hns. apply bind_Ok_inv in H. destruct H as (u & _ & H).
  injection H as <-. inversion Hns; subst. simpl.
  apply fold_left_vstack_rows; assumption.
Qed.

Lemma fill_unknown_rows (dat filled : sarray) (n : nat) :
  fill_unknown dat = Ok filled -> Scaling.has_rows n dat -> Scaling.has_rows n filled.
Proof.
  intros H Hrows. apply fill_unknown_Ok_inv in H. destruct H as [-> _].
  unfold Scaling.has_rows in *. rewrite Forall_forall in *.
  intros col Hcol. apply in_map_iff in Hcol. destruct Hcol as (c & <- & Hc).
  unfold fill_col. rewrite length_map. apply Hrows. exact Hc.
Qed.

(** The files other simulations wrote stay as they are. *)
Lemma parse_sims_store {Sim : Type} (net : Net Sim) (w : World Sim) (args : Args)
  (tmp : String.string) (todo : list String.string) :
  forall (fs fs' : store) (results : list (option (String.string * Sim))),
  parse_sims net w args tmp todo fs = Ok (results, fs') ->
  forall p, ~ In p (map (tmp_flp tmp) todo) -> fs' p = fs p.
Proof.
  induction todo as [|sim_flp rest IH]; simpl; intros fs fs' results H p Hp.
  - injection H as _ <-. reflexivity.
  - apply bind_Ok_inv in H. destruct H as ([r fs1] & Hone & H).
    apply bind_Ok_inv in H. destruct H as ([rs fs2] & Hrest & H).
    injection H as _ <-.
    rewrite (IH _ _ _ Hrest p) by (intro; apply Hp; right; assumption).
    unfold process_sim in Hone.
    destruct (load_sim w sim_flp) as [sim [dat|]]; [|injection Hone as _ <-; reflexivity].
    repeat (apply bind_Ok_inv in Hone; destruct Hone as (? & _ & Hone)).
    destruct (has_non_finite w _ || has_non_finite w _)%bool;
      [injection Hone as _ <-; reflexivity|].
    repeat (apply bind_Ok_inv in Hone; destruct Hone as (? & _ & Hone)).
    destruct (modify_data net sim _ _ _ _ false) as [[[[m_in m_out] m_raw] m_orc] grps].
    repeat (apply bind_Ok_inv in Hone; destruct Hone as (? & _ & Hone)).
    injection Hone as _ <-. unfold save_tmp_file.
    destruct (String.eqb_spec p (tmp_flp tmp sim_flp)) as [->|]; [|reflexivity].
    exfalso. apply Hp. left. reflexivity.
Qed.

(** With one temporary file per simulation, the files loaded after the
    parsing are the files of the simulations that were not discarded. *)
Lemma parse_sims_files {Sim : Type} (net : Net Sim) (w : World Sim) (args : Args)
  (tmp : String.string) (todo : list String.string) :
  (0 <= warmup_percent args)%Q -> keeps_rows net -> loads_rectangular w ->
  forall (fs fs' : store) (results : list (option (String.string * Sim))),
  parse_sims net w args tmp todo fs = Ok (results, fs') ->
  NoDup (map (tmp_flp tmp) todo) ->
  exists dat_all,
    mapM (load_tmp_file fs') (map fst (parsed results)) = Ok dat_all /\
    Forall2 (fun sim_flp c =>
               let rows := kept_rows (warmup_percent args) (keep_percent args)
                             (raw_rows w sim_flp) in
               Scaling.has_rows rows (tmp_in c) /\ Scaling.has_rows rows (tmp_out c) /\
               Scaling.has_rows rows (tmp_raw c) /\ Scaling.has_rows rows (tmp_oracle c))
            (not_discarded todo results) dat_all.
Proof.
  intros Hwarm Hkeeps Hrect.
  induction todo as [|sim_flp rest IH]; simpl; intros fs fs' results H Hnodup.
  - injection H as <- <-. exists []. split; [reflexivity | constructor].
  - apply bind_Ok_inv in H. destruct H as ([r fs1] & Hone & H).
    apply bind_Ok_inv in H. destruct H as ([rs fs2] & Hrest & H).
    injection H as <- <-. inversion Hnodup as [|? ? Hfresh Hnodup']; subst.
    destruct (IH _ _ _ Hrest Hnodup') as (dat_rest & Hload & Hrows).
    destruct r as [[flp sim]|]; simpl; [|exists dat_rest; auto].
    destruct (process_sim_rows _ _ _ _ _ _ _ _ _ _ _ Hwarm Hkeeps Hrect Hone)
      as (-> & c & -> & _ & Hc).
    exists (c :: dat_rest). split; [|constructor; assumption].
    unfold load_tmp_file at 1.
    rewrite (parse_sims_store _ _ _ _ _ _ _ _ Hrest _ Hfresh).
    unfold save_tmp_file. rewrite String.eqb_refl. simpl. rewrite Hload. reflexivity.
Qed.

(** *** Ten percent of warmup, fifty percent kept *)

Lemma kept_rows_10_50 (n : nat) :
  kept_rows 10 50 n = Z.to_nat (usable_rows (Z.of_nat n)).
Proof.
  unfold kept_rows, usable_rows.
  assert (Hk : Qfloor (inject_Z (Z.of_nat n) * 10 / inject_Z 100)
               = Qfloor (0.1 * inject_Z (Z.of_nat n))).
  { apply Qfloor_comp. field. }
  rewrite Hk. set (k := Qfloor (0.1 * inject_Z (Z.of_nat n))).
  assert (H0 : (0 <= k)%Z).
  { apply Qfloor_nonneg. apply Qmult_le_0_compat; [discriminate|].
    change 0%Q with (inject_Z 0). rewrite <- Zle_Qle. lia. }
  assert (Hn : (k <= Z.of_nat n)%Z).
  { rewrite Zle_Qle. eapply Qle_trans; [apply Qfloor_le|].
    assert (Hq : (0 <= inject_Z (Z.of_nat n))%Q).
    { change 0%Q with (inject_Z 0). rewrite <- Zle_Qle. lia. }
    lra. }
  f_equal. rewrite Nat2Z.inj_sub by lia. rewrite Z2Nat.id by lia.
  apply Qceiling_comp. field.
Qed.

Lemma Forall2_map_r {A B C : Type} (P : A -> C -> Prop) (f : B -> C)
  (l : list A) (l' : list B) :
  Forall2 (fun a b => P a (f b)) l l' -> Forall2 P l (map f l').
Proof. induction 1; simpl; constructor; auto. Qed.

Lemma Forall2_map_l {A B C : Type} (P : C -> B -> Prop) (f : A -> C)
  (l : list A) (l' : list B) :
  Forall2 (fun a b => P (f a) b) l l' -> Forall2 P (map f l) l'.
Proof. induction 1; simpl; constructor; auto. Qed.

Lemma Forall2_impl {A B : Type} (P Q : A -> B -> Prop) (l : list A) (l' : list B) :
  (forall a b, P a b -> Q a b) -> Forall2 P l l' -> Forall2 Q l l'.
Proof. intros H. induction 1; constructor; auto. Qed.

(** The four arrays that [make_datasets] stacks have the rows of their parts,
    and neither the repair nor the scaling changes the rows of the input
    features. *)
Lemma assemble_rows {Sim : Type} (w : World Sim) (args : Args)
  (dat_all : list tmp_file) (sims_ : list Sim) (ns : list nat)
  (dat_in dat_out dat_out_raw dat_out_oracle num_flws : sarray)
  (prms_in : list (R * R)) :
  assemble w args dat_all sims_
  = Ok (dat_in, dat_out, dat_out_raw, dat_out_oracle, num_flws, prms_in) ->
  Forall2 (fun n c =>
             Scaling.has_rows n (tmp_in c) /\ Scaling.has_rows n (tmp_out c) /\
             Scaling.has_rows n (tmp_raw c) /\ Scaling.has_rows n (tmp_oracle c))
          ns dat_all ->
  Scaling.has_rows (list_sum ns) dat_in /\ Scaling.has_rows (list_sum ns) dat_out /\
  Scaling.has_rows (list_sum ns) dat_out_raw /\
  Scaling.has_rows (list_sum ns) dat_out_oracle.
Proof.
  intros H Hns. unfold assemble in H.
  apply bind_Ok_inv in H. destruct H as (scl_grps & _ & H).
  apply bind_Ok_inv in H. destruct H as (flws & _ & H).
  apply bind_Ok_inv in H. destruct H as (merged & Hmerged & H).
  apply bind_Ok_inv in H. destruct H as (outs & Houts & H).
  apply bind_Ok_inv in H. destruct H as (raws & Hraws & H).
  apply bind_Ok_inv in H. destruct H as (orcs & Horcs & H).
  apply bind_Ok_inv in H. destruct H as (filled & Hfill & H).
  apply bind_Ok_inv in H. destruct H as ([scaled prms] & Hscale & H).
  injection H as <- <- <- <- _ _.
  repeat split.
  - eapply ScalingFacts.scale_fets_rows; [exact Hscale|].
    eapply fill_unknown_rows; [exact Hfill|].
    eapply concatenate0_rows; [exact Hmerged|].
    apply Forall2_map_r. eapply Forall2_impl; [|exact Hns]. simpl. tauto.
  - eapply concatenate0_rows; [exact Houts|].
    apply Forall2_map_r. eapply Forall2_impl; [|exact Hns]. simpl. tauto.
  - eapply concatenate0_rows; [exact Hraws|].
    apply Forall2_map_r. eapply Forall2_impl; [|exact Hns]. simpl. tauto.
  - eapply concatenate0_rows; [exact Horcs|].
    apply Forall2_map_r. eapply Forall2_impl; [|exact Hns]. simpl. tauto.
Qed.

(** *** A run *)

Lemma demo_valid_class : valid_class demo_net 0 = true.
Proof.
  unfold valid_class. simpl.
  destruct (Rle_dec 0 0); [|lra]. destruct (Rlt_dec 0 5); [reflexivity | lra].
Qed.

Lemma demo_process_sim :
  process_sim demo_net demo_world "data/a.sim" "out" 10 50 false no_files
  = Ok (Some ("out/a_tmp.npz"%string, tt),
        save_tmp_file "out/a_tmp.npz"
          ([[1; 2; 3]], [[0; 0; 0]], [[0; 0; 0]], [[0; 0; 0]], [0%Z]) no_files).
Proof.
  unfold process_sim. cbn -[valid_class IZR].
  rewrite demo_valid_class. cbn -[IZR]. reflexivity.
Qed.

Lemma demo_keeps_rows : keeps_rows demo_net.
Proof. intros sim a b c d q. reflexivity. Qed.

Lemma demo_loads_rectangular : loads_rectangular demo_world.
Proof.
  intros sim_flp sim dat H. injection H as _ <-.
  unfold rectangular, Scaling.has_rows, demo_dat. repeat constructor.
Qed.

Lemma demo_fill_unknown : fill_unknown [[1; 2; 3]] = Ok [[1; 2; 3]].
Proof.
  unfold fill_unknown. rewrite fill_loop_ok.
  - simpl. unfold fill_col. simpl.
    rewrite !is_unknown_false by lra. reflexivity.
  - intros col [<-|[]]. exists 1. split; [left; reflexivity | lra].
  - intros col [<-|[]] [H|[H|[H|[]]]]; lra.
Qed.

Lemma demo_scale_fets :
  exists new scl_prms, Scaling.scale_fets [[1; 2; 3]] [0%Z] false = Ok (new, scl_prms).
Proof.
  eexists. eexists.
  apply (ScalingFacts.scale_fets_closed [[1; 2; 3]] [0%Z] false
           (fun g => (Scaling.min_of (map Scaling.min_of (Scaling.scl_grp_fets [0%Z] g [[1; 2; 3]])),
                      Scaling.max_of (map Scaling.max_of (Scaling.scl_grp_fets [0%Z] g [[1; 2; 3]]))))).
  - reflexivity.
  - unfold Scaling.dense_groups, Scaling.scl_grps_unique. simpl.
    constructor; [lia | constructor].
  - intros g Hg. apply ScalingFacts.grp_prms_range_rows with (n := 3%nat); auto.
    unfold Scaling.has_rows. repeat constructor.
Qed.

Lemma demo_make_datasets :
  exists dat_in prms_in,
    make_datasets demo_net demo_world demo_args None no_files
    = Ok (dat_in, [[0; 0; 0]], [[0; 0; 0]], [[0; 0; 0]],
          [[IZR (1 + 1); IZR (1 + 1); IZR (1 + 1)]], prms_in).
Proof.
  destruct demo_scale_fets as (new & scl_prms & Hscale).
  exists new, scl_prms.
  unfold make_datasets. cbn -[process_sim IZR assemble].
  rewrite demo_process_sim. cbn -[IZR fill_unknown Scaling.scale_fets].
  rewrite demo_fill_unknown. cbn -[IZR Scaling.scale_fets].
  rewrite Hscale. reflexivity.
Qed.

(** C2 (amended). With [warmup_percent = 10] and [keep_percent = 50], and a
    data transform that keeps the rows of the input features, a simulation
    of raw_rows rows that [process_sim] does not discard leaves exactly
    ceil(0.5 * (raw_rows - floor(0.1 * raw_rows))) rows in each of its four
    arrays: the warmup drops floor(0.1 * raw_rows) rows, which leaves
    ceil(0.9 * raw_rows) of them, not floor(0.9 * raw_rows).  And when every
    simulation has a temporary file of its own, each of the four stacked
    arrays that [make_datasets] returns has the sum of these rows over the
    simulations that were not discarded. *)
Theorem C2_usable_rows_after_warmup_and_sampling :
  (forall (Sim : Type) (net : Net Sim) (w : World Sim) (sim_flp tmp : String.string)
          (sequential : bool) (fs fs' : store) (flp : String.string) (sim' : Sim),
     keeps_rows net -> loads_rectangular w ->
     process_sim net w sim_flp tmp 10 50 sequential fs = Ok (Some (flp, sim'), fs') ->
     exists c,
       fs' flp = Some c /\
       let rows := Z.to_nat (usable_rows (Z.of_nat (raw_rows w sim_flp))) in
       Scaling.has_rows rows (tmp_in c) /\ Scaling.has_rows rows (tmp_out c) /\
       Scaling.has_rows rows (tmp_raw c) /\ Scaling.has_rows rows (tmp_oracle c))
  /\
  (forall (Sim : Type) (net : Net Sim) (w : World Sim) (args : Args) (fs : store)
          (dat_in dat_out dat_out_raw dat_out_oracle num_flws : sarray)
          (prms_in : list (R * R)),
     keeps_rows net -> loads_rectangular w ->
     warmup_percent args = 10%Q -> keep_percent args = 50%Q ->
     (forall todo, find_sims w args = Ok todo ->
                   NoDup (map (tmp_flp (tmp_of args)) todo)) ->
     make_datasets net w args None fs
     = Ok (dat_in, dat_out, dat_out_raw, dat_out_oracle, num_flws, prms_in) ->
     exists todo results fs',
       find_sims w args = Ok todo /\
       parse_sims net w args (tmp_of args) todo fs = Ok (results, fs') /\
       let total :=
         list_sum (map (fun sim_flp =>
                          Z.to_nat (usable_rows (Z.of_nat (raw_rows w sim_flp))))
                       (not_discarded todo results)) in
       Scaling.has_rows total dat_in /\ Scaling.has_rows total dat_out /\
       Scaling.has_rows total dat_out_raw /\ Scaling.has_rows total dat_out_oracle).
Proof.
  split.
  - intros Sim net w sim_flp tmp sequential fs fs' flp sim' Hkeeps Hrect H.
    assert (Hwarm : (0 <= 10)%Q) by discriminate.
    destruct (process_sim_rows _ _ _ _ _ _ _ _ _ _ _ Hwarm Hkeeps Hrect H)
      as (-> & c & -> & _ & Hc).
    exists c. split.
    + unfold save_tmp_file. rewrite String.eqb_refl. reflexivity.
    + rewrite kept_rows_10_50 in Hc. exact Hc.
  - intros Sim net w args fs dat_in dat_out dat_out_raw dat_out_oracle num_flws prms_in
      Hkeeps Hrect Hwarm Hkeep Hnodup H.
    unfold make_datasets in H.
    apply bind_Ok_inv in H. destruct H as (todo & Hfind & H).
    apply bind_Ok_inv in H. destruct H as ([results fs'] & Hparse & H).
    apply bind_Ok_inv in H. destruct H as ([] & _ & H).
    apply bind_Ok_inv in H. destruct H as (dat_all & Hload & H).
    exists todo, results, fs'. split; [exact Hfind|]. split; [exact Hparse|].
    assert (Hpos : (0 <= warmup_percent args)%Q) by (rewrite Hwarm; discriminate).
    destruct (parse_sims_files net w args (tmp_of args) todo
                Hpos Hkeeps Hrect _ _ _ Hparse
                (Hnodup todo Hfind)) as (dat_all' & Hload' & Hrows).
    rewrite Hload in Hload'. injection Hload' as <-.
    rewrite Hwarm, Hkeep in Hrows.
    apply (assemble_rows _ _ _ _ _ _ _ _ _ _ _ H).
    apply Forall2_map_l. eapply Forall2_impl; [|exact Hrows].
    intros sim_flp c. simpl. rewrite kept_rows_10_50. tauto.
Qed.

(** A simulation of five rows: the warmup drops floor(0.5) = 0 rows, and
    ceil(2.5) = 3 rows are kept, where the formula of the spec counts
    ceil(0.5 * floor(4.5)) = 2. *)
Lemma C2_counterexample :
  process_sim demo_net demo_world "data/a.sim" "out" 10 50 false no_files
  = Ok (Some ("out/a_tmp.npz"%string, tt),
        save_tmp_file "out/a_tmp.npz"
          ([[1; 2; 3]], [[0; 0; 0]], [[0; 0; 0]], [[0; 0; 0]], [0%Z]) no_files) /\
  raw_rows demo_world "data/a.sim" = 5%nat /\
  shape0 [[1; 2; 3]] = 3%nat /\
  claimed_rows 5 = 2%Z /\
  usable_rows 5 = 3%Z.
Proof.
  split; [exact demo_process_sim|]. repeat split.
Qed.

Lemma demo_one_file_each :
  forall todo, find_sims demo_world demo_args = Ok todo ->
               NoDup (map (tmp_flp (tmp_of demo_args)) todo).
Proof.
  intros todo H. cbn in H. injection H as <-. simpl.
  constructor; [intros [] | constructor].
Qed.

(** The run of the small world: one simulation of five rows, three of them
    kept, in the temporary file and in the assembled dataset. *)
Lemma C2_witness :
  keeps_rows demo_net /\ loads_rectangular demo_world /\
  (exists c,
     save_tmp_file "out/a_tmp.npz"
       ([[1; 2; 3]], [[0; 0; 0]], [[0; 0; 0]], [[0; 0; 0]], [0%Z]) no_files
       "out/a_tmp.npz"%string = Some c /\
     let rows := Z.to_nat (usable_rows (Z.of_nat (raw_rows demo_world "data/a.sim"))) in
     Scaling.has_rows rows (tmp_in c) /\ Scaling.has_rows rows (tmp_out c) /\
     Scaling.has_rows rows (tmp_raw c) /\ Scaling.has_rows rows (tmp_oracle c)) /\
  (exists dat_in prms_in todo results fs',
     make_datasets demo_net demo_world demo_args None no_files
     = Ok (dat_in, [[0; 0; 0]], [[0; 0; 0]], [[0; 0; 0]],
           [[IZR (1 + 1); IZR (1 + 1); IZR (1 + 1)]], prms_in) /\
     find_sims demo_world demo_args = Ok todo /\
     parse_sims demo_net demo_world demo_args (tmp_of demo_args) todo no_files
     = Ok (results, fs') /\
     let total :=
       list_sum (map (fun sim_flp =>
                        Z.to_nat (usable_rows (Z.of_nat (raw_rows demo_world sim_flp))))
                     (not_discarded todo results)) in
     Scaling.has_rows total dat_in /\ Scaling.has_rows total [[0; 0; 0]] /\
     Scaling.has_rows total [[0; 0; 0]] /\ Scaling.has_rows total [[0; 0; 0]]).
Proof.
  split; [exact demo_keeps_rows|]. split; [exact demo_loads_rectangular|]. split.
  - exact (proj1 C2_usable_rows_after_warmup_and_sampling unit demo_net demo_world
             "data/a.sim"%string "out"%string false no_files _ _ tt
             demo_keeps_rows demo_loads_rectangular demo_process_sim).
  - destruct demo_make_datasets as (dat_in & prms_in & Hrun).
    destruct (proj2 C2_usable_rows_after_warmup_and_sampling unit demo_net demo_world
                demo_args no_files _ _ _ _ _ _
                demo_keeps_rows demo_loads_rectangular eq_refl eq_refl
                demo_one_file_each Hrun) as (todo & results & fs' & H).
    exists dat_in, prms_in, todo, results, fs'. split; [exact Hrun | exact H].
Defined.

End IngestFacts.

Module SplitFacts.

Import Split.
Import ScalingFacts.

(** *** Exchanging two rows *)

Lemma set_nth_map {A B : Type} (f : A -> B) (i : nat) (v : A) (l : list A) :
  set_nth i (f v) (map f l) = map f (set_nth i v l).
Proof.
  revert i. induction l as [|h t IH]; intros [|i]; simpl; try reflexivity.
  rewrite IH. reflexivity.
Qed.

Lemma swap_map {A B : Type} (f : A -> B) (i j : nat) (x : list A) :
  swap i j (map f x) = map f (swap i j x).
Proof.
  unfold swap. rewrite !nth_error_map.
  destruct (nth_error x i) as [xi|]; simpl; [|reflexivity].
  destruct (nth_error x j) as [xj|]; simpl; [|reflexivity].
  rewrite !set_nth_map. reflexivity.
Qed.

Lemma shuffle_from_map {A B : Type} (f : A -> B) (draw : nat -> nat) (i : nat) :
  forall (t : nat) (x : list A),
  shuffle_from draw t i (map f x) = map f (shuffle_from draw t i x).
Proof.
  induction i as [|i IH]; intros t x; simpl; [reflexivity|].
  rewrite swap_map. apply IH.
Qed.

Lemma np_shuffle_map {A B : Type} (f : A -> B) (draw : nat -> nat) (x : list A) :
  np_shuffle draw (map f x) = map f (np_shuffle draw x).
Proof.
  unfold np_shuffle. rewrite length_map. apply shuffle_from_map.
Qed.

Lemma set_nth_split {A : Type} (l : list A) :
  forall (i : nat) (a : A),
  nth_error l i = Some a ->
  exists l1 l2, l = l1 ++ a :: l2 /\ forall v, set_nth i v l = l1 ++ v :: l2.
Proof.
  induction l as [|h t IH]; intros [|i] a H; simpl in H; try discriminate.
  - injection H as ->. exists [], t. split; reflexivity.
  - destruct (IH i a H) as (l1 & l2 & -> & Hset).
    exists (h :: l1), l2. split; [reflexivity|]. intros v. simpl. rewrite Hset. reflexivity.
Qed.

Lemma swap_Permutation {A : Type} (x : list A) :
  forall i j : nat, Permutation (swap i j x) x.
Proof.
  unfold swap. induction x as [|h t IH]; intros i j.
  - destruct i, j; reflexivity.
  - destruct i as [|i], j as [|j]; simpl.
    + reflexivity.
    + destruct (nth_error t j) as [xj|] eqn:E; [|reflexivity].
      destruct (set_nth_split t j xj E) as (l1 & l2 & -> & Hset).
      rewrite Hset.
      rewrite <- (Permutation_middle l1 l2 xj).
      rewrite <- (Permutation_middle l1 l2 h). apply perm_swap.
    + destruct (nth_error t i) as [xi|] eqn:E; [|reflexivity].
      destruct (set_nth_split t i xi E) as (l1 & l2 & -> & Hset).
      rewrite Hset.
      rewrite <- (Permutation_middle l1 l2 xi).
      rewrite <- (Permutation_middle l1 l2 h). apply perm_swap.
    + specialize (IH i j).
      destruct (nth_error t i) as [xi|]; [|reflexivity].
      destruct (nth_error t j) as [xj|]; [|reflexivity].
      apply perm_skip. exact IH.
Qed.

Lemma shuffle_from_Permutation {A : Type} (draw : nat -> nat) (i : nat) :
  forall (t : nat) (x : list A), Permutation (shuffle_from draw t i x) x.
Proof.
  induction i as [|i IH]; intros t x; simpl; [reflexivity|].
  rewrite IH. apply swap_Permutation.
Qed.

(** [np.random.shuffle] permutes. *)
Lemma np_shuffle_Permutation {A : Type} (draw : nat -> nat) (x : list A) :
  Permutation (np_shuffle draw x) x.
Proof. apply shuffle_from_Permutation. Qed.

(** *** Merging and cutting *)

Lemma clean_rows (dat : sarray) (n : nat) :
  Scaling.has_rows n dat -> dat <> [] -> clean dat = map (in_row dat) (seq 0 n).
Proof.
  intros Hrows Hne. unfold clean.
  rewrite (IngestFacts.has_rows_shape0 n dat Hrows Hne). reflexivity.
Qed.

Lemma one_field_not_nil (dat : sarray) : one_field dat -> dat <> [].
Proof. intros H ->. discriminate H. Qed.

Lemma in_row_one_field (dat : sarray) (k : nat) :
  one_field dat -> in_row dat k = [label_at dat k].
Proof.
  unfold one_field, in_row, label_at.
  destruct dat as [|col [|col' dat]]; try discriminate. reflexivity.
Qed.

Lemma combine_map_same {A B C : Type} (f : A -> B) (g : A -> C) (l : list A) :
  combine (map f l) (map g l) = map (fun a => (f a, g a)) l.
Proof. induction l as [|a l IH]; simpl; [reflexivity | rewrite IH; reflexivity]. Qed.

Lemma hstack_maps (f g : nat -> list R) (l : list nat) :
  hstack (map f l) (map g l) = Ok (map (fun k => f k ++ g k) l).
Proof.
  unfold hstack. rewrite !length_map, Nat.eqb_refl, combine_map_same, map_map.
  reflexivity.
Qed.

Lemma mapM_map_Ok {A B C : Type} (f : B -> res C) (r : A -> B) (g : A -> C) (l : list A) :
  (forall a, f (r a) = Ok (g a)) -> mapM f (map r l) = Ok (map g l).
Proof.
  intros H. induction l as [|a l IH]; simpl; [reflexivity|].
  rewrite H. simpl. rewrite IH. reflexivity.
Qed.

Lemma item_app (a l : list R) (i : nat) (x : R) :
  nth_error l i = Some x -> item (a ++ l) (length a + i) = Ok x.
Proof.
  intros H. unfold item. rewrite nth_error_app2 by lia.
  replace (length a + i - length a)%nat with i by lia. rewrite H. reflexivity.
Qed.

(** The merged row of example [k]. *)
Lemma merged_row_cut (a : list R) (o r c f : R) :
  firstn (length a) ((((a ++ [o]) ++ [r]) ++ [c]) ++ [f]) = a /\
  item ((((a ++ [o]) ++ [r]) ++ [c]) ++ [f]) (length a) = Ok o /\
  item ((((a ++ [o]) ++ [r]) ++ [c]) ++ [f]) (length a + 1) = Ok r /\
  item ((((a ++ [o]) ++ [r]) ++ [c]) ++ [f]) (length a + 2) = Ok c /\
  item ((((a ++ [o]) ++ [r]) ++ [c]) ++ [f]) (length a + 3) = Ok f.
Proof.
  rewrite <- !app_assoc. simpl. repeat split.
  - rewrite <- (Nat.add_0_r (length a)), firstn_app_2. simpl. apply app_nil_r.
  - rewrite <- (Nat.add_0_r (length a)). apply item_app. reflexivity.
  - apply item_app. reflexivity.
  - apply item_app. reflexivity.
  - apply item_app. reflexivity.
Qed.

(** The five arrays come back from the merged matrix row by row, each in the
    one order of the shuffled row indices. *)
Lemma shuffle_together_ok (draw : nat -> nat)
  (dat_in dat_out dat_out_raw dat_out_oracle num_flws : sarray) (n : nat) :
  Scaling.has_rows n dat_in -> dat_in <> [] ->
  Scaling.has_rows n dat_out -> one_field dat_out ->
  Scaling.has_rows n dat_out_raw -> one_field dat_out_raw ->
  Scaling.has_rows n dat_out_oracle -> one_field dat_out_oracle ->
  Scaling.has_rows n num_flws -> one_field num_flws ->
  shuffle_together draw dat_in dat_out dat_out_raw dat_out_oracle num_flws
  = Ok {| s_in := map (in_row dat_in) (np_shuffle draw (seq 0 n));
          s_out := map (label_at dat_out) (np_shuffle draw (seq 0 n));
          s_out_raw := map (label_at dat_out_raw) (np_shuffle draw (seq 0 n));
          s_out_oracle := map (label_at dat_out_oracle) (np_shuffle draw (seq 0 n));
          s_num_flws := map (label_at num_flws) (np_shuffle draw (seq 0 n)) |}.
Proof.
  intros Hin Hne Hout Hout1 Hraw Hraw1 Horc Horc1 Hflw Hflw1.
  unfold shuffle_together.
  rewrite (clean_rows dat_in n Hin Hne).
  rewrite (clean_rows dat_out n Hout (one_field_not_nil _ Hout1)).
  rewrite (clean_rows dat_out_raw n Hraw (one_field_not_nil _ Hraw1)).
  rewrite (clean_rows dat_out_oracle n Horc (one_field_not_nil _ Horc1)).
  rewrite (clean_rows num_flws n Hflw (one_field_not_nil _ Hflw1)).
  rewrite hstack_maps. simpl. rewrite hstack_maps. simpl.
  rewrite hstack_maps. simpl. rewrite hstack_maps. simpl.
  rewrite np_shuffle_map.
  set (p := np_shuffle draw (seq 0 n)).
  assert (Hrow : forall k,
            let row := (((in_row dat_in k ++ in_row dat_out k) ++ in_row dat_out_raw k)
                          ++ in_row dat_out_oracle k) ++ in_row num_flws k in
            firstn (length dat_in) row = in_row dat_in k /\
            item row (length dat_in) = Ok (label_at dat_out k) /\
            item row (length dat_in + 1) = Ok (label_at dat_out_raw k) /\
            item row (length dat_in + 2) = Ok (label_at dat_out_oracle k) /\
            item row (length dat_in + 3) = Ok (label_at num_flws k)).
  { intros k. simpl.
    rewrite (in_row_one_field dat_out k Hout1), (in_row_one_field dat_out_raw k Hraw1),
      (in_row_one_field dat_out_oracle k Horc1), (in_row_one_field num_flws k Hflw1).
    replace (length dat_in) with (length (in_row dat_in k))
      by (unfold in_row; apply length_map).
    apply merged_row_cut. }
  unfold col_at, cols_upto.
  rewrite (mapM_map_Ok _ _ (label_at dat_out)) by (intros k; apply (Hrow k)). simpl.
  rewrite (mapM_map_Ok _ _ (label_at dat_out_raw)) by (intros k; apply (Hrow k)). simpl.
  rewrite (mapM_map_Ok _ _ (label_at dat_out_oracle)) by (intros k; apply (Hrow k)). simpl.
  rewrite (mapM_map_Ok _ _ (label_at num_flws)) by (intros k; apply (Hrow k)). simpl.
  rewrite map_map. f_equal. f_equal. apply map_ext. intros k. apply (Hrow k).
Qed.

(** *** Rounding *)

Lemma py_round_bounds (x : Q) :
  (x - (1 # 2) <= inject_Z (py_round x) <= x + (1 # 2))%Q.
Proof.
  unfold py_round. pose proof (Qfloor_le x) as Hlo. pose proof (Qlt_floor x) as Hhi.
  rewrite inject_Z_plus in Hhi. change (inject_Z 1) with 1%Q in Hhi.
  set (f := Qfloor x) in *.
  destruct (Qcompare (x - inject_Z f) (1 # 2)) eqn:E.
  - apply Qeq_alt in E.
    destruct (Z.even f); rewrite ?inject_Z_plus; change (inject_Z 1) with 1%Q;
      split; lra.
  - apply Qlt_alt in E. split; lra.
  - apply Qgt_alt in E. rewrite inject_Z_plus. change (inject_Z 1) with 1%Q.
    split; lra.
Qed.

(** A bound between rationals, read between integers. *)
Ltac z_of_q_bound :=
  rewrite Zle_Qle;
  unfold Z.sub; repeat (rewrite ?inject_Z_plus, ?inject_Z_mult, ?inject_Z_opp);
  change (inject_Z 2) with 2%Q; change (inject_Z 3) with 3%Q;
  change (inject_Z 5) with 5%Q; change (inject_Z 10) with 10%Q; lra.

Lemma py_round_fifth (N : Z) :
  (2 * N - 5 <= 10 * py_round (inject_Z N * 0.2) <= 2 * N + 5)%Z.
Proof.
  destruct (py_round_bounds (inject_Z N * 0.2)) as [Hlo Hhi].
  split; z_of_q_bound.
Qed.

Lemma py_round_three_tenths (N : Z) :
  (3 * N - 5 <= 10 * py_round (inject_Z N * 0.3) <= 3 * N + 5)%Z.
Proof.
  destruct (py_round_bounds (inject_Z N * 0.3)) as [Hlo Hhi].
  split; z_of_q_bound.
Qed.

(** The sizes of the validation and of the test part, as integers, and the
    room they leave. *)
Lemma split_sizes (use_val : bool) (N : nat) :
  Z.of_nat (num_tst_of N) = py_round (inject_Z (Z.of_nat N) * 0.3) /\
  Z.of_nat (num_val_of use_val N)
  = (if use_val then py_round (inject_Z (Z.of_nat N) * 0.2) else 0%Z) /\
  (num_val_of use_val N + num_tst_of N <= N)%nat.
Proof.
  pose proof (py_round_three_tenths (Z.of_nat N)) as Ht.
  pose proof (py_round_fifth (Z.of_nat N)) as Hv.
  unfold num_tst_of, num_val_of.
  set (rt := py_round (inject_Z (Z.of_nat N) * 0.3)) in *.
  set (rv := py_round (inject_Z (Z.of_nat N) * 0.2)) in *.
  destruct use_val; repeat split; lia.
Qed.

(** *** The split *)

Lemma slice_map {A B : Type} (f : A -> B) (lo hi : nat) (l : list A) :
  slice lo hi (map f l) = map f (slice lo hi l).
Proof. unfold slice. rewrite skipn_map, firstn_map. reflexivity. Qed.

Lemma length_slice {A : Type} (lo hi : nat) (l : list A) :
  (lo <= hi)%nat -> (hi <= length l)%nat -> length (slice lo hi l) = (hi - lo)%nat.
Proof.
  intros H1 H2. unfold slice. rewrite length_firstn, length_skipn. lia.
Qed.

Lemma slices_partition {A : Type} (a b : nat) (l : list A) :
  slice 0 a l ++ slice a (a + b) l ++ skipn (a + b) l = l.
Proof.
  unfold slice. simpl. rewrite Nat.sub_0_r.
  replace (a + b - a)%nat with b by lia.
  transitivity (firstn a l ++ skipn a l); [f_equal | apply firstn_skipn].
  replace (a + b)%nat with (b + a)%nat by lia.
  rewrite <- skipn_skipn. apply firstn_skipn.
Qed.

Lemma length_np_shuffle_seq (draw : nat -> nat) (n : nat) :
  length (np_shuffle draw (seq 0 n)) = n.
Proof.
  rewrite (Permutation_length (np_shuffle_Permutation draw (seq 0 n))).
  apply length_seq.
Qed.

(** What [split_data] returns for five arrays of [n] rows: with [p] the
    shuffled row indices, the validation part is read at the first [num_val]
    indices of [p], the test part at the next [num_tst], the training part at
    the rest. *)
Lemma split_data_ok (draw : nat -> nat) (is_svm : bool)
  (dat_in dat_out dat_out_raw dat_out_oracle num_flws : sarray)
  (bch_trn bch_tst : Z) (use_val : bool) (n : nat) :
  Scaling.has_rows n dat_in -> dat_in <> [] ->
  Scaling.has_rows n dat_out -> one_field dat_out ->
  Scaling.has_rows n dat_out_raw -> one_field dat_out_raw ->
  Scaling.has_rows n dat_out_oracle -> one_field dat_out_oracle ->
  Scaling.has_rows n num_flws -> one_field num_flws ->
  let p := np_shuffle draw (seq 0 n) in
  let nv := num_val_of use_val n in
  let nt := num_tst_of n in
  exists ldr_trn ldr_val ldr_tst,
    split_data draw is_svm dat_in dat_out dat_out_raw dat_out_oracle num_flws
      bch_trn bch_tst use_val = Ok (ldr_trn, ldr_val, ldr_tst) /\
    (ldr_val = None <-> use_val = false) /\
    val_rows ldr_val = map (in_row dat_in) (slice 0 nv p) /\
    val_labels ldr_val = map (label_at dat_out) (slice 0 nv p) /\
    l_in ldr_tst = map (in_row dat_in) (slice nv (nv + nt) p) /\
    l_out ldr_tst = map (label_at dat_out) (slice nv (nv + nt) p) /\
    l_out_raw ldr_tst = map (label_at dat_out_raw) (slice nv (nv + nt) p) /\
    l_out_oracle ldr_tst = map (label_at dat_out_oracle) (slice nv (nv + nt) p) /\
    l_num_flws ldr_tst = map (label_at num_flws) (slice nv (nv + nt) p) /\
    l_in ldr_trn = map (in_row dat_in) (skipn (nv + nt) p) /\
    l_out ldr_trn = map (label_at dat_out) (skipn (nv + nt) p).
Proof.
  intros Hin Hne Hout Hout1 Hraw Hraw1 Horc Horc1 Hflw Hflw1 p nv nt.
  unfold split_data.
  rewrite (shuffle_together_ok draw _ _ _ _ _ n Hin Hne Hout Hout1 Hraw Hraw1
             Horc Horc1 Hflw Hflw1).
  simpl. rewrite length_map, length_np_shuffle_seq.
  fold p nv nt. rewrite !slice_map, !skipn_map.
  eexists. eexists. eexists. split; [reflexivity|]. simpl.
  assert (Hnv : use_val = false -> nv = 0%nat) by (intros ->; reflexivity).
  destruct use_val; simpl.
  - repeat split; try reflexivity; intros; discriminate.
  - rewrite (Hnv eq_refl). repeat split; reflexivity.
Qed.

Lemma nth_map_at {A B : Type} (f : A -> B) (l : list A) (i : nat) (d : B) (d' : A) :
  (i < length l)%nat -> nth i (map f l) d = f (nth i l d').
Proof.
  intros Hi. rewrite (nth_indep _ d (f d')) by (rewrite length_map; exact Hi).
  apply map_nth.
Qed.

Lemma nth_slice {A : Type} (lo hi i : nat) (l : list A) (d : A) :
  (i < hi - lo)%nat -> nth i (slice lo hi l) d = nth (lo + i) l d.
Proof.
  intros Hi. unfold slice. rewrite nth_firstn.
  destruct (Nat.ltb_spec i (hi - lo)); [apply nth_skipn | lia].
Qed.

(** C5. [split_data] shuffles the five parallel arrays with one permutation:
    the shuffled row indices p are a permutation of 0 .. n-1, and at every
    row i each of the five shuffled arrays holds what the corresponding input
    array holds at row p(i).  The split keeps the rows together: the
    validation, test and training parts read their arrays at the same
    indices of p. *)
Theorem C5_one_permutation_for_the_five_arrays :
  forall (draw : nat -> nat) (is_svm : bool)
         (dat_in dat_out dat_out_raw dat_out_oracle num_flws : sarray)
         (bch_trn bch_tst : Z) (use_val : bool) (n : nat),
    Scaling.has_rows n dat_in -> dat_in <> [] ->
    Scaling.has_rows n dat_out -> one_field dat_out ->
    Scaling.has_rows n dat_out_raw -> one_field dat_out_raw ->
    Scaling.has_rows n dat_out_oracle -> one_field dat_out_oracle ->
    Scaling.has_rows n num_flws -> one_field num_flws ->
    exists p : list nat,
      Permutation p (seq 0 n) /\
      (exists s,
         shuffle_together draw dat_in dat_out dat_out_raw dat_out_oracle num_flws = Ok s /\
         forall i, (i < n)%nat ->
           nth i (s_in s) [] = in_row dat_in (nth i p 0%nat) /\
           nth i (s_out s) 0%R = label_at dat_out (nth i p 0%nat) /\
           nth i (s_out_raw s) 0%R = label_at dat_out_raw (nth i p 0%nat) /\
           nth i (s_out_oracle s) 0%R = label_at dat_out_oracle (nth i p 0%nat) /\
           nth i (s_num_flws s) 0%R = label_at num_flws (nth i p 0%nat)) /\
      (exists ldr_trn ldr_val ldr_tst,
         split_data draw is_svm dat_in dat_out dat_out_raw dat_out_oracle num_flws
           bch_trn bch_tst use_val = Ok (ldr_trn, ldr_val, ldr_tst) /\
         let nv := length (val_rows ldr_val) in
         let nt := length (l_in ldr_tst) in
         (forall i, (i < nv)%nat ->
            nth i (val_rows ldr_val) [] = in_row dat_in (nth i p 0%nat) /\
            nth i (val_labels ldr_val) 0%R = label_at dat_out (nth i p 0%nat)) /\
         (forall i, (i < nt)%nat ->
            nth i (l_in ldr_tst) [] = in_row dat_in (nth (nv + i) p 0%nat) /\
            nth i (l_out ldr_tst) 0%R = label_at dat_out (nth (nv + i) p 0%nat) /\
            nth i (l_out_raw ldr_tst) 0%R = label_at dat_out_raw (nth (nv + i) p 0%nat) /\
            nth i (l_out_oracle ldr_tst) 0%R
            = label_at dat_out_oracle (nth (nv + i) p 0%nat) /\
            nth i (l_num_flws ldr_tst) 0%R = label_at num_flws (nth (nv + i) p 0%nat)) /\
         (forall i, (i < length (l_in ldr_trn))%nat ->
            nth i (l_in ldr_trn) [] = in_row dat_in (nth (nv + nt + i) p 0%nat) /\
            nth i (l_out ldr_trn) 0%R = label_at dat_out (nth (nv + nt + i) p 0%nat))).
Proof.
  intros draw is_svm dat_in dat_out dat_out_raw dat_out_oracle num_flws bch_trn bch_tst
    use_val n Hin Hne Hout Hout1 Hraw Hraw1 Horc Horc1 Hflw Hflw1.
  exists (np_shuffle draw (seq 0 n)).
  pose proof (length_np_shuffle_seq draw n) as Hlen.
  split; [apply np_shuffle_Permutation|]. split.
  - eexists. split; [apply (shuffle_together_ok draw _ _ _ _ _ n); assumption|].
    intros i Hi. simpl.
    repeat split; apply nth_map_at; rewrite Hlen; exact Hi.
  - destruct (split_data_ok draw is_svm dat_in dat_out dat_out_raw dat_out_oracle
                num_flws bch_trn bch_tst use_val n Hin Hne Hout Hout1 Hraw Hraw1
                Horc Horc1 Hflw Hflw1)
      as (ldr_trn & ldr_val & ldr_tst & Hrun & _ & Hvi & Hvo & Hti & Hto & Htr & Htc
          & Htf & Hni & Hno).
    destruct (split_sizes use_val n) as (_ & _ & Hroom).
    set (p := np_shuffle draw (seq 0 n)) in *.
    set (nv := num_val_of use_val n) in *. set (nt := num_tst_of n) in *.
    assert (Lv : length (slice 0 nv p) = nv) by (rewrite length_slice; lia).
    assert (Lt : length (slice nv (nv + nt) p) = nt) by (rewrite length_slice; lia).
    assert (Ln : length (skipn (nv + nt) p) = (n - (nv + nt))%nat)
      by (rewrite length_skipn; lia).
    exists ldr_trn, ldr_val, ldr_tst. split; [exact Hrun|].
    rewrite Hvi, Hvo, Hti, Hto, Htr, Htc, Htf, Hni, Hno. rewrite !length_map, Lv, Lt, Ln.
    repeat split; intros;
      rewrite (nth_map_at _ _ _ _ 0%nat) by lia;
      f_equal; rewrite ?nth_slice, ?nth_skipn by lia; reflexivity.
Qed.

(** Three examples, tagged 10, 20, 30 in the input, 1, 2, 3 in the label,
    and so on; every draw is 0. *)
Lemma C5_witness :
  Scaling.has_rows 3 [[10; 20; 30]]%R /\ [[10; 20; 30]]%R <> [] /\
  Scaling.has_rows 3 [[1; 2; 3]]%R /\ one_field [[1; 2; 3]]%R /\
  Scaling.has_rows 3 [[4; 5; 6]]%R /\ one_field [[4; 5; 6]]%R /\
  Scaling.has_rows 3 [[7; 8; 9]]%R /\ one_field [[7; 8; 9]]%R /\
  Scaling.has_rows 3 [[2; 2; 2]]%R /\ one_field [[2; 2; 2]]%R /\
  exists p : list nat,
    Permutation p (seq 0 3) /\
    (exists s,
       shuffle_together (fun _ => 0%nat) [[10; 20; 30]]%R [[1; 2; 3]]%R [[4; 5; 6]]%R
         [[7; 8; 9]]%R [[2; 2; 2]]%R = Ok s /\
       forall i, (i < 3)%nat ->
         nth i (s_in s) [] = in_row [[10; 20; 30]]%R (nth i p 0%nat) /\
         nth i (s_out s) 0%R = label_at [[1; 2; 3]]%R (nth i p 0%nat) /\
         nth i (s_out_raw s) 0%R = label_at [[4; 5; 6]]%R (nth i p 0%nat) /\
         nth i (s_out_oracle s) 0%R = label_at [[7; 8; 9]]%R (nth i p 0%nat) /\
         nth i (s_num_flws s) 0%R = label_at [[2; 2; 2]]%R (nth i p 0%nat)).
Proof.
  assert (H3 : forall c : column, length c = 3%nat -> Scaling.has_rows 3 [c]).
  { intros c Hc. constructor; [exact Hc | constructor]. }
  assert (Hne : [[10; 20; 30]]%R <> []) by discriminate.
  repeat (split; [first [apply H3; reflexivity | exact Hne | reflexivity]|]).
  destruct (C5_one_permutation_for_the_five_arrays (fun _ => 0%nat) false
              [[10; 20; 30]]%R [[1; 2; 3]]%R [[4; 5; 6]]%R [[7; 8; 9]]%R [[2; 2; 2]]%R
              10%Z 10%Z true 3%nat
              (H3 [10; 20; 30]%R eq_refl) Hne (H3 [1; 2; 3]%R eq_refl) eq_refl
              (H3 [4; 5; 6]%R eq_refl) eq_refl (H3 [7; 8; 9]%R eq_refl) eq_refl
              (H3 [2; 2; 2]%R eq_refl) eq_refl)
    as (p & Hp & Hs & _).
  exists p. split; assumption.
Defined.

(** C6. For a dataset of N examples [split_data] returns three parts that
    are read at three consecutive segments pv, pt, pn of one permutation of
    the row indices 0 .. N-1, so that every example is in exactly one part:
    the test part has round(0.3 * N) examples, the validation part
    round(0.2 * N) when validation is enabled and none (with no validation
    loader) when it is not, and the training part the N - len(val) -
    len(test) that remain, so that the three lengths add up to N. *)
Theorem C6_split_sizes_and_partition :
  forall (draw : nat -> nat) (is_svm : bool)
         (dat_in dat_out dat_out_raw dat_out_oracle num_flws : sarray)
         (bch_trn bch_tst : Z) (use_val : bool) (N : nat),
    Scaling.has_rows N dat_in -> dat_in <> [] ->
    Scaling.has_rows N dat_out -> one_field dat_out ->
    Scaling.has_rows N dat_out_raw -> one_field dat_out_raw ->
    Scaling.has_rows N dat_out_oracle -> one_field dat_out_oracle ->
    Scaling.has_rows N num_flws -> one_field num_flws ->
    exists ldr_trn ldr_val ldr_tst,
      split_data draw is_svm dat_in dat_out dat_out_raw dat_out_oracle num_flws
        bch_trn bch_tst use_val = Ok (ldr_trn, ldr_val, ldr_tst) /\
      Z.of_nat (length (l_in ldr_tst)) = py_round (inject_Z (Z.of_nat N) * 0.3) /\
      Z.of_nat (length (val_rows ldr_val))
      = (if use_val then py_round (inject_Z (Z.of_nat N) * 0.2) else 0%Z) /\
      (ldr_val = None <-> use_val = false) /\
      length (l_in ldr_trn)
      = (N - length (val_rows ldr_val) - length (l_in ldr_tst))%nat /\
      (length (l_in ldr_trn) + length (val_rows ldr_val) + length (l_in ldr_tst))%nat = N /\
      length (l_out ldr_trn) = length (l_in ldr_trn) /\
      length (val_labels ldr_val) = length (val_rows ldr_val) /\
      length (l_out ldr_tst) = length (l_in ldr_tst) /\
      exists pv pt pn : list nat,
        Permutation (pv ++ pt ++ pn) (seq 0 N) /\
        val_rows ldr_val = map (in_row dat_in) pv /\
        val_labels ldr_val = map (label_at dat_out) pv /\
        l_in ldr_tst = map (in_row dat_in) pt /\
        l_out ldr_tst = map (label_at dat_out) pt /\
        l_in ldr_trn = map (in_row dat_in) pn /\
        l_out ldr_trn = map (label_at dat_out) pn.
Proof.
  intros draw is_svm dat_in dat_out dat_out_raw dat_out_oracle num_flws bch_trn bch_tst
    use_val N Hin Hne Hout Hout1 Hraw Hraw1 Horc Horc1 Hflw Hflw1.
  destruct (split_data_ok draw is_svm dat_in dat_out dat_out_raw dat_out_oracle
              num_flws bch_trn bch_tst use_val N Hin Hne Hout Hout1 Hraw Hraw1
              Horc Horc1 Hflw Hflw1)
    as (ldr_trn & ldr_val & ldr_tst & Hrun & Hnone & Hvi & Hvo & Hti & Hto & _ & _
        & _ & Hni & Hno).
  destruct (split_sizes use_val N) as (Ht & Hv & Hroom).
  pose proof (length_np_shuffle_seq draw N) as Hlen.
  set (p := np_shuffle draw (seq 0 N)) in *.
  set (nv := num_val_of use_val N) in *. set (nt := num_tst_of N) in *.
  assert (Lv : length (slice 0 nv p) = nv) by (rewrite length_slice; lia).
  assert (Lt : length (slice nv (nv + nt) p) = nt) by (rewrite length_slice; lia).
  assert (Ln : length (skipn (nv + nt) p) = (N - (nv + nt))%nat)
    by (rewrite length_skipn; lia).
  exists ldr_trn, ldr_val, ldr_tst. split; [exact Hrun|].
  rewrite Hvi, Hvo, Hti, Hto, Hni, Hno. rewrite !length_map, Lv, Lt, Ln.
  split; [exact Ht|]. split; [exact Hv|]. split; [exact Hnone|].
  split; [lia|]. split; [lia|]. split; [reflexivity|]. split; [reflexivity|].
  split; [reflexivity|].
  exists (slice 0 nv p), (slice nv (nv + nt) p), (skipn (nv + nt) p).
  rewrite slices_partition. split; [apply np_shuffle_Permutation|].
  repeat split; reflexivity.
Qed.

(** Ten examples with validation: two for validation, three for the test,
    five for the training. *)
Lemma C6_witness :
  let ten := [0; 1; 2; 3; 4; 5; 6; 7; 8; 9]%R in
  Scaling.has_rows 10 [ten] /\ [ten] <> [] /\ one_field [ten] /\
  py_round (inject_Z (Z.of_nat 10) * 0.3) = 3%Z /\
  py_round (inject_Z (Z.of_nat 10) * 0.2) = 2%Z /\
  exists ldr_trn ldr_val ldr_tst,
    split_data (fun t => t) false [ten] [ten] [ten] [ten] [ten] 8%Z 8%Z true
    = Ok (ldr_trn, ldr_val, ldr_tst) /\
    Z.of_nat (length (l_in ldr_tst)) = py_round (inject_Z (Z.of_nat 10) * 0.3) /\
    Z.of_nat (length (val_rows ldr_val)) = py_round (inject_Z (Z.of_nat 10) * 0.2) /\
    (length (l_in ldr_trn) + length (val_rows ldr_val) + length (l_in ldr_tst))%nat
    = 10%nat.
Proof.
  intros ten.
  assert (H10 : Scaling.has_rows 10 [ten]) by (constructor; [reflexivity | constructor]).
  assert (Hne : [ten] <> []) by discriminate.
  split; [exact H10|]. split; [exact Hne|]. split; [reflexivity|].
  split; [reflexivity|]. split; [reflexivity|].
  destruct (C6_split_sizes_and_partition (fun t => t) false [ten] [ten] [ten] [ten] [ten]
              8%Z 8%Z true 10%nat H10 Hne H10 eq_refl H10 eq_refl H10 eq_refl H10 eq_refl)
    as (ldr_trn & ldr_val & ldr_tst & Hrun & Ht & Hv & _ & _ & Hsum & _).
  exists ldr_trn, ldr_val, ldr_tst. repeat split; assumption.
Defined.

End SplitFacts.

Module TrainFacts.

Import Train.

Section LoopFacts.

Variables Model Batch : Type.
Variable fit : Model -> Batch -> Model.
Variable inference : Model -> Batch -> Q.
Variable cfg : config Batch.

(** *** One validation pass *)

Lemma validation_cases (s : state Model) (bchs : list Batch) :
  ldr_val cfg = Some bchs ->
  let p := pass_of inference s bchs in
  (improves (val_imp_thresh cfg) p = Some true ->
   validation inference cfg s
   = ({| net := net s; out_flp := Some (net s); los_val_min := Some (p_val p);
         val_pat := val_pat_max cfg; log := log s ++ [p] |},
      if (val_pat_max cfg <=? 0)%Z then Return else Continue)) /\
  (improves (val_imp_thresh cfg) p = Some false ->
   validation inference cfg s
   = ({| net := match out_flp s with Some saved => saved | None => net s end;
         out_flp := out_flp s; los_val_min := Some (p_min p);
         val_pat := (val_pat s - 1)%Z; log := log s ++ [p] |},
      if (val_pat s - 1 <=? 0)%Z then Return else Continue)) /\
  (improves (val_imp_thresh cfg) p = None ->
   validation inference cfg s
   = ({| net := net s; out_flp := out_flp s; los_val_min := Some (p_min p);
         val_pat := val_pat s; log := log s ++ [p] |},
      Throw ZeroDivisionError)).
Proof.
  intros Hval p. unfold validation. rewrite Hval.
  unfold improves, p, pass_of. simpl.
  unfold improvement.
  destruct (Qeq_bool _ 0); simpl.
  - split; [|split]; intros H; first [discriminate | reflexivity].
  - destruct (exceeds _ _); simpl; (split; [|split]); intros H;
      first [discriminate | reflexivity].
Qed.

Lemma validation_log (s : state Model) :
  exists more, log (fst (validation inference cfg s)) = log s ++ more.
Proof.
  unfold validation.
  destruct (ldr_val cfg) as [bchs|]; [|exists []; simpl; symmetry; apply app_nil_r].
  destruct (improvement _ _) as [prc|e]; simpl.
  - destruct (exceeds prc _); simpl; eexists; reflexivity.
  - eexists; reflexivity.
Qed.

(** The improvement test, spelled out. *)
Lemma improves_true (thresh : Q) (p : pass) :
  improves thresh p = Some true <->
  (~ p_min p == 0 /\ thresh < (p_min p - p_val p) / p_min p * 100)%Q.
Proof.
  unfold improves, improvement, exceeds.
  destruct (Qeq_bool (p_min p) 0) eqn:E.
  - apply Qeq_bool_iff in E. split; [discriminate | intros [H _]; contradiction].
  - assert (Hne : ~ (p_min p == 0)%Q) by (apply Qeq_bool_neq; exact E).
    destruct (Qlt_le_dec thresh ((p_min p - p_val p) / p_min p * 100)) as [Hlt|Hle].
    + split; auto.
    + split; [discriminate|]. intros [_ Hlt]. exfalso.
      apply (Qlt_not_le _ _ Hlt). exact Hle.
Qed.

(** *** The batches of an epoch *)

Lemma run_batches_log (epoch_idx : nat) (todo : list nat) :
  forall s, exists more,
    log (fst (run_batches fit inference cfg epoch_idx todo s)) = log s ++ more.
Proof.
  induction todo as [|i rest IH]; intros s; simpl.
  - exists []. symmetry. apply app_nil_r.
  - set (s1 := {| net := fit (net s) (ldr_trn cfg epoch_idx i); out_flp := out_flp s;
                  los_val_min := los_val_min s; val_pat := val_pat s; log := log s |}).
    destruct (ely_stp cfg); [|apply (IH s1)].
    destruct (validation_due cfg i) as [[|]|e];
      [|apply (IH s1)|exists []; simpl; symmetry; apply app_nil_r].
    destruct (validation_log s1) as (more & Hmore).
    destruct (validation inference cfg s1) as [s2 [| |e]]; simpl in *.
    + destruct (IH s2) as (more' & Hmore'). exists (more ++ more').
      rewrite Hmore', Hmore, app_assoc. reflexivity.
    + exists more. exact Hmore.
    + exists more. exact Hmore.
Qed.

Lemma Forall_app_l {A : Type} (P : A -> Prop) (l more : list A) :
  Forall P (l ++ more) -> Forall P l.
Proof. intros H. apply Forall_app in H. tauto. Qed.

(** While no pass gains, every pass that is due costs one unit of patience,
    and the loop returns at the pass that takes the last one. *)
Lemma run_batches_patience (bchs : list Batch) (epoch_idx : nat) (todo : list nat) :
  ely_stp cfg = true -> ldr_val cfg = Some bchs -> bchs_per_val cfg <> 0%nat ->
  forall s s' sig,
  run_batches fit inference cfg epoch_idx todo s = (s', sig) ->
  (0 < val_pat s)%Z ->
  Forall (no_gain cfg) (log s') ->
  ((Z.of_nat (dues cfg todo) < val_pat s)%Z ->
   sig = Continue /\ val_pat s' = (val_pat s - Z.of_nat (dues cfg todo))%Z /\
   length (log s') = (length (log s) + dues cfg todo)%nat) /\
  ((val_pat s <= Z.of_nat (dues cfg todo))%Z ->
   sig = Return /\ val_pat s' = 0%Z /\
   length (log s') = (length (log s) + Z.to_nat (val_pat s))%nat).
Proof.
  intros Hely Hval Hbpv.
  induction todo as [|i rest IH]; intros s s' sig Hrun Hpat Hlog.
  - simpl in Hrun. injection Hrun as <- <-. unfold dues. simpl. split; intros H.
    + repeat split; lia.
    + lia.
  - simpl in Hrun. rewrite Hely in Hrun.
    set (s1 := {| net := fit (net s) (ldr_trn cfg epoch_idx i); out_flp := out_flp s;
                  los_val_min := los_val_min s; val_pat := val_pat s; log := log s |})
      in *.
    unfold validation_due in Hrun. unfold dues. simpl.
    destruct (bchs_per_val cfg =? 0)%nat eqn:E0; [apply Nat.eqb_eq in E0; contradiction|].
    destruct (i mod bchs_per_val cfg =? 0)%nat eqn:Edue; simpl.
    + pose proof (validation_cases s1 bchs Hval) as (_ & Hfail & _).
      assert (Hp : no_gain cfg (pass_of inference s1 bchs)).
      { destruct (validation inference cfg s1) as [s2 sig2] eqn:Ev.
        assert (Hin : exists pre post,
                  log s' = pre ++ pass_of inference s1 bchs :: post).
        { assert (Hs2 : exists m, log s2 = log s1 ++ pass_of inference s1 bchs :: m).
          { pose proof (validation_cases s1 bchs Hval) as (H1 & H2 & H3).
            simpl in H1, H2, H3.
            destruct (improves (val_imp_thresh cfg) (pass_of inference s1 bchs))
              as [[|]|];
              [rewrite H1 in Ev | rewrite H2 in Ev | rewrite H3 in Ev]; auto;
              injection Ev as <- _; exists []; reflexivity. }
          destruct Hs2 as (m & Hs2).
          destruct sig2.
          - pose proof (run_batches_log epoch_idx rest s2) as (more' & Hmore').
            rewrite Hrun in Hmore'. simpl in Hmore'.
            exists (log s1), (m ++ more'). rewrite Hmore', Hs2, <- app_assoc. reflexivity.
          - injection Hrun as <- _. exists (log s1), m. exact Hs2.
          - injection Hrun as <- _. exists (log s1), m. exact Hs2. }
        destruct Hin as (pre & post & Hin). rewrite Hin in Hlog.
        apply Forall_app in Hlog. destruct Hlog as [_ Hlog].
        inversion Hlog; assumption. }
      simpl in Hfail. rewrite (Hfail Hp) in Hrun.
      change (val_pat s1) with (val_pat s) in *. change (log s1) with (log s) in *.
      destruct (Z.leb_spec (val_pat s - 1) 0) as [Hlast|Hmore1].
      * injection Hrun as <- <-. simpl. rewrite length_app. simpl. split; intros H.
        -- lia.
        -- repeat split; lia.
      * destruct (IH _ _ _ Hrun) as [Hlt Hge]; [simpl; lia | exact Hlog|].
        simpl in Hlt, Hge. rewrite length_app in Hlt, Hge. simpl in Hlt, Hge.
        fold (dues cfg rest) in *. split; intros H.
        -- destruct Hlt as (-> & -> & ->); [lia|]. repeat split; lia.
        -- destruct Hge as (-> & -> & ->); [lia|]. repeat split; lia.
    + fold (dues cfg rest). apply (IH s1 s' sig Hrun); assumption.
Qed.

(** *** The epochs *)

Lemma run_epochs_log (todo : list nat) :
  forall s, exists more,
    log (fst (run_epochs fit inference cfg todo s)) = log s ++ more.
Proof.
  assert (Hfinal : forall s : state Model, log (save_final cfg s) = log s).
  { intros s. unfold save_final. destruct (ely_stp cfg); reflexivity. }
  induction todo as [|e rest IH]; intros s; simpl.
  - exists []. rewrite Hfinal. symmetry. apply app_nil_r.
  - destruct (timed_out cfg e); simpl.
    + exists []. rewrite Hfinal. symmetry. apply app_nil_r.
    + destruct (run_batches_log e (seq 0 (num_bchs_trn cfg)) s) as (more & Hmore).
      destruct (run_batches fit inference cfg e (seq 0 (num_bchs_trn cfg)) s)
        as [s1 [| |x]]; simpl in *.
      * destruct (IH s1) as (more' & Hmore'). exists (more ++ more').
        rewrite Hmore', Hmore, app_assoc. reflexivity.
      * exists more. exact Hmore.
      * exists more. exact Hmore.
Qed.

Lemma run_epochs_patience (bchs : list Batch) (todo : list nat) :
  ely_stp cfg = true -> ldr_val cfg = Some bchs -> bchs_per_val cfg <> 0%nat ->
  (forall e, In e todo -> timed_out cfg e = false) ->
  forall s s' out,
  run_epochs fit inference cfg todo s = (s', out) ->
  (0 < val_pat s)%Z ->
  Forall (no_gain cfg) (log s') ->
  (val_pat s <= Z.of_nat (length todo * vals_per_epoch cfg))%Z ->
  (exists e, out = StoppedByPatience e) /\ val_pat s' = 0%Z /\
  length (log s') = (length (log s) + Z.to_nat (val_pat s))%nat.
Proof.
  intros Hely Hval Hbpv.
  induction todo as [|e rest IH]; intros Htime s s' out Hrun Hpat Hlog Hroom.
  - simpl in Hroom. lia.
  - simpl in Hrun. rewrite (Htime e (or_introl eq_refl)) in Hrun.
    destruct (run_batches fit inference cfg e (seq 0 (num_bchs_trn cfg)) s)
      as [s1 sig] eqn:Eb.
    assert (Hlog1 : Forall (no_gain cfg) (log s1)).
    { destruct sig.
      - pose proof (run_epochs_log rest s1) as (more & Hmore).
        rewrite Hrun in Hmore. simpl in Hmore. rewrite Hmore in Hlog.
        exact (Forall_app_l _ _ _ Hlog).
      - injection Hrun as <- _. exact Hlog.
      - injection Hrun as <- _. exact Hlog. }
    destruct (run_batches_patience bchs e _ Hely Hval Hbpv s s1 sig Eb Hpat Hlog1)
      as [Hlt Hge].
    fold (vals_per_epoch cfg) in Hlt, Hge.
    destruct (Z.lt_ge_cases (Z.of_nat (vals_per_epoch cfg)) (val_pat s)) as [Hmore|Hlast].
    + destruct (Hlt Hmore) as (-> & Hpat1 & Hlen1).
      destruct (IH (fun e' He' => Htime e' (or_intror He')) s1 s' out Hrun)
        as (Hout & Hzero & Hlen); [lia | exact Hlog | simpl in Hroom; lia |].
      repeat split; auto. lia.
    + destruct (Hge Hlast) as (-> & Hzero & Hlen1).
      injection Hrun as <- <-. repeat split; auto. exists e. reflexivity.
Qed.

(** *** The first pass *)

Lemma validation_starts_at_best (s : state Model) :
  starts_at_best s -> starts_at_best (fst (validation inference cfg s)).
Proof.
  unfold validation, starts_at_best.
  destruct (ldr_val cfg) as [bchs|]; [|simpl; auto].
  intros H.
  assert (Hgoal : forall (m : Model) (f : option Model) (b : option Q) (v : Z),
            b <> None ->
            match log s ++ [{| p_min := match los_val_min s with
                                         | None => sum_losses inference (net s) bchs
                                         | Some b0 => b0
                                         end;
                               p_val := sum_losses inference (net s) bchs |}] with
            | [] => b = None
            | p :: _ => p_min p = p_val p /\ b <> None
            end).
  { intros m f b v Hb. destruct (log s) as [|p l]; simpl.
    - rewrite H. split; [reflexivity | exact Hb].
    - split; [apply H | exact Hb]. }
  destruct (improvement _ _) as [prc|e]; simpl.
  - destruct (exceeds prc _); simpl; apply (Hgoal (net s) None _ 0%Z); discriminate.
  - apply (Hgoal (net s) None _ 0%Z). discriminate.
Qed.

Lemma run_batches_starts_at_best (epoch_idx : nat) (todo : list nat) :
  forall s, starts_at_best s ->
            starts_at_best (fst (run_batches fit inference cfg epoch_idx todo s)).
Proof.
  induction todo as [|i rest IH]; intros s H; simpl; [exact H|].
  set (s1 := {| net := fit (net s) (ldr_trn cfg epoch_idx i); out_flp := out_flp s;
                los_val_min := los_val_min s; val_pat := val_pat s; log := log s |}).
  assert (H1 : starts_at_best s1) by exact H.
  destruct (ely_stp cfg); [|apply (IH s1 H1)].
  destruct (validation_due cfg i) as [[|]|e]; [|apply (IH s1 H1)|exact H1].
  pose proof (validation_starts_at_best s1 H1) as H2.
  destruct (validation inference cfg s1) as [s2 [| |e]]; simpl in *;
    [apply (IH s2 H2) | exact H2 | exact H2].
Qed.

Lemma run_epochs_starts_at_best (todo : list nat) :
  forall s, starts_at_best s ->
            starts_at_best (fst (run_epochs fit inference cfg todo s)).
Proof.
  assert (Hfinal : forall s : state Model, starts_at_best s ->
                                            starts_at_best (save_final cfg s)).
  { intros s H. unfold save_final. destruct (ely_stp cfg); exact H. }
  induction todo as [|e rest IH]; intros s H; simpl; [apply Hfinal; exact H|].
  destruct (timed_out cfg e); simpl; [apply Hfinal; exact H|].
  pose proof (run_batches_starts_at_best e (seq 0 (num_bchs_trn cfg)) s H) as H1.
  destruct (run_batches fit inference cfg e (seq 0 (num_bchs_trn cfg)) s)
    as [s1 [| |x]]; simpl in *; [apply (IH s1 H1) | exact H1 | exact H1].
Qed.

Lemma bchs_per_val_pos : num_bchs_trn cfg <> 0%nat -> bchs_per_val cfg <> 0%nat.
Proof.
  intros Hn. unfold bchs_per_val.
  set (x := (inject_Z (Z.of_nat (num_bchs_trn cfg)) / inject_Z VALS_PER_EPC)%Q).
  assert (Hx : (0 < x)%Q).
  { unfold x. apply Qlt_shift_div_l; [reflexivity|]. rewrite Qmult_0_l.
    change 0%Q with (inject_Z 0). rewrite <- Zlt_Qlt. lia. }
  pose proof (Qle_ceiling x) as Hc.
  assert (Hpos : (0 < Qceiling x)%Z).
  { rewrite Zlt_Qlt. eapply Qlt_le_trans; [exact Hx | exact Hc]. }
  lia.
Qed.

(** C8. At a validation checkpoint: when the improvement test passes (the
    lowest loss so far is not zero and exceeds the loss of this pass by more
    than the threshold, in percent of itself), the controller records the
    loss of this pass as the new best, resets the patience to its maximum and
    writes the current model into the checkpoint file; when the test fails,
    the patience goes down by one, the best loss and the file stay, and the
    live model becomes the model of the file when the file exists.  The loop
    then goes on from that state with the next batch. *)
Theorem C8_checkpoint_on_gain_and_rollback_otherwise :
  forall (s : state Model) (bchs : list Batch),
    ldr_val cfg = Some bchs ->
    let los_val := sum_losses inference (net s) bchs in
    let best := match los_val_min s with None => los_val | Some b => b end in
    let p := {| p_min := best; p_val := los_val |} in
    let s' := fst (validation inference cfg s) in
    (improves (val_imp_thresh cfg) p = Some true <->
     (~ best == 0 /\ val_imp_thresh cfg < (best - los_val) / best * 100)%Q) /\
    (improves (val_imp_thresh cfg) p = Some true ->
     los_val_min s' = Some los_val /\ val_pat s' = val_pat_max cfg /\
     out_flp s' = Some (net s) /\ net s' = net s /\ log s' = log s ++ [p]) /\
    (improves (val_imp_thresh cfg) p = Some false ->
     los_val_min s' = Some best /\ val_pat s' = (val_pat s - 1)%Z /\
     out_flp s' = out_flp s /\
     net s' = match out_flp s with Some saved => saved | None => net s end /\
     log s' = log s ++ [p]) /\
    (forall (epoch_idx bch_idx_trn : nat) (rest : list nat) (s0 : state Model),
       ely_stp cfg = true -> validation_due cfg bch_idx_trn = Ok true ->
       s = {| net := fit (net s0) (ldr_trn cfg epoch_idx bch_idx_trn);
              out_flp := out_flp s0; los_val_min := los_val_min s0;
              val_pat := val_pat s0; log := log s0 |} ->
       snd (validation inference cfg s) = Continue ->
       run_batches fit inference cfg epoch_idx (bch_idx_trn :: rest) s0
       = run_batches fit inference cfg epoch_idx rest s').
Proof.
  intros s bchs Hval los_val best p s'.
  pose proof (validation_cases s bchs Hval) as (Hgain & Hfail & _).
  simpl in Hgain, Hfail. fold los_val best in Hgain, Hfail.
  change (pass_of inference s bchs) with p in *.
  split; [apply (improves_true (val_imp_thresh cfg) p)|].
  split; [|split].
  - intros H. unfold s'. rewrite (Hgain H). simpl. repeat split; reflexivity.
  - intros H. unfold s'. rewrite (Hfail H). simpl. repeat split; reflexivity.
  - intros epoch_idx bch_idx_trn rest s0 Hely Hdue Hs Hcont.
    simpl. rewrite Hely, Hdue. rewrite <- Hs. unfold s'.
    destruct (validation inference cfg s) as [s2 sig]. simpl in *.
    rewrite Hcont. reflexivity.
Qed.


End LoopFacts.

(** *** A run *)

Lemma demo_bchs_per_val : bchs_per_val demo_cfg = 2%nat.
Proof. reflexivity. Qed.


(** A gain from 2 to 1 with a threshold of 0.1 percent, and a loss that stays
    at 1 with a checkpoint at hand. *)
Lemma C8_witness :
  ldr_val demo_cfg = Some [tt] /\
  (let s := {| net := 7%nat; out_flp := Some 4%nat; los_val_min := Some 2;
               val_pat := 1%Z; log := [] |} in
   improves (val_imp_thresh demo_cfg) {| p_min := 2; p_val := 0 + 1 |} = Some true /\
   los_val_min (fst (validation demo_inference demo_cfg s)) = Some (0 + 1) /\
   val_pat (fst (validation demo_inference demo_cfg s)) = 3%Z /\
   out_flp (fst (validation demo_inference demo_cfg s)) = Some 7%nat /\
   net (fst (validation demo_inference demo_cfg s)) = 7%nat) /\
  (let s := {| net := 7%nat; out_flp := Some 4%nat; los_val_min := Some 1;
               val_pat := 2%Z; log := [] |} in
   improves (val_imp_thresh demo_cfg) {| p_min := 1; p_val := 0 + 1 |} = Some false /\
   val_pat (fst (validation demo_inference demo_cfg s)) = 1%Z /\
   out_flp (fst (validation demo_inference demo_cfg s)) = Some 4%nat /\
   net (fst (validation demo_inference demo_cfg s)) = 4%nat).
Proof.
  split; [reflexivity|]. split.
  - intros s. split; [reflexivity|].
    destruct (C8_checkpoint_on_gain_and_rollback_otherwise nat unit demo_fit
                demo_inference demo_cfg s [tt] eq_refl)
      as (_ & Hgain & _).
    destruct (Hgain eq_refl) as (Hmin & Hpat & Hfile & Hnet & _).
    repeat split; assumption.
  - intros s. split; [reflexivity|].
    destruct (C8_checkpoint_on_gain_and_rollback_otherwise nat unit demo_fit
                demo_inference demo_cfg s [tt] eq_refl)
      as (_ & _ & Hfail & _).
    destruct (Hfail eq_refl) as (_ & Hpat & Hfile & Hnet & _).
    repeat split; assumption.
Defined.

End TrainFacts.

(* ===================================================================== *)
(** ** Trials and attempts *)
(* ===================================================================== *)

Module TrialsFacts.

Import Trials.
Open Scope Q_scope.

Section AttemptsFacts.

Variable A : Type.
Variable outs : Z -> A.
Variable failed : A -> bool.
Variable apts_max : Z.

Lemma attempts_left_succ (a : Z) :
  (a < apts_max)%Z ->
  Z.to_nat (apts_max - a) = S (Z.to_nat (apts_max - (a + 1))).
Proof. intros H. lia. Qed.

(** Trials that return [outs k] and raise nothing.  With fuel for the
    attempts that are left the loop ends, and it has kept
    the first [trls] results that did not fail. *)
Lemma attempts_kept (fuel : nat) :
  forall s : loop A,
    (Z.to_nat (apts_max - apts s) <= fuel)%nat ->
    exists s',
      attempts (fun k => Ok (outs k)) failed fuel apts_max s = Ok (Some s') /\
      ress s' = ress s ++
                firstn (Z.to_nat (trls s))
                  (filter (fun r => negb (failed r))
                     (map outs (attempt_numbers (apts s)
                                  (Z.to_nat (apts_max - apts s))))).
Proof.
  induction fuel as [|fuel IH]; intros s Hfuel.
  - assert (Hn : Z.to_nat (apts_max - apts s) = 0%nat) by lia.
    exists s. rewrite Hn. simpl.
    destruct ((0 <? trls s)%Z && (apts s <? apts_max)%Z) eqn:Eg.
    + apply andb_true_iff in Eg. destruct Eg as [_ Eg].
      apply Z.ltb_lt in Eg. lia.
    + split; [reflexivity|]. rewrite firstn_nil. symmetry. apply app_nil_r.
  - simpl. destruct ((0 <? trls s)%Z && (apts s <? apts_max)%Z) eqn:Eg.
    + apply andb_true_iff in Eg. destruct Eg as [Et Ea].
      apply Z.ltb_lt in Et. apply Z.ltb_lt in Ea.
      rewrite (attempts_left_succ _ Ea). simpl.
      destruct (failed (outs (apts s + 1))) eqn:Ef; simpl.
      * destruct (IH {| trls := trls s; apts := (apts s + 1)%Z; ress := ress s;
                        calls := calls s ++ [(apts s + 1)%Z] |}) as (s' & Hs' & Hr).
        { simpl. lia. }
        exists s'. split; [exact Hs'|]. exact Hr.
      * destruct (IH {| trls := (trls s - 1)%Z; apts := (apts s + 1)%Z;
                        ress := ress s ++ [outs (apts s + 1)];
                        calls := calls s ++ [(apts s + 1)%Z] |}) as (s' & Hs' & Hr).
        { simpl. lia. }
        exists s'. split; [exact Hs'|]. rewrite Hr. simpl.
        replace (Z.to_nat (trls s)) with (S (Z.to_nat (trls s - 1))) by lia.
        simpl. rewrite <- app_assoc. reflexivity.
    + exists s. split; [reflexivity|].
      apply andb_false_iff in Eg. destruct Eg as [Eg|Eg].
      * apply Z.ltb_ge in Eg.
        replace (Z.to_nat (trls s)) with 0%nat by lia.
        simpl. symmetry. apply app_nil_r.
      * apply Z.ltb_ge in Eg.
        replace (Z.to_nat (apts_max - apts s)) with 0%nat by lia.
        simpl. rewrite firstn_nil. symmetry. apply app_nil_r.
Qed.

(** When every attempt that is left fails, all of them are made, and nothing
    is kept. *)
Lemma attempts_all_failed (fuel : nat) :
  forall s : loop A,
    (Z.to_nat (apts_max - apts s) <= fuel)%nat ->
    (0 < trls s)%Z ->
    (apts s <= apts_max)%Z ->
    (forall k, (apts s < k <= apts_max)%Z -> failed (outs k) = true) ->
    exists s',
      attempts (fun k => Ok (outs k)) failed fuel apts_max s = Ok (Some s') /\
      trls s' = trls s /\
      apts s' = apts_max /\
      ress s' = ress s /\
      calls s' = calls s ++ attempt_numbers (apts s) (Z.to_nat (apts_max - apts s)).
Proof.
  induction fuel as [|fuel IH]; intros s Hfuel Ht Ha Hall.
  - assert (Hn : Z.to_nat (apts_max - apts s) = 0%nat) by lia.
    exists s. rewrite Hn. simpl.
    replace ((apts s <? apts_max)%Z) with false
      by (symmetry; apply Z.ltb_ge; lia).
    rewrite andb_false_r. repeat split; try reflexivity; try lia.
    symmetry. apply app_nil_r.
  - simpl. destruct (apts s <? apts_max)%Z eqn:Ea.
    + apply Z.ltb_lt in Ea.
      replace ((0 <? trls s)%Z) with true by (symmetry; apply Z.ltb_lt; exact Ht).
      simpl. rewrite (Hall (apts s + 1)%Z) by lia.
      destruct (IH {| trls := trls s; apts := (apts s + 1)%Z; ress := ress s;
                      calls := calls s ++ [(apts s + 1)%Z] |})
        as (s' & Hs' & H1 & H2 & H3 & H4); simpl; try lia.
      { intros k Hk. apply Hall. lia. }
      exists s'. split; [exact Hs'|]. simpl in *.
      repeat split; try assumption.
      rewrite H4, (attempts_left_succ _ Ea). simpl.
      rewrite <- app_assoc. reflexivity.
    + apply Z.ltb_ge in Ea. rewrite andb_false_r.
      exists s. replace (Z.to_nat (apts_max - apts s)) with 0%nat by lia.
      simpl. repeat split; try reflexivity; try lia.
      symmetry. apply app_nil_r.
Qed.

End AttemptsFacts.

Lemma attempt_numbers_length (n : nat) :
  forall a, length (attempt_numbers a n) = n.
Proof. induction n as [|n IH]; intros a; simpl; [|rewrite IH]; reflexivity. Qed.

Lemma attempt_numbers_In (n : nat) :
  forall a k, (a < k <= a + Z.of_nat n)%Z -> In k (attempt_numbers a n).
Proof.
  induction n as [|n IH]; intros a k Hk; simpl; [lia|].
  destruct (Z.eq_dec k (a + 1)) as [->|Hne]; [left; reflexivity|].
  right. apply IH. lia.
Qed.

(** [max] returns an element of the list, and none has a larger key. *)
Lemma fold_max_by_acc (l : list result) :
  forall best,
    let b := fold_left (fun best x => if Qlt_le_dec (fst best) (fst x) then x else best)
               l best in
    (b = best \/ In b l) /\ fst best <= fst b /\ (forall x, In x l -> fst x <= fst b).
Proof.
  induction l as [|x l IH]; intros best; simpl.
  - split; [left; reflexivity|]. split; [apply Qle_refl|]. intros x [].
  - destruct (Qlt_le_dec (fst best) (fst x)) as [Hlt|Hle].
    + destruct (IH x) as (Hin & Hx & Hall). simpl in *.
      split; [right; destruct Hin as [->|Hin]; [left; reflexivity | right; exact Hin]|].
      split; [apply Qle_trans with (fst x); [apply Qlt_le_weak; exact Hlt | exact Hx]|].
      intros y [<-|Hy]; [exact Hx | apply Hall; exact Hy].
    + destruct (IH best) as (Hin & Hb & Hall). simpl in *.
      split; [destruct Hin as [->|Hin]; [left; reflexivity | right; right; exact Hin]|].
      split; [exact Hb|].
      intros y [<-|Hy]; [apply Qle_trans with (fst best); assumption | apply Hall; exact Hy].
Qed.

Lemma report_best (l : list result) :
  l <> [] ->
  exists b,
    In b l /\ (forall r, In r l -> fst r <= fst b) /\
    report l = Ok (Num (1 - fst b), Num (snd b)).
Proof.
  destruct l as [|r l]; [intros H; contradiction H; reflexivity|]. intros _.
  destruct (fold_max_by_acc l r) as (Hin & Hr & Hall).
  set (b := fold_left (fun best x => if Qlt_le_dec (fst best) (fst x) then x else best)
              l r) in *.
  exists b. split; [destruct Hin as [->|Hin]; [left; reflexivity | right; exact Hin]|].
  split; [intros x [<-|Hx]; [exact Hr | apply Hall; exact Hx]|].
  unfold report, max_by_acc. simpl. fold b. destruct b as [acc tim]. reflexivity.
Qed.

(** [run_trials] reports on the results of [kept]. *)
Lemma run_trials_kept (outs : Z -> result) (conf_trials max_attempts : Z) :
  (0 <= max_attempts)%Z ->
  exists s,
    attempt_loop (fun k => Ok (outs k)) failed_trial conf_trials max_attempts
    = Ok (Some s) /\
    ress s = kept outs conf_trials max_attempts.
Proof.
  intros Hm. unfold attempt_loop.
  destruct (attempts_kept _ outs failed_trial max_attempts (Z.to_nat max_attempts)
              {| trls := conf_trials; apts := 0; ress := []; calls := [] |})
    as (s & Hs & Hr).
  { simpl. lia. }
  exists s. split; [exact Hs|]. rewrite Hr. simpl.
  unfold kept. rewrite Z.sub_0_r. reflexivity.
Qed.

Lemma kept_not_empty (outs : Z -> result) (conf_trials max_attempts k : Z) :
  (1 <= conf_trials)%Z ->
  (1 <= k <= max_attempts)%Z ->
  ~ fst (outs k) == 100 ->
  kept outs conf_trials max_attempts <> [].
Proof.
  intros Hc Hk Hacc. unfold kept.
  assert (Hin : In (outs k)
                  (filter (fun r => negb (failed_trial r))
                     (map outs (attempt_numbers 0 (Z.to_nat max_attempts))))).
  { apply filter_In. split.
    - apply in_map. apply attempt_numbers_In. lia.
    - unfold failed_trial. destruct (Qeq_bool (fst (outs k)) 100) eqn:E; [|reflexivity].
      apply Qeq_bool_iff in E. contradiction. }
  destruct (filter _ _) as [|r l]; [contradiction|].
  replace (Z.to_nat conf_trials) with (S (Z.to_nat (conf_trials - 1))) by lia.
  simpl. discriminate.
Qed.

(** C9. For trials that return (none raises), with [conf_trials] and
    [max_attempts] of at least one.  When every attempt returns the accuracy
    100, the loop of [run_trials] ends after it has invoked the trial
    function for the attempts 1 to [max_attempts], once each, and
    [run_trials] returns (NaN, NaN) and raises nothing.  When some attempt
    up to [max_attempts] returns another accuracy, [run_trials] returns one
    minus the accuracy, and the duration, of a kept result whose accuracy no
    kept result exceeds. *)
Theorem C9_retries_then_nan_or_best_trial :
  forall (outs : Z -> result) (conf_trials max_attempts : Z),
    (1 <= conf_trials)%Z ->
    (1 <= max_attempts)%Z ->
    ((forall k, (1 <= k <= max_attempts)%Z -> fst (outs k) == 100) ->
     (exists s,
        attempt_loop (fun k => Ok (outs k)) failed_trial conf_trials max_attempts
        = Ok (Some s) /\
        calls s = attempt_numbers 0 (Z.to_nat max_attempts) /\
        length (calls s) = Z.to_nat max_attempts) /\
     run_trials (fun k => Ok (outs k)) conf_trials max_attempts = Ok (Some (NaN, NaN)))
    /\
    ((exists k, (1 <= k <= max_attempts)%Z /\ ~ fst (outs k) == 100) ->
     exists b,
       In b (kept outs conf_trials max_attempts) /\
       (forall r, In r (kept outs conf_trials max_attempts) -> fst r <= fst b) /\
       run_trials (fun k => Ok (outs k)) conf_trials max_attempts
       = Ok (Some (Num (1 - fst b), Num (snd b)))).
Proof.
  intros outs conf_trials max_attempts Hc Hm. split.
  - intros Hall.
    destruct (attempts_all_failed _ outs failed_trial max_attempts (Z.to_nat max_attempts)
                {| trls := conf_trials; apts := 0; ress := []; calls := [] |})
      as (s & Hs & _ & _ & Hr & Hcalls); simpl; try lia.
    { intros k Hk. unfold failed_trial. apply Qeq_bool_iff. apply Hall. lia. }
    simpl in Hr, Hcalls. rewrite Z.sub_0_r in Hcalls.
    split.
    + exists s. split; [exact Hs|]. split; [exact Hcalls|].
      rewrite Hcalls. apply attempt_numbers_length.
    + unfold run_trials, attempt_loop. rewrite Hs. simpl. rewrite Hr. reflexivity.
  - intros (k & Hk & Hacc).
    destruct (run_trials_kept outs conf_trials max_attempts) as (s & Hs & Hr); [lia|].
    destruct (report_best (kept outs conf_trials max_attempts)) as (b & Hin & Hmax & Hrep).
    { apply (kept_not_empty outs conf_trials max_attempts k Hc Hk Hacc). }
    exists b. split; [exact Hin|]. split; [exact Hmax|].
    unfold run_trials. rewrite Hs. simpl. rewrite Hr, Hrep. reflexivity.
Qed.

(** Two trials in three attempts: all of them fail; and the first fails, the
    second and the third succeed, the third with the better accuracy. *)
Lemma C9_witness :
  (1 <= 2)%Z /\ (1 <= 3)%Z /\
  (forall k, (1 <= k <= 3)%Z -> fst (always_100 k) == 100) /\
  (exists s,
     attempt_loop (fun k => Ok (always_100 k)) failed_trial 2 3 = Ok (Some s) /\
     calls s = [1; 2; 3]%Z /\ length (calls s) = 3%nat) /\
  run_trials (fun k => Ok (always_100 k)) 2 3 = Ok (Some (NaN, NaN)) /\
  (exists k, (1 <= k <= 3)%Z /\ ~ fst (demo_outs k) == 100) /\
  (exists b,
     In b [(3 # 4, 7); (9 # 10, 8)] /\
     (forall r, In r [(3 # 4, 7); (9 # 10, 8)] -> fst r <= fst b) /\
     run_trials (fun k => Ok (demo_outs k)) 2 3 = Ok (Some (Num (1 - fst b), Num (snd b)))).
Proof.
  assert (H1 : (1 <= 2)%Z) by lia.
  assert (H2 : (1 <= 3)%Z) by lia.
  assert (H3 : forall k, (1 <= k <= 3)%Z -> fst (always_100 k) == 100)
    by (intros k _; reflexivity).
  assert (H4 : exists k, (1 <= k <= 3)%Z /\ ~ fst (demo_outs k) == 100).
  { exists 2%Z. split; [lia|]. vm_compute. discriminate. }
  destruct (C9_retries_then_nan_or_best_trial always_100 2 3 H1 H2) as (Hfail & _).
  destruct (Hfail H3) as (Hloop & Hnan).
  destruct (C9_retries_then_nan_or_best_trial demo_outs 2 3 H1 H2) as (_ & Hbest).
  split; [exact H1|]. split; [exact H2|]. split; [exact H3|].
  split; [exact Hloop|]. split; [exact Hnan|]. split; [exact H4|].
  exact (Hbest H4).
Defined.

(** [run_many] reports infinity, not NaN, when every attempt fails. *)
Lemma run_many_all_failed (outs : Z -> Q) (conf_trials max_attempts : Z) :
  (1 <= conf_trials)%Z ->
  (1 <= max_attempts)%Z ->
  (forall k, (1 <= k <= max_attempts)%Z -> outs k == 100) ->
  run_many (fun k => Ok (outs k)) conf_trials max_attempts = Ok (Some Inf).
Proof.
  intros Hc Hm Hall.
  destruct (attempts_all_failed _ outs (fun r => Qeq_bool r 100) max_attempts
              (Z.to_nat max_attempts)
              {| trls := conf_trials; apts := 0; ress := []; calls := [] |})
    as (s & Hs & _ & _ & Hr & _); simpl; try lia.
  { intros k Hk. apply Qeq_bool_iff. apply Hall. lia. }
  unfold run_many, attempt_loop. rewrite Hs. simpl. simpl in Hr. rewrite Hr. reflexivity.
Qed.

End TrialsFacts.

(* ===================================================================== *)
(** ** The LSTM trainer: [match] *)
(* ===================================================================== *)

Module LstmMatchFacts.

Import Lstm.

Section MatchFacts.

Variable V : Type.
Variable eqb : V -> V -> bool.

Lemma item_0_keyed (row : list V) : row <> [] -> exists key, item row 0 = Ok key.
Proof. destruct row as [|key t]; [intros H; contradiction H; reflexivity|]. eexists; reflexivity. Qed.

(** What the loop returns is read off a pairing of the rows. *)
Lemma match_rows_pairing (cols_a cols_b : nat) (b : list (list V)) :
  forall a merged,
    match_rows eqb cols_a cols_b a b = Ok merged ->
    exists bs,
      pairing eqb a b bs /\ length bs = length a /\
      merged = map (fun p => merged_row cols_a cols_b (fst p) (snd p)) (combine a bs).
Proof.
  induction b as [|row_b b IH]; intros a merged H; destruct a as [|row_a a]; simpl in H.
  - injection H as <-. exists []. repeat split. constructor.
  - discriminate.
  - injection H as <-. exists []. repeat split. constructor.
  - destruct (item row_a 0) as [key_a|e] eqn:Ea; simpl in H; [|discriminate].
    destruct (item row_b 0) as [key_b|e] eqn:Eb; simpl in H; [|discriminate].
    unfold item in Ea, Eb.
    destruct (nth_error row_a 0) as [key_a'|] eqn:Ea'; [|discriminate].
    destruct (nth_error row_b 0) as [key_b'|] eqn:Eb'; [|discriminate].
    injection Ea as ->. injection Eb as ->.
    destruct (eqb key_a key_b) eqn:Ek.
    + destruct (match_rows eqb cols_a cols_b a b) as [rest|e] eqn:Er; simpl in H;
        [|discriminate].
      injection H as <-.
      destruct (IH a rest Er) as (bs & Hp & Hl & Hm).
      exists (row_b :: bs). split; [|split].
      * apply pairing_take; [|exact Hp]. exists key_a, key_b. repeat split; assumption.
      * simpl. rewrite Hl. reflexivity.
      * simpl. rewrite Hm. reflexivity.
    + destruct (IH (row_a :: a) merged H) as (bs & Hp & Hl & Hm).
      exists bs. split; [|split]; [apply pairing_skip; exact Hp | exact Hl | exact Hm].
Qed.

Lemma pairing_drop (a b bs : list (list V)) (row_a : list V) :
  pairing eqb (row_a :: a) b bs -> exists bs', pairing eqb a b bs'.
Proof.
  intros H. remember (row_a :: a) as a0 eqn:Ea. revert a row_a Ea.
  induction H as [b|a0 b bs row_b H IH|a0 b bs row_a0 row_b Hk H IH]; intros a row_a Ea.
  - discriminate.
  - destruct (IH a row_a Ea) as (bs' & Hp). exists bs'. apply pairing_skip. exact Hp.
  - injection Ea as -> ->. exists bs. apply pairing_skip. exact H.
Qed.

(** The loop finds a pairing whenever there is one: it takes the first row
    of [b] that has the key. *)
Lemma pairing_match_rows (cols_a cols_b : nat) (b : list (list V)) :
  forall a bs,
    keyed a -> keyed b -> pairing eqb a b bs ->
    exists merged, match_rows eqb cols_a cols_b a b = Ok merged.
Proof.
  induction b as [|row_b b IH]; intros a bs Ha Hb Hp.
  - inversion Hp; subst. exists []. reflexivity.
  - destruct a as [|row_a a]; [exists []; reflexivity|].
    inversion Ha as [|? ? Hra Ha']; subst. inversion Hb as [|? ? Hrb Hb']; subst.
    destruct (item_0_keyed row_a Hra) as (key_a & Ea).
    destruct (item_0_keyed row_b Hrb) as (key_b & Eb).
    simpl. rewrite Ea, Eb. simpl.
    destruct (eqb key_a key_b) eqn:Ek.
    + assert (Hrest : exists bs', pairing eqb a b bs').
      { inversion Hp; subst.
        - eapply pairing_drop; eassumption.
        - eexists; eassumption. }
      destruct Hrest as (bs' & Hp').
      destruct (IH a bs' Ha' Hb' Hp') as (rest & Hr). rewrite Hr. simpl.
      eexists; reflexivity.
    + inversion Hp; subst.
      * apply (IH (row_a :: a) bs Ha Hb'). assumption.
      * exfalso. match goal with H : same_key _ _ _ |- _ =>
          destruct H as (ka & kb & H1 & H2 & H3) end.
        unfold item in Ea, Eb. rewrite H1 in Ea. rewrite H2 in Eb.
        injection Ea as ->. injection Eb as ->. congruence.
Qed.

(** With keyed rows the loop returns, or the assertion fails. *)
Lemma match_rows_cases (cols_a cols_b : nat) (b : list (list V)) :
  forall a,
    keyed a -> keyed b ->
    (exists merged, match_rows eqb cols_a cols_b a b = Ok merged) \/
    match_rows eqb cols_a cols_b a b = Raise AssertionError.
Proof.
  induction b as [|row_b b IH]; intros a Ha Hb; destruct a as [|row_a a]; simpl.
  - left. eexists; reflexivity.
  - right. reflexivity.
  - left. eexists; reflexivity.
  - inversion Ha as [|? ? Hra Ha']; subst. inversion Hb as [|? ? Hrb Hb']; subst.
    destruct (item_0_keyed row_a Hra) as (key_a & Ea).
    destruct (item_0_keyed row_b Hrb) as (key_b & Eb).
    rewrite Ea, Eb. simpl.
    destruct (eqb key_a key_b).
    + destruct (IH a Ha' Hb') as [(rest & Hr)|Hr]; rewrite Hr; simpl.
      * left. eexists; reflexivity.
      * right. reflexivity.
    + apply (IH (row_a :: a) Ha Hb').
Qed.

Lemma firstn_merged_rows (cols_a cols_b : nat) (a : list (list V)) :
  forall bs,
    length bs = length a ->
    Forall (fun row => length row = cols_a) a ->
    map (firstn cols_a)
      (map (fun p => merged_row cols_a cols_b (fst p) (snd p)) (combine a bs)) = a.
Proof.
  induction a as [|row_a a IH]; intros bs Hl Hw; [reflexivity|].
  destruct bs as [|row_b bs]; [discriminate|].
  pose proof (Forall_inv Hw) as Hr. pose proof (Forall_inv_tail Hw) as Hw'.
  simpl in Hr. simpl. f_equal.
  - unfold merged_row. rewrite firstn_app.
    assert (E : firstn cols_a row_a = row_a) by (apply firstn_all2; lia).
    rewrite !E. replace (cols_a - length row_a)%nat with 0%nat by lia.
    cbn [firstn]. apply app_nil_r.
  - apply IH; [simpl in Hl; lia | exact Hw'].
Qed.

Lemma distinct_app_common (fet : String.string) (l1 l2 : list String.string) :
  In fet l1 -> In fet l2 -> distinct (l1 ++ l2) = false.
Proof.
  induction l1 as [|x l1 IH]; intros H1 H2; [destruct H1|].
  simpl. destruct H1 as [->|H1].
  - replace (existsb (String.eqb fet) (l1 ++ l2)) with true; [reflexivity|].
    symmetry. apply existsb_exists. exists fet. split.
    + apply in_or_app. right. exact H2.
    + apply String.eqb_refl.
  - rewrite (IH H1 H2). apply andb_false_r.
Qed.

End MatchFacts.

(** X1. When [match(a, b)] returns, [merged] has the fields of [a] followed
    by the fields of [b] but the first, and one row for every row of [a], in
    the order of [a]: the row of [a] followed by the fields but the first of
    a row of [b] of the same key, these rows of [b] being taken in the order
    of [b].  When every row of [a] has one value per field, the fields of
    [a] in [merged] are [a] itself. *)
Theorem X1_match_extends_the_rows_of_a :
  forall (V : Type) (eqb : V -> V -> bool) (a b merged : rarray V),
    match_ eqb a b = Ok merged ->
    names merged = names a ++ tl (names b) /\
    length (rows merged) = length (rows a) /\
    (exists bs,
       pairing eqb (rows a) (rows b) bs /\
       rows merged
       = map (fun p => merged_row (length (names a)) (length (names b)) (fst p) (snd p))
           (combine (rows a) bs)) /\
    (Forall (fun row => length row = length (names a)) (rows a) ->
     map (firstn (length (names a))) (rows merged) = rows a).
Proof.
  intros V eqb a b merged H. unfold match_ in H.
  destruct (distinct (names a ++ tl (names b))); simpl in H; [|discriminate].
  destruct (match_rows eqb (length (names a)) (length (names b)) (rows a) (rows b))
    as [rs|e] eqn:Er; simpl in H; [|discriminate].
  injection H as <-. simpl.
  destruct (match_rows_pairing V eqb _ _ _ _ _ Er) as (bs & Hp & Hl & Hm).
  split; [reflexivity|]. split; [|split].
  - rewrite Hm, length_map, length_combine, Hl. apply Nat.min_id.
  - exists bs. split; assumption.
  - intros Hw. rewrite Hm. apply firstn_merged_rows; assumption.
Qed.

Lemma X1_witness :
  match_ Z.eqb demo_a demo_b
  = Ok {| names := ["seq"; "x"; "y"]%string; rows := [[1; 10; 100]; [3; 30; 300]]%Z |} /\
  length (rows demo_a) = 2%nat /\
  map (firstn 2) [[1; 10; 100]; [3; 30; 300]]%Z = rows demo_a.
Proof.
  assert (H : match_ Z.eqb demo_a demo_b
              = Ok {| names := ["seq"; "x"; "y"]%string;
                      rows := [[1; 10; 100]; [3; 30; 300]]%Z |}) by reflexivity.
  destruct (X1_match_extends_the_rows_of_a Z Z.eqb demo_a demo_b _ H)
    as (_ & Hlen & _ & Hfst).
  split; [exact H|]. split; [symmetry; exact Hlen|].
  apply Hfst. repeat constructor.
Defined.

(** X2. For arrays whose rows have a first field, and with distinct field
    names for [merged]: [match(a, b)] returns exactly when the rows of [a]
    can be paired, in order, with rows of [b] of the same key; when they
    cannot, the assertion of line 108 fails, and nothing else is raised. *)
Theorem X2_match_returns_iff_the_keys_pair_up :
  forall (V : Type) (eqb : V -> V -> bool) (a b : rarray V),
    distinct (names a ++ tl (names b)) = true ->
    keyed (rows a) -> keyed (rows b) ->
    ((exists bs, pairing eqb (rows a) (rows b) bs) <->
     (exists merged, match_ eqb a b = Ok merged)) /\
    (~ (exists bs, pairing eqb (rows a) (rows b) bs) ->
     match_ eqb a b = Raise AssertionError).
Proof.
  intros V eqb a b Hd Ha Hb.
  assert (Hback : (exists merged, match_ eqb a b = Ok merged) ->
                  exists bs, pairing eqb (rows a) (rows b) bs).
  { intros (merged & H). unfold match_ in H. rewrite Hd in H. simpl in H.
    destruct (match_rows eqb (length (names a)) (length (names b)) (rows a) (rows b))
      as [rs|e] eqn:Er; simpl in H; [|discriminate].
    destruct (match_rows_pairing V eqb _ _ _ _ _ Er) as (bs & Hp & _).
    exists bs. exact Hp. }
  split; [split; [|exact Hback]|].
  - intros (bs & Hp).
    destruct (pairing_match_rows V eqb (length (names a)) (length (names b))
                (rows b) (rows a) bs Ha Hb Hp) as (rs & Hr).
    unfold match_. rewrite Hd, Hr. simpl. eexists; reflexivity.
  - intros Hno.
    destruct (match_rows_cases V eqb (length (names a)) (length (names b))
                (rows b) (rows a) Ha Hb) as [(rs & Hr)|Hr].
    + exfalso. apply Hno. apply Hback. unfold match_. rewrite Hd, Hr. simpl.
      eexists; reflexivity.
    + unfold match_. rewrite Hd, Hr. reflexivity.
Qed.

Lemma X2_witness :
  distinct (names demo_a ++ tl (names demo_b)) = true /\
  keyed (rows demo_a) /\ keyed (rows demo_b) /\
  (exists merged, match_ Z.eqb demo_a demo_b = Ok merged) /\
  match_ Z.eqb demo_b {| names := ["seq"; "z"]%string; rows := rows demo_a |}
  = Raise AssertionError.
Proof.
  assert (H1 : distinct (names demo_a ++ tl (names demo_b)) = true) by reflexivity.
  assert (H2 : keyed (rows demo_a)) by (repeat constructor; discriminate).
  assert (H3 : keyed (rows demo_b)) by (repeat constructor; discriminate).
  destruct (X2_match_returns_iff_the_keys_pair_up Z Z.eqb demo_a demo_b H1 H2 H3)
    as (Hiff & _).
  split; [exact H1|]. split; [exact H2|]. split; [exact H3|].
  split; [|reflexivity].
  apply Hiff. exists [[1; 100]; [3; 300]]%Z.
  apply pairing_take; [exists 1%Z, 1%Z; repeat split|].
  apply pairing_skip.
  apply pairing_take; [exists 3%Z, 3%Z; repeat split|].
  apply pairing_done.
Defined.

(** X3. A field name of [a] that is also a field name of [b] other than the
    first makes [match(a, b)] fail with a [ValueError] at the dtype of
    [merged], whatever the rows: an array of two fields or more cannot be
    matched with itself. *)
Theorem X3_match_rejects_a_shared_field_name :
  forall (V : Type) (eqb : V -> V -> bool) (a b : rarray V) (fet : String.string),
    In fet (names a) -> In fet (tl (names b)) ->
    match_ eqb a b = Raise ValueError.
Proof.
  intros V eqb a b fet Ha Hb. unfold match_.
  rewrite (distinct_app_common fet _ _ Ha Hb). reflexivity.
Qed.

Lemma X3_witness :
  In "x"%string (names demo_a) /\ In "x"%string (tl (names demo_a)) /\
  match_ Z.eqb demo_a demo_a = Raise ValueError.
Proof.
  assert (H1 : In "x"%string (names demo_a)) by (right; left; reflexivity).
  assert (H2 : In "x"%string (tl (names demo_a))) by (left; reflexivity).
  split; [exact H1|]. split; [exact H2|].
  exact (X3_match_rejects_a_shared_field_name Z Z.eqb demo_a demo_a "x"%string H1 H2).
Defined.

End LstmMatchFacts.

(* ===================================================================== *)
(** ** The LSTM trainer: the class labels *)
(* ===================================================================== *)

Module LstmLabelsFacts.

Import Lstm.
Import LstmLabels.
Import ScalingFacts.

Open Scope Q_scope.

Lemma Qlt_bool_iff (x y : Q) : Qlt_bool x y = true <-> x < y.
Proof.
  unfold Qlt_bool. rewrite negb_true_iff. split.
  - intros H. apply Qnot_le_lt. intros Hle. apply Qle_bool_iff in Hle. congruence.
  - intros H. destruct (Qle_bool y x) eqn:E; [|reflexivity].
    apply Qle_bool_iff in E. exfalso. apply (Qlt_not_le _ _ H E).
Qed.

Lemma Qlt_bool_false (x y : Q) : Qlt_bool x y = false <-> y <= x.
Proof.
  unfold Qlt_bool. rewrite negb_false_iff. apply Qle_bool_iff.
Qed.

Lemma Qle_bool_false (x y : Q) : Qle_bool x y = false <-> y < x.
Proof.
  split.
  - intros H. apply Qnot_le_lt. intros Hle. apply Qle_bool_iff in Hle. congruence.
  - intros H. destruct (Qle_bool x y) eqn:E; [|reflexivity].
    apply Qle_bool_iff in E. exfalso. apply (Qlt_not_le _ _ H E).
Qed.

(** The comparisons of [percent_to_class] as propositions. *)
Ltac q_cases :=
  repeat match goal with
    | H : _ && _ = true |- _ => apply andb_true_iff in H; destruct H
    | H : _ && _ = false |- _ => apply andb_false_iff in H; destruct H
    | H : Qlt_bool _ _ = true |- _ => apply Qlt_bool_iff in H
    | H : Qlt_bool _ _ = false |- _ => apply Qlt_bool_false in H
    | H : Qle_bool _ _ = true |- _ => apply Qle_bool_iff in H
    | H : Qle_bool _ _ = false |- _ => apply Qle_bool_false in H
    end.

(** [dif] is one minus the share of the queue in units of the fair share. *)
Lemma dif_share (prc : Q) (num_flws : Z) :
  (num_flws <> 0)%Z ->
  (1 / inject_Z num_flws - prc) / (1 / inject_Z num_flws) == 1 - share prc num_flws.
Proof.
  intros Hn. unfold share.
  assert (Hq : ~ inject_Z num_flws == 0).
  { intros H. apply Hn. unfold Qeq in H. simpl in H. lia. }
  field. exact Hq.
Qed.

(** The class of a row, from the comparisons on [dif]. *)
Lemma percent_to_class_dif (prc : Q) (num_flws : Z) :
  (num_flws <> 0)%Z ->
  let dif := (1 / inject_Z num_flws - prc) / (1 / inject_Z num_flws) in
  exists cls,
    percent_to_class [prc] num_flws = Ok cls /\
    (cls = 0%Z /\ dif < - (0.4) \/
     cls = 1%Z /\ - (0.4) <= dif < - (0.1) \/
     cls = 2%Z /\ - (0.1) <= dif <= 0.1 \/
     cls = 3%Z /\ 0.1 < dif <= 0.4 \/
     cls = 4%Z /\ 0.4 < dif).
Proof.
  intros Hn dif. unfold percent_to_class. simpl.
  apply Z.eqb_neq in Hn. rewrite Hn. fold dif.
  destruct (Qlt_bool dif (-1 * 0.4)) eqn:E0.
  { exists 0%Z. split; [reflexivity|]. left. q_cases. split; [reflexivity|lra]. }
  destruct (Qle_bool (-1 * 0.4) dif && Qlt_bool dif (-1 * 0.1)) eqn:E1.
  { exists 1%Z. split; [reflexivity|]. right; left. q_cases.
    split; [reflexivity|lra]. }
  destruct (Qle_bool (-1 * 0.1) dif && Qle_bool dif 0.1) eqn:E2.
  { exists 2%Z. split; [reflexivity|]. right; right; left. q_cases;
    (split; [reflexivity|lra]). }
  destruct (Qlt_bool 0.1 dif && Qle_bool dif 0.4) eqn:E3.
  { exists 3%Z. split; [reflexivity|]. right; right; right; left. q_cases;
    (split; [reflexivity|lra]). }
  destruct (Qlt_bool 0.4 dif) eqn:E4.
  { exists 4%Z. split; [reflexivity|]. right; right; right; right. q_cases;
    (split; [reflexivity|lra]). }
  exfalso. q_cases; lra.
Qed.

Lemma percent_to_class_range (prc : list Q) (num_flws cls : Z) :
  percent_to_class prc num_flws = Ok cls -> (0 <= cls <= 4)%Z.
Proof.
  unfold percent_to_class, assert. intros H.
  destruct (length prc =? 1)%nat; simpl in H; [|discriminate].
  destruct (item prc 0) as [p|e]; simpl in H; [|discriminate].
  destruct (num_flws =? 0)%Z; [discriminate|].
  repeat match type of H with
         | (if ?c then _ else _) = _ => destruct c
         end;
    first [discriminate | injection H as <-; lia].
Qed.

Lemma fold_add_shift (l : list Z) :
  forall acc, fold_left Z.add l acc = (acc + fold_left Z.add l 0)%Z.
Proof.
  induction l as [|x l IH]; intros acc; simpl; [lia|].
  rewrite (IH (acc + x)%Z), (IH x). lia.
Qed.

Lemma count_cons (x v : Z) (l : list Z) :
  fold_left Z.add (map (fun v => if (v =? x)%Z then 1%Z else 0%Z) (v :: l)) 0%Z
  = ((if (v =? x)%Z then 1 else 0)
     + fold_left Z.add (map (fun v => if (v =? x)%Z then 1%Z else 0%Z) l) 0)%Z.
Proof. cbn [map fold_left]. rewrite fold_add_shift. lia. Qed.

(** Labels from 0 to 4 are counted once each by the five totals. *)
Lemma five_totals (l : list Z) :
  Forall (fun cls => (0 <= cls <= 4)%Z) l ->
  (fold_left Z.add (map (fun v => if (v =? 0)%Z then 1 else 0) l) 0
   + fold_left Z.add (map (fun v => if (v =? 1)%Z then 1 else 0) l) 0
   + fold_left Z.add (map (fun v => if (v =? 2)%Z then 1 else 0) l) 0
   + fold_left Z.add (map (fun v => if (v =? 3)%Z then 1 else 0) l) 0
   + fold_left Z.add (map (fun v => if (v =? 4)%Z then 1 else 0) l) 0
   = Z.of_nat (length l))%Z.
Proof.
  induction l as [|v l IH]; intros H; [reflexivity|].
  pose proof (Forall_inv H) as Hv. pose proof (IH (Forall_inv_tail H)) as IH'.
  rewrite !count_cons. cbn [length]. simpl in Hv.
  assert (Hc : (v = 0 \/ v = 1 \/ v = 2 \/ v = 3 \/ v = 4)%Z) by lia.
  destruct Hc as [ -> | [ -> | [ -> | [ -> | -> ] ] ] ]; cbn [Z.eqb Pos.eqb]; lia.
Qed.

Lemma total_rows_concat (dat_out : list (list Z)) :
  total_rows dat_out = Z.of_nat (length (concat dat_out)).
Proof.
  unfold total_rows. induction dat_out as [|d dat_out IH]; [reflexivity|].
  cbn [map fold_left concat]. rewrite fold_add_shift, IH, length_app. lia.
Qed.






End LstmLabelsFacts.

(* ===================================================================== *)
(** ** Scaling to a range: [scale_fets] of train.py and of train_lstm.py *)
(* ===================================================================== *)

Module RangeFacts.

Import Scaling.
Import ScalingFacts.

Open Scope R_scope.

(** *** Minimum and maximum *)

Lemma fold_left_Rmin_le (t : list R) :
  forall x, fold_left Rmin t x <= x /\ forall y, In y t -> fold_left Rmin t x <= y.
Proof.
  induction t as [|z t IH]; intros x; simpl.
  - split; [lra | intros y []].
  - destruct (IH (Rmin x z)) as (H1 & H2).
    pose proof (Rmin_l x z). pose proof (Rmin_r x z).
    split; [lra|]. intros y [<-|Hy]; [lra | apply H2; exact Hy].
Qed.

Lemma fold_left_Rmin_In (t : list R) :
  forall x, fold_left Rmin t x = x \/ In (fold_left Rmin t x) t.
Proof.
  induction t as [|z t IH]; intros x; simpl; [left; reflexivity|].
  destruct (IH (Rmin x z)) as [H|H]; [|right; right; exact H].
  rewrite H. unfold Rmin. destruct (Rle_dec x z); [left | right; left]; reflexivity.
Qed.

Lemma fold_left_Rmax_ge (t : list R) :
  forall x, x <= fold_left Rmax t x /\ forall y, In y t -> y <= fold_left Rmax t x.
Proof.
  induction t as [|z t IH]; intros x; simpl.
  - split; [lra | intros y []].
  - destruct (IH (Rmax x z)) as (H1 & H2).
    pose proof (Rmax_l x z). pose proof (Rmax_r x z).
    split; [lra|]. intros y [<-|Hy]; [lra | apply H2; exact Hy].
Qed.

Lemma fold_left_Rmax_In (t : list R) :
  forall x, fold_left Rmax t x = x \/ In (fold_left Rmax t x) t.
Proof.
  induction t as [|z t IH]; intros x; simpl; [left; reflexivity|].
  destruct (IH (Rmax x z)) as [H|H]; [|right; right; exact H].
  rewrite H. unfold Rmax. destruct (Rle_dec x z); [right; left | left]; reflexivity.
Qed.

Lemma min_of_le (l : list R) (x : R) : In x l -> min_of l <= x.
Proof.
  destruct l as [|z t]; [intros []|]. simpl.
  destruct (fold_left_Rmin_le t z) as (H1 & H2).
  intros [<-|H]; [exact H1 | apply H2; exact H].
Qed.

Lemma min_of_In (l : list R) : l <> [] -> In (min_of l) l.
Proof.
  destruct l as [|z t]; [intros H; contradiction H; reflexivity|]. intros _. simpl.
  destruct (fold_left_Rmin_In t z) as [H|H]; [left; symmetry; exact H | right; exact H].
Qed.

Lemma max_of_ge (l : list R) (x : R) : In x l -> x <= max_of l.
Proof.
  destruct l as [|z t]; [intros []|]. simpl.
  destruct (fold_left_Rmax_ge t z) as (H1 & H2).
  intros [<-|H]; [exact H1 | apply H2; exact H].
Qed.

Lemma max_of_In (l : list R) : l <> [] -> In (max_of l) l.
Proof.
  destruct l as [|z t]; [intros H; contradiction H; reflexivity|]. intros _. simpl.
  destruct (fold_left_Rmax_In t z) as [H|H]; [left; symmetry; exact H | right; exact H].
Qed.

(** The minimum of the minima of columns is the minimum of their values. *)
Lemma min_of_minima (cols : sarray) :
  cols <> [] -> (forall col, In col cols -> col <> []) ->
  In (min_of (map min_of cols)) (pooled cols) /\
  forall x, In x (pooled cols) -> min_of (map min_of cols) <= x.
Proof.
  intros Hne Hcols. split.
  - assert (H : In (min_of (map min_of cols)) (map min_of cols)).
    { apply min_of_In. destruct cols; [contradiction Hne; reflexivity | discriminate]. }
    apply in_map_iff in H. destruct H as (col & Hm & Hcol).
    unfold pooled. apply in_concat. exists col. split; [exact Hcol|].
    rewrite <- Hm. apply min_of_In. apply Hcols. exact Hcol.
  - intros x Hx. unfold pooled in Hx. apply in_concat in Hx.
    destruct Hx as (col & Hcol & Hx).
    apply Rle_trans with (min_of col); [|apply min_of_le; exact Hx].
    apply min_of_le. apply in_map. exact Hcol.
Qed.

Lemma max_of_maxima (cols : sarray) :
  cols <> [] -> (forall col, In col cols -> col <> []) ->
  In (max_of (map max_of cols)) (pooled cols) /\
  forall x, In x (pooled cols) -> x <= max_of (map max_of cols).
Proof.
  intros Hne Hcols. split.
  - assert (H : In (max_of (map max_of cols)) (map max_of cols)).
    { apply max_of_In. destruct cols; [contradiction Hne; reflexivity | discriminate]. }
    apply in_map_iff in H. destruct H as (col & Hm & Hcol).
    unfold pooled. apply in_concat. exists col. split; [exact Hcol|].
    rewrite <- Hm. apply max_of_In. apply Hcols. exact Hcol.
  - intros x Hx. unfold pooled in Hx. apply in_concat in Hx.
    destruct Hx as (col & Hcol & Hx).
    apply Rle_trans with (max_of col); [apply max_of_ge; exact Hx|].
    apply max_of_ge. apply in_map. exact Hcol.
Qed.

(** *** [scale_fets] of train.py *)

Lemma scl_grp_fets_of_rows (dat : sarray) (scl_grps : list Z) (n : nat) (j : nat) :
  length scl_grps = length dat -> has_rows n dat -> (0 < n)%nat -> (j < length dat)%nat ->
  let cols := scl_grp_fets scl_grps (nth j scl_grps 0%Z) dat in
  cols <> [] /\ forall col, In col cols -> col <> [].
Proof.
  intros Hlen Hrows Hn Hj cols. split.
  - assert (H : In (nth j dat []) cols).
    { apply in_scl_grp_fets. apply in_combine_nth; assumption. }
    intros E. rewrite E in H. destruct H.
  - intros col Hcol. apply in_scl_grp_fets in Hcol. apply in_combine_r in Hcol.
    unfold has_rows in Hrows. rewrite Forall_forall in Hrows.
    specialize (Hrows col Hcol). destruct col; [simpl in Hrows; lia | discriminate].
Qed.

(** X7. Without [standardize], and for group ids 0 .. k-1 and an array with
    a row at least: [scale_fets] returns, and the two parameters of every
    feature are the smallest and the largest of the values in the columns of
    its scaling group. *)
Theorem X7_range_parameters_are_the_extremes_of_the_group :
  forall (dat : sarray) (scl_grps : list Z) (n : nat),
    length scl_grps = length dat -> dense_groups scl_grps ->
    has_rows n dat -> (0 < n)%nat ->
    exists new scl_prms,
      scale_fets dat scl_grps false = Ok (new, scl_prms) /\
      length scl_prms = length dat /\
      forall j, (j < length dat)%nat ->
        let vals := grp_values dat scl_grps (nth j scl_grps 0%Z) in
        In (fst (nth j scl_prms (0, 0))) vals /\
        In (snd (nth j scl_prms (0, 0))) vals /\
        forall x, In x vals ->
                  fst (nth j scl_prms (0, 0)) <= x <= snd (nth j scl_prms (0, 0)).
Proof.
  intros dat scl_grps n Hlen Hdense Hrows Hn.
  set (P := fun g : Z => (min_of (map min_of (scl_grp_fets scl_grps g dat)),
                           max_of (map max_of (scl_grp_fets scl_grps g dat)))).
  assert (Hrun := scale_fets_closed dat scl_grps false P Hlen Hdense
                    (fun g Hg => grp_prms_range_rows dat scl_grps n g Hlen Hrows Hn Hg)).
  eexists. eexists. split; [exact Hrun|]. split.
  - rewrite length_map, length_combine, Hlen. apply Nat.min_id.
  - intros j Hj vals.
    rewrite (nth_map_combine (fun p => P (fst p)) (0, 0) scl_grps dat j Hlen Hj).
    cbn [fst snd]. unfold P. cbn [fst snd].
    destruct (scl_grp_fets_of_rows dat scl_grps n j Hlen Hrows Hn Hj) as (Hne & Hcols).
    destruct (min_of_minima _ Hne Hcols) as (Hmin_in & Hmin).
    destruct (max_of_maxima _ Hne Hcols) as (Hmax_in & Hmax).
    split; [exact Hmin_in|]. split; [exact Hmax_in|].
    intros x Hx. split; [apply Hmin | apply Hmax]; exact Hx.
Qed.

Lemma X7_witness :
  length [0%Z; 0%Z] = length [[3; 5]; [1; 4]] /\
  dense_groups [0%Z; 0%Z] /\ has_rows 2 [[3; 5]; [1; 4]] /\ (0 < 2)%nat /\
  exists new scl_prms,
    scale_fets [[3; 5]; [1; 4]] [0%Z; 0%Z] false = Ok (new, scl_prms) /\
    length scl_prms = 2%nat /\
    forall x, In x [3; 5; 1; 4] ->
              fst (nth 1 scl_prms (0, 0)) <= x <= snd (nth 1 scl_prms (0, 0)).
Proof.
  assert (H1 : length [0%Z; 0%Z] = length [[3; 5]; [1; 4]]) by reflexivity.
  assert (H2 : dense_groups [0%Z; 0%Z]) by (repeat constructor; simpl; lia).
  assert (H3 : has_rows 2 [[3; 5]; [1; 4]]) by (repeat constructor).
  assert (H4 : (0 < 2)%nat) by lia.
  destruct (X7_range_parameters_are_the_extremes_of_the_group
              [[3; 5]; [1; 4]] [0%Z; 0%Z] 2 H1 H2 H3 H4)
    as (new & scl_prms & Hrun & Hl & Hprm).
  split; [exact H1|]. split; [exact H2|]. split; [exact H3|]. split; [exact H4|].
  exists new, scl_prms. split; [exact Hrun|]. split; [exact Hl|].
  apply (Hprm 1%nat). simpl. lia.
Defined.

Lemma py_index_out_of_range (len : nat) (i : Z) :
  ~ (- Z.of_nat len <= i < Z.of_nat len)%Z -> py_index len i = Raise IndexError.
Proof.
  intros H. unfold py_index.
  destruct ((0 <=? i)%Z && (i <? Z.of_nat len)%Z) eqn:E1.
  { apply andb_true_iff in E1. destruct E1 as [E1 E2].
    apply Z.leb_le in E1. apply Z.ltb_lt in E2. lia. }
  destruct ((- Z.of_nat len <=? i)%Z && (i <? 0)%Z) eqn:E2; [|reflexivity].
  apply andb_true_iff in E2. destruct E2 as [E2 E3].
  apply Z.leb_le in E2. apply Z.ltb_lt in E3. lia.
Qed.

Lemma py_index_cases (len : nat) (i : Z) :
  (exists k, py_index len i = Ok k) \/ py_index len i = Raise IndexError.
Proof.
  unfold py_index.
  destruct ((0 <=? i)%Z && (i <? Z.of_nat len)%Z); [left; eexists; reflexivity|].
  destruct ((- Z.of_nat len <=? i)%Z && (i <? 0)%Z); [left; eexists; reflexivity|].
  right. reflexivity.
Qed.

(** With [standardize] a group id that is no index of [scl_grps_prms] ends
    the first loop. *)
Lemma fill_prms_index_error (dat : sarray) (scl_grps todo : list Z) :
  forall tbl : table,
    (exists g, In g todo /\ ~ (- Z.of_nat (length tbl) <= g < Z.of_nat (length tbl))%Z) ->
    fill_prms true dat scl_grps todo tbl = Raise IndexError.
Proof.
  induction todo as [|g0 todo IH]; intros tbl (g & Hg & Hout); [destruct Hg|].
  simpl. destruct (py_index_cases (length tbl) g0) as [(k & Hk)|Hk]; rewrite Hk; simpl;
    [|reflexivity].
  destruct Hg as [->|Hg].
  - rewrite (py_index_out_of_range _ _ Hout) in Hk. discriminate.
  - apply IH. exists g. split; [exact Hg|]. rewrite length_set_nth. exact Hout.
Qed.

(** X8. With [standardize], [k] distinct scaling groups and one group id per
    feature: a group id outside [-k, k) makes [scale_fets] raise
    [IndexError] at [scl_grps_prms[scl_grp] = ...], so that the ids of the
    groups have to be indices of the table of the distinct groups. *)
Theorem X8_group_id_outside_the_table_is_an_index_error :
  forall (dat : sarray) (scl_grps : list Z) (g : Z),
    length scl_grps = length dat ->
    In g scl_grps ->
    ~ (- Z.of_nat (length (scl_grps_unique scl_grps)) <= g
       < Z.of_nat (length (scl_grps_unique scl_grps)))%Z ->
    scale_fets dat scl_grps true = Raise IndexError.
Proof.
  intros dat scl_grps g Hlen Hg Hout. unfold scale_fets, assert.
  rewrite Hlen, Nat.eqb_refl. simpl.
  rewrite fill_prms_index_error; [reflexivity|].
  exists g. split.
  - unfold scl_grps_unique. apply nodup_In. exact Hg.
  - rewrite repeat_length. exact Hout.
Qed.

Lemma X8_witness :
  length [0%Z; 2%Z] = length [[1; 2]; [3; 4]] /\
  In 2%Z [0%Z; 2%Z] /\
  ~ (- Z.of_nat (length (scl_grps_unique [0%Z; 2%Z])) <= 2
     < Z.of_nat (length (scl_grps_unique [0%Z; 2%Z])))%Z /\
  scale_fets [[1; 2]; [3; 4]] [0%Z; 2%Z] true = Raise IndexError.
Proof.
  assert (H1 : length [0%Z; 2%Z] = length [[1; 2]; [3; 4]]) by reflexivity.
  assert (H2 : In 2%Z [0%Z; 2%Z]) by (right; left; reflexivity).
  assert (H3 : ~ (- Z.of_nat (length (scl_grps_unique [0%Z; 2%Z])) <= 2
                  < Z.of_nat (length (scl_grps_unique [0%Z; 2%Z])))%Z)
    by (simpl; lia).
  split; [exact H1|]. split; [exact H2|]. split; [exact H3|].
  exact (X8_group_id_outside_the_table_is_an_index_error _ _ _ H1 H2 H3).
Defined.

(** *** [scale_fets] of train_lstm.py *)

Import LstmScaling.

Open Scope R_scope.

Lemma field_nth (dat : sarray) (j : nat) :
  (j < length dat)%nat -> field dat j = Ok (nth j dat []).
Proof.
  intros Hj. unfold field.
  destruct (nth_error dat j) as [col|] eqn:E.
  - rewrite (nth_error_nth _ _ _ E). reflexivity.
  - apply nth_error_None in E. lia.
Qed.

Lemma same_fields_col (k : nat) (dat_all : list sarray) (dat : sarray) (j : nat) :
  same_fields k dat_all -> In dat dat_all -> (j < k)%nat ->
  (j < length dat)%nat /\ nth j dat [] <> [].
Proof.
  intros Hs Hd Hj. unfold same_fields in Hs. rewrite Forall_forall in Hs.
  destruct (Hs dat Hd) as (Hk & Hcols). split; [lia|].
  rewrite Forall_forall in Hcols. apply Hcols. apply nth_In. lia.
Qed.

(** The parameters after the simulations of [rest]: they were the parameters
    before, or are values of the feature in [rest], and they bound the
    parameters before and every value of the feature in [rest]. *)
Lemma widen_all_spec (k j : nat) (rest : list sarray) :
  same_fields k rest -> (j < k)%nat ->
  forall lo hi,
  exists lo' hi',
    widen_all j (lo, hi) rest = Ok (lo', hi') /\
    (lo' = lo \/ In lo' (fet_values_all rest j)) /\
    (hi' = hi \/ In hi' (fet_values_all rest j)) /\
    lo' <= lo /\ hi <= hi' /\
    forall x, In x (fet_values_all rest j) -> lo' <= x <= hi'.
Proof.
  intros Hs Hj. induction rest as [|dat rest IH]; intros lo hi.
  - exists lo, hi. simpl. repeat split; auto; try lra; intros x [].
  - destruct (same_fields_col k (dat :: rest) dat j Hs (or_introl eq_refl) Hj)
      as (Hjd & Hne).
    assert (Hs' : same_fields k rest) by exact (Forall_inv_tail Hs).
    simpl. unfold widen. rewrite (field_nth dat j Hjd). simpl.
    rewrite (np_min_min_of _ Hne), (np_max_max_of _ Hne). simpl.
    destruct (IH Hs' (Rmin lo (min_of (nth j dat []))) (Rmax hi (max_of (nth j dat []))))
      as (lo' & hi' & Hrun & Hlo & Hhi & Hle & Hge & Hall).
    exists lo', hi'. split; [exact Hrun|].
    pose proof (Rmin_l lo (min_of (nth j dat []))) as L1.
    pose proof (Rmin_r lo (min_of (nth j dat []))) as L2.
    pose proof (Rmax_l hi (max_of (nth j dat []))) as M1.
    pose proof (Rmax_r hi (max_of (nth j dat []))) as M2.
    unfold fet_values_all. cbn [map concat]. fold (fet_values_all rest j).
    split; [|split; [|split; [lra|split; [lra|]]]].
    + destruct Hlo as [->|Hlo]; [|right; apply in_or_app; right; exact Hlo].
      unfold Rmin. destruct (Rle_dec lo (min_of (nth j dat []))); [left; reflexivity|].
      right. apply in_or_app. left. apply min_of_In. exact Hne.
    + destruct Hhi as [->|Hhi]; [|right; apply in_or_app; right; exact Hhi].
      unfold Rmax. destruct (Rle_dec hi (max_of (nth j dat []))); [|left; reflexivity].
      right. apply in_or_app. left. apply max_of_In. exact Hne.
    + intros x Hx. apply in_app_or in Hx. destruct Hx as [Hx|Hx]; [|apply Hall; exact Hx].
      pose proof (min_of_le _ _ Hx). pose proof (max_of_ge _ _ Hx).
      unfold column in *. lra.
Qed.

Lemma global_prms_spec (k j : nat) (first : sarray) (rest : list sarray) :
  same_fields k (first :: rest) -> (j < k)%nat ->
  exists lo hi,
    global_prms first rest j = Ok (lo, hi) /\
    In lo (fet_values_all (first :: rest) j) /\
    In hi (fet_values_all (first :: rest) j) /\
    forall x, In x (fet_values_all (first :: rest) j) -> lo <= x <= hi.
Proof.
  intros Hs Hj.
  destruct (same_fields_col k (first :: rest) first j Hs (or_introl eq_refl) Hj)
    as (Hjd & Hne).
  unfold global_prms. rewrite (field_nth first j Hjd). simpl.
  rewrite (np_min_min_of _ Hne), (np_max_max_of _ Hne). simpl.
  destruct (widen_all_spec k j rest (Forall_inv_tail Hs) Hj
              (min_of (nth j first [])) (max_of (nth j first [])))
    as (lo & hi & Hrun & Hlo & Hhi & Hle & Hge & Hall).
  exists lo, hi. split; [exact Hrun|].
  unfold fet_values_all. cbn [map concat]. fold (fet_values_all rest j).
  split; [|split].
  - apply in_or_app. destruct Hlo as [->|Hlo]; [left; apply min_of_In; exact Hne|].
    right. exact Hlo.
  - apply in_or_app. destruct Hhi as [->|Hhi]; [left; apply max_of_In; exact Hne|].
    right. exact Hhi.
  - intros x Hx. apply in_app_or in Hx. destruct Hx as [Hx|Hx]; [|apply Hall; exact Hx].
    pose proof (min_of_le _ _ Hx). pose proof (max_of_ge _ _ Hx).
    unfold column in *. lra.
Qed.

Lemma normalize_closed (scl_prms : list (R * R)) (dat : sarray) :
  length dat = length scl_prms ->
  normalize scl_prms dat
  = Ok (map (fun p : nat * (R * R) => rescaled false (snd p) (nth (fst p) dat []))
          (combine (seq 0 (length scl_prms)) scl_prms)).
Proof.
  intros Hlen. unfold normalize. apply mapM_Ok_map.
  intros [j [min_in max_in]] Hin.
  assert (Hj : (j < length dat)%nat).
  { apply in_combine_l in Hin. apply in_seq in Hin. lia. }
  rewrite (field_nth dat j Hj). cbn [bind fst snd].
  exact (scale_col_closed false min_in max_in (nth j dat [])).
Qed.

Lemma mapM_exists {A B : Type} (f : A -> res B) (P : A -> B -> Prop) (l : list A) :
  (forall a, In a l -> exists b, f a = Ok b /\ P a b) ->
  exists l', mapM f l = Ok l' /\ Forall2 P l l'.
Proof.
  induction l as [|a l IH]; intros H.
  - exists []. split; [reflexivity | constructor].
  - destruct (H a (or_introl eq_refl)) as (b & Hb & Pb).
    destruct IH as (l' & Hl' & Pl'); [intros; apply H; right; assumption|].
    exists (b :: l'). simpl. rewrite Hb. simpl. rewrite Hl'. simpl.
    split; [reflexivity | constructor; assumption].
Qed.

Lemma Forall2_seq_nth {B : Type} (P : nat -> B -> Prop) (d : B) (k : nat) :
  forall (a : nat) (l : list B),
    Forall2 P (seq a k) l ->
    length l = k /\ forall j, (j < k)%nat -> P (a + j)%nat (nth j l d).
Proof.
  induction k as [|k IH]; intros a l H; simpl in H.
  - inversion H; subst. split; [reflexivity | intros j Hj; lia].
  - inversion H as [|? b ? l' Hb Hl']; subst.
    destruct (IH (S a) l' Hl') as (Hlen & Hnth).
    split; [simpl; rewrite Hlen; reflexivity|].
    intros [|j] Hj; simpl.
    + rewrite Nat.add_0_r. exact Hb.
    + replace (a + S j)%nat with (S a + j)%nat by lia. apply Hnth. lia.
Qed.

Lemma normalized_shape (scl_prms : list (R * R)) (dat : sarray) :
  length dat = length scl_prms ->
  Forall2 (fun (col new_col : column) => length new_col = length col) dat
    (map (fun p : nat * (R * R) => rescaled false (snd p) (nth (fst p) dat []))
       (combine (seq 0 (length scl_prms)) scl_prms)).
Proof.
  intros Hlen.
  assert (H : forall (pre : sarray) (dat' : sarray) (prms : list (R * R)),
             length dat' = length prms ->
             Forall2 (fun (col new_col : column) => length new_col = length col) dat'
               (map (fun p : nat * (R * R) =>
                       rescaled false (snd p) (nth (fst p) (pre ++ dat') []))
                  (combine (seq (length pre) (length prms)) prms))).
  { intros pre dat'. revert pre.
    induction dat' as [|col dat' IH]; intros pre prms Hl; destruct prms as [|prm prms];
      try discriminate; [constructor|].
    cbn [length seq combine map fst snd]. constructor.
    - rewrite length_rescaled. rewrite app_nth2 by lia. rewrite Nat.sub_diag. reflexivity.
    - specialize (IH (pre ++ [col]) prms).
      rewrite <- app_assoc, length_app in IH. cbn [length app] in IH.
      rewrite Nat.add_1_r in IH. apply IH. simpl in Hl. lia. }
  exact (H [] dat scl_prms Hlen).
Qed.

(** X9. [scale_fets] of train_lstm.py on simulations of one dtype of [k]
    fields with a row at least each: it returns, with a pair of parameters
    per field and a normalised array of the shape of its input per
    simulation; the parameters of a feature are the smallest and the largest
    of its values over all simulations.  On no simulation the assertion of
    line 119 fails. *)
Theorem X9_lstm_parameters_span_all_simulations :
  forall (k : nat) (first : sarray) (rest : list sarray),
    same_fields k (first :: rest) ->
    LstmScaling.scale_fets [] = Raise AssertionError /\
    exists nrm scl_prms,
      LstmScaling.scale_fets (first :: rest) = Ok (nrm, scl_prms) /\
      length scl_prms = k /\
      Forall2 (fun dat new : sarray =>
                 Forall2 (fun (col new_col : column) => length new_col = length col)
                   dat new)
        (first :: rest) nrm /\
      forall j, (j < k)%nat ->
        In (fst (nth j scl_prms (0, 0))) (fet_values_all (first :: rest) j) /\
        In (snd (nth j scl_prms (0, 0))) (fet_values_all (first :: rest) j) /\
        forall x, In x (fet_values_all (first :: rest) j) ->
                  fst (nth j scl_prms (0, 0)) <= x <= snd (nth j scl_prms (0, 0)).
Proof.
  intros k first rest Hs. split; [reflexivity|].
  assert (Hk : length first = k) by exact (proj1 (Forall_inv Hs)).
  destruct (mapM_exists (global_prms first rest)
              (fun j prm =>
                 In (fst prm) (fet_values_all (first :: rest) j) /\
                 In (snd prm) (fet_values_all (first :: rest) j) /\
                 forall x, In x (fet_values_all (first :: rest) j) ->
                           fst prm <= x <= snd prm)
              (seq 0 k)) as (scl_prms & Hprms & Hall).
  { intros j Hj. apply in_seq in Hj.
    destruct (global_prms_spec k j first rest Hs) as (lo & hi & Hrun & H); [lia|].
    exists (lo, hi). split; [exact Hrun | exact H]. }
  destruct (Forall2_seq_nth _ (0, 0) k 0%nat scl_prms Hall) as (Hlen & Hnth).
  assert (Hnrm : mapM (normalize scl_prms) (first :: rest)
                 = Ok (map (fun dat : sarray =>
                              map (fun p : nat * (R * R) =>
                                     rescaled false (snd p) (nth (fst p) dat []))
                                (combine (seq 0 (length scl_prms)) scl_prms))
                         (first :: rest))).
  { apply mapM_Ok_map. intros dat Hdat. apply normalize_closed.
    unfold same_fields in Hs. rewrite Forall_forall in Hs.
    rewrite (proj1 (Hs dat Hdat)), Hlen. reflexivity. }
  eexists. exists scl_prms. split; [|split; [exact Hlen|split]].
  - unfold LstmScaling.scale_fets. rewrite Hk, Hprms. cbn [bind].
    rewrite Hnrm. reflexivity.
  - unfold same_fields in Hs. clear - Hs Hlen.
    induction Hs as [|dat dat_all Hdat Hs IH]; simpl; constructor; [|exact IH].
    apply normalized_shape. rewrite (proj1 Hdat), Hlen. reflexivity.
  - intros j Hj. apply (Hnth j Hj).
Qed.

(** Two simulations of one feature: the values 4 and 2, and the value 7. *)
Lemma X9_witness :
  same_fields 1 [[[4; 2]]; [[7]]] /\
  exists nrm scl_prms,
    LstmScaling.scale_fets [[[4; 2]]; [[7]]] = Ok (nrm, scl_prms) /\
    length scl_prms = 1%nat /\
    forall x, In x [4; 2; 7] ->
              fst (nth 0 scl_prms (0, 0)) <= x <= snd (nth 0 scl_prms (0, 0)).
Proof.
  assert (H : same_fields 1 [[[4; 2]]; [[7]]]).
  { repeat constructor; discriminate. }
  destruct (X9_lstm_parameters_span_all_simulations 1 [[4; 2]] [[[7]]] H)
    as (_ & nrm & scl_prms & Hrun & Hlen & _ & Hprm).
  split; [exact H|]. exists nrm, scl_prms. split; [exact Hrun|]. split; [exact Hlen|].
  apply (Hprm 0%nat). lia.
Defined.

(** *** The two [scale_fets] on one simulation *)

(** Every feature in a scaling group of its own: the groups 0, 1, ... *)
Lemma in_combine_own_groups (dat : sarray) :
  forall (a : nat) (g : Z) (col : column),
    In (g, col) (combine (map Z.of_nat (seq a (length dat))) dat) ->
    exists i, (i < length dat)%nat /\ g = Z.of_nat (a + i) /\ nth i dat [] = col.
Proof.
  induction dat as [|c dat IH]; intros a g col H; simpl in H; [destruct H|].
  destruct H as [H|H].
  - injection H as <- <-. exists 0%nat. simpl. repeat split; [lia | f_equal; lia].
  - destruct (IH (S a) g col H) as (i & Hi & Hg & Hc).
    exists (S i). simpl. repeat split; [lia | rewrite Hg; f_equal; lia | exact Hc].
Qed.

Lemma NoDup_own_groups (k : nat) : forall a, NoDup (map Z.of_nat (seq a k)).
Proof.
  induction k as [|k IH]; intros a; simpl; constructor; [|apply IH].
  intros H. apply in_map_iff in H. destruct H as (x & Hx & Hin).
  apply in_seq in Hin. lia.
Qed.

Lemma dense_own_groups (k : nat) : dense_groups (map Z.of_nat (seq 0 k)).
Proof.
  unfold dense_groups, scl_grps_unique.
  rewrite (nodup_fixed_point Z.eq_dec (NoDup_own_groups k 0)).
  rewrite length_map, length_seq. apply Forall_forall. intros g Hg.
  apply in_map_iff in Hg. destruct Hg as (j & <- & Hj). apply in_seq in Hj. lia.
Qed.

Lemma map_on_combine {A B C : Type} (F : A * B -> C) (G : B -> C) (l : list A) :
  forall l' : list B,
    length l = length l' ->
    (forall p, In p (combine l l') -> F p = G (snd p)) ->
    map F (combine l l') = map G l'.
Proof.
  induction l as [|a l IH]; intros [|b l'] Hlen H; try discriminate; [reflexivity|].
  simpl. rewrite (H (a, b) (or_introl eq_refl)). f_equal.
  apply IH; [simpl in Hlen; lia|]. intros p Hp. apply H. right. exact Hp.
Qed.

Lemma map_nth_seq {B C : Type} (G : B -> C) (d : B) (l : list B) :
  map (fun j => G (nth j l d)) (seq 0 (length l)) = map G l.
Proof.
  induction l as [|x l IH]; [reflexivity|].
  cbn [length seq map nth]. f_equal.
  rewrite <- seq_shift, map_map. exact IH.
Qed.

Lemma normalized_own (G : column -> R * R) (dat : sarray) :
  map (fun p : nat * (R * R) => rescaled false (snd p) (nth (fst p) dat []))
    (combine (seq 0 (length (map G dat))) (map G dat))
  = map (fun col => rescaled false (G col) col) dat.
Proof.
  assert (H : forall (dat' pre : sarray),
             map (fun p : nat * (R * R) =>
                    rescaled false (snd p) (nth (fst p) (pre ++ dat') []))
               (combine (seq (length pre) (length dat')) (map G dat'))
             = map (fun col => rescaled false (G col) col) dat').
  { induction dat' as [|col dat' IH]; intros pre; [reflexivity|].
    cbn [length seq combine map fst snd]. f_equal.
    - rewrite app_nth2 by lia. rewrite Nat.sub_diag. reflexivity.
    - specialize (IH (pre ++ [col])).
      rewrite <- app_assoc, length_app in IH. cbn [length app] in IH.
      rewrite Nat.add_1_r in IH. exact IH. }
  rewrite length_map. exact (H dat []).
Qed.

(** X10. On one simulation with a row at least, [scale_fets] of train_lstm.py
    and [scale_fets] of train.py without [standardize], every feature in a
    scaling group of its own (the groups 0, 1, ...), return the same scaled
    array and the same parameters. *)
Theorem X10_the_two_scale_fets_agree_on_one_simulation :
  forall (dat : sarray) (n : nat),
    has_rows n dat -> (0 < n)%nat ->
    exists new scl_prms,
      Scaling.scale_fets dat (map Z.of_nat (seq 0 (length dat))) false
      = Ok (new, scl_prms) /\
      LstmScaling.scale_fets [dat] = Ok ([new], scl_prms).
Proof.
  intros dat n Hrows Hn.
  set (G := fun col : column => (min_of col, max_of col)).
  set (scl_grps := map Z.of_nat (seq 0 (length dat))).
  assert (Hlen : length scl_grps = length dat).
  { unfold scl_grps. rewrite length_map, length_seq. reflexivity. }
  assert (Hne : forall col, In col dat -> col <> []).
  { intros col Hcol. unfold has_rows in Hrows. rewrite Forall_forall in Hrows.
    specialize (Hrows col Hcol). destruct col; [simpl in Hrows; lia | discriminate]. }
  exists (map (fun col => rescaled false (G col) col) dat), (map G dat). split.
  - set (P := fun g : Z => G (nth (Z.to_nat g) dat [])).
    rewrite (scale_fets_closed dat scl_grps false P Hlen (dense_own_groups _)).
    + f_equal. f_equal.
      * apply map_on_combine; [exact Hlen|]. intros [g col] Hp.
        destruct (in_combine_own_groups dat 0 g col Hp) as (i & Hi & -> & <-).
        unfold P. simpl. rewrite Nat2Z.id. reflexivity.
      * apply map_on_combine; [exact Hlen|]. intros [g col] Hp.
        destruct (in_combine_own_groups dat 0 g col Hp) as (i & Hi & -> & <-).
        unfold P. simpl. rewrite Nat2Z.id. reflexivity.
    + intros g Hg.
      rewrite (grp_prms_range_rows dat scl_grps n g Hlen Hrows Hn Hg).
      assert (Hj : exists j, (j < length dat)%nat /\ g = Z.of_nat j).
      { unfold scl_grps in Hg. apply in_map_iff in Hg. destruct Hg as (j & <- & Hj).
        apply in_seq in Hj. exists j. split; [lia | reflexivity]. }
      destruct Hj as (j & Hj & ->).
      assert (Hg' : nth j scl_grps 0%Z = Z.of_nat j).
      { unfold scl_grps. rewrite (nth_indep _ 0%Z (Z.of_nat 0))
          by (rewrite length_map, length_seq; exact Hj).
        rewrite map_nth, seq_nth by exact Hj. reflexivity. }
      destruct (scl_grp_fets_of_rows dat scl_grps n j Hlen Hrows Hn Hj) as (Hcols & _).
      rewrite Hg' in Hcols.
      assert (Hall : forall col, In col (scl_grp_fets scl_grps (Z.of_nat j) dat) ->
                                 col = nth j dat []).
      { intros col Hcol. apply in_scl_grp_fets in Hcol.
        destruct (in_combine_own_groups dat 0 _ col Hcol) as (i & Hi & Hij & <-).
        f_equal. lia. }
      unfold P, G. rewrite Nat2Z.id. f_equal. f_equal.
      * apply min_of_const.
        -- destruct (scl_grp_fets scl_grps (Z.of_nat j) dat);
             [contradiction Hcols; reflexivity | discriminate].
        -- intros x Hx. apply in_map_iff in Hx. destruct Hx as (col & <- & Hcol).
           rewrite (Hall col Hcol). reflexivity.
      * apply max_of_const.
        -- destruct (scl_grp_fets scl_grps (Z.of_nat j) dat);
             [contradiction Hcols; reflexivity | discriminate].
        -- intros x Hx. apply in_map_iff in Hx. destruct Hx as (col & <- & Hcol).
           rewrite (Hall col Hcol). reflexivity.
  - unfold LstmScaling.scale_fets.
    assert (Hprms : mapM (global_prms dat []) (seq 0 (length dat)) = Ok (map G dat)).
    { rewrite <- (map_nth_seq G [] dat). apply mapM_Ok_map. intros j Hj.
      apply in_seq in Hj. unfold global_prms.
      rewrite (field_nth dat j) by lia. cbn [bind].
      assert (Hc : nth j dat [] <> []) by (apply Hne; apply nth_In; lia).
      rewrite (np_min_min_of _ Hc), (np_max_max_of _ Hc). reflexivity. }
    rewrite Hprms. cbn [bind mapM].
    rewrite normalize_closed by (rewrite length_map; reflexivity).
    cbn [bind]. rewrite normalized_own. reflexivity.
Qed.

Lemma X10_witness :
  has_rows 2 [[3; 5]; [1; 4]] /\ (0 < 2)%nat /\
  exists new scl_prms,
    Scaling.scale_fets [[3; 5]; [1; 4]] [0%Z; 1%Z] false = Ok (new, scl_prms) /\
    LstmScaling.scale_fets [[[3; 5]; [1; 4]]] = Ok ([new], scl_prms).
Proof.
  assert (H1 : has_rows 2 [[3; 5]; [1; 4]]) by (repeat constructor).
  assert (H2 : (0 < 2)%nat) by lia.
  split; [exact H1|]. split; [exact H2|].
  exact (X10_the_two_scale_fets_agree_on_one_simulation [[3; 5]; [1; 4]] 2 H1 H2).
Defined.

End RangeFacts.

(* ===================================================================== *)
(** ** The LSTM trainer: [test] and [run_many] *)
(* ===================================================================== *)

Module LstmTestFacts.

Import LstmTest.
Import Trials.
Import LstmLabelsFacts.

Section TestFacts.

Variable predict : batch -> list Z.

Lemma num_equal_bounds (b : batch) :
  (0 <= num_equal predict b <= Z.of_nat (length (combine (predict b) (labs b))))%Z.
Proof.
  unfold num_equal. induction (combine (predict b) (labs b)) as [|p l IH];
    [simpl; lia|].
  cbn [map fold_left length]. rewrite fold_add_shift.
  destruct (fst p =? snd p)%Z; lia.
Qed.

Lemma count_bounds (ldr_tst : list batch) :
  Forall (well_formed predict) ldr_tst ->
  forall c t : Z,
    (0 <= c <= t)%Z ->
    let r := fold_left
               (fun (acc : Z * Z) (b : batch) =>
                  ((fst acc + num_equal predict b)%Z,
                   (snd acc + Z.of_nat (bch_tst b * seq_len b))%Z))
               ldr_tst (c, t) in
    (0 <= fst r <= snd r)%Z /\
    snd r = (t + samples ldr_tst)%Z.
Proof.
  intros Hwf. induction Hwf as [|b ldr_tst Hb Hwf IH]; intros c t Hct; simpl.
  - unfold samples. simpl. lia.
  - destruct Hb as (Hl & Hp). pose proof (num_equal_bounds b) as Hn.
    rewrite length_combine, Hp, Nat.min_id, Hl in Hn.
    destruct (IH (c + num_equal predict b)%Z (t + Z.of_nat (bch_tst b * seq_len b))%Z)
      as (H1 & H2); [lia|].
    split; [exact H1|]. rewrite H2. unfold samples. cbn [map fold_left].
    rewrite (fold_add_shift _ (0 + _)%Z). lia.
Qed.

End TestFacts.



Section NoRetry.

Variable A : Type.
Variable outs : Z -> A.
Variable failed : A -> bool.
Variable apts_max : Z.

(** When no attempt fails, every attempt is kept: the loop makes as many
    attempts as trials are wanted, or as attempts are left. *)
Lemma attempts_none_failed (fuel : nat) :
  forall s : loop A,
    (Z.to_nat (apts_max - apts s) <= fuel)%nat ->
    (forall k, (apts s < k <= apts_max)%Z -> failed (outs k) = false) ->
    exists s',
      attempts (fun k => Ok (outs k)) failed fuel apts_max s = Ok (Some s') /\
      calls s'
      = calls s ++ attempt_numbers (apts s)
                     (Z.to_nat (Z.min (trls s) (apts_max - apts s))) /\
      ress s'
      = ress s ++ map outs (attempt_numbers (apts s)
                              (Z.to_nat (Z.min (trls s) (apts_max - apts s)))).
Proof.
  induction fuel as [|fuel IH]; intros s Hfuel Hall.
  - exists s. simpl.
    replace ((apts s <? apts_max)%Z) with false by (symmetry; apply Z.ltb_ge; lia).
    rewrite andb_false_r.
    replace (Z.to_nat (Z.min (trls s) (apts_max - apts s))) with 0%nat by lia.
    simpl. rewrite !app_nil_r. repeat split; reflexivity.
  - simpl. destruct ((0 <? trls s)%Z && (apts s <? apts_max)%Z) eqn:Eg.
    + apply andb_true_iff in Eg. destruct Eg as [Et Ea].
      apply Z.ltb_lt in Et. apply Z.ltb_lt in Ea.
      rewrite (Hall (apts s + 1)%Z) by lia. simpl.
      destruct (IH {| trls := (trls s - 1)%Z; apts := (apts s + 1)%Z;
                      ress := ress s ++ [outs (apts s + 1)%Z];
                      calls := calls s ++ [(apts s + 1)%Z] |})
        as (s' & Hs' & Hc & Hr).
      { simpl. lia. }
      { simpl. intros k Hk. apply Hall. lia. }
      exists s'. split; [exact Hs'|]. simpl in Hc, Hr.
      replace (Z.to_nat (Z.min (trls s) (apts_max - apts s)))
        with (S (Z.to_nat (Z.min (trls s - 1) (apts_max - (apts s + 1))))) by lia.
      simpl. rewrite Hc, Hr, <- !app_assoc. split; reflexivity.
    + exists s. split; [reflexivity|].
      replace (Z.to_nat (Z.min (trls s) (apts_max - apts s))) with 0%nat.
      * simpl. rewrite !app_nil_r. split; reflexivity.
      * apply andb_false_iff in Eg. destruct Eg as [Eg|Eg]; apply Z.ltb_ge in Eg; lia.
Qed.

End NoRetry.

Lemma fold_max_acc (l : list Q) :
  forall best,
    let b := fold_left (fun best x => if Qlt_le_dec best x then x else best) l best in
    (b = best \/ In b l) /\ (best <= b)%Q /\ (forall x, In x l -> (x <= b)%Q).
Proof.
  induction l as [|x l IH]; intros best; simpl.
  - split; [left; reflexivity|]. split; [apply Qle_refl|]. intros x [].
  - destruct (Qlt_le_dec best x) as [Hlt|Hle].
    + destruct (IH x) as (Hin & Hx & Hall). simpl in *.
      split; [right; destruct Hin as [->|Hin]; [left; reflexivity | right; exact Hin]|].
      split; [apply Qle_trans with x; [apply Qlt_le_weak; exact Hlt | exact Hx]|].
      intros y [<-|Hy]; [exact Hx | apply Hall; exact Hy].
    + destruct (IH best) as (Hin & Hb & Hall). simpl in *.
      split; [destruct Hin as [->|Hin]; [left; reflexivity | right; right; exact Hin]|].
      split; [exact Hb|].
      intros y [<-|Hy]; [apply Qle_trans with best; assumption | apply Hall; exact Hy].
Qed.

(** X12. With accuracies as [test] returns them, from 0 to 1, no trial of
    [run_many] is taken for a failed one: the loop invokes the trial function
    for the attempts 1 to min(conf_trials, max_attempts) (for none when that
    is not positive), keeps every result, and [max_attempts] is reached only
    when fewer attempts than trials are allowed. *)
Theorem X12_run_many_never_retries_on_fractions :
  forall (outs : Z -> Q) (conf_trials max_attempts : Z),
    (forall k, (1 <= k <= max_attempts)%Z -> (0 <= outs k <= 1)%Q) ->
    exists s,
      attempt_loop (fun k => Ok (outs k)) (fun r => Qeq_bool r 100)
        conf_trials max_attempts = Ok (Some s) /\
      calls s = attempt_numbers 0 (Z.to_nat (Z.min conf_trials max_attempts)) /\
      ress s = map outs (calls s) /\
      (ress s = [] -> run_many (fun k => Ok (outs k)) conf_trials max_attempts
                      = Ok (Some Inf)) /\
      (ress s <> [] ->
       exists max_acc,
         run_many (fun k => Ok (outs k)) conf_trials max_attempts
         = Ok (Some (Num (1 - max_acc))) /\
         In max_acc (ress s) /\ forall r, In r (ress s) -> (r <= max_acc)%Q).
Proof.
  intros outs conf_trials max_attempts H01.
  destruct (attempts_none_failed Q outs (fun r => Qeq_bool r 100) max_attempts
              (Z.to_nat max_attempts)
              {| trls := conf_trials; apts := 0; ress := []; calls := [] |})
    as (s & Hs & Hc & Hr).
  { simpl. lia. }
  { simpl. intros k Hk. destruct (Qeq_bool (outs k) 100) eqn:E; [|reflexivity].
    apply Qeq_bool_iff in E. destruct (H01 k) as (_ & H1); [lia|].
    rewrite E in H1. exfalso. apply (Qle_not_lt _ _ H1). reflexivity. }
  simpl in Hc, Hr. rewrite Z.sub_0_r in Hc, Hr.
  exists s. split; [exact Hs|]. split; [exact Hc|]. split; [rewrite Hc; exact Hr|].
  unfold run_many, attempt_loop. rewrite Hs. cbn [bind]. split.
  - intros He. rewrite He. reflexivity.
  - intros Hne. destruct (ress s) as [|r l]; [contradiction Hne; reflexivity|].
    destruct (fold_max_acc l r) as (Hin & Hle & Hall).
    eexists. split; [reflexivity|]. split.
    + destruct Hin as [->|Hin]; [left; reflexivity | right; exact Hin].
    + intros x [<-|Hx]; [exact Hle | apply Hall; exact Hx].
Qed.

Lemma X12_witness :
  (forall k, (1 <= k <= 5)%Z -> (0 <= demo_accs k <= 1)%Q) /\
  (exists s,
     attempt_loop (fun k => Ok (demo_accs k)) (fun r => Qeq_bool r 100) 2 5
     = Ok (Some s) /\
     calls s = [1; 2]%Z /\ ress s = map demo_accs (calls s)) /\
  run_many (fun k => Ok (demo_accs k)) 2 5 = Ok (Some (Num (1 - (3 # 4)))).
Proof.
  assert (H : forall k, (1 <= k <= 5)%Z -> (0 <= demo_accs k <= 1)%Q).
  { intros k _. unfold demo_accs. destruct (k =? 2)%Z; split; discriminate. }
  destruct (X12_run_many_never_retries_on_fractions demo_accs 2 5 H)
    as (s & Hs & Hc & Hr & _).
  split; [exact H|]. split; [|reflexivity].
  exists s. split; [exact Hs|]. split; [exact Hc | exact Hr].
Defined.

End LstmTestFacts.

(* ===================================================================== *)
(** ** The arguments of a run *)
(* ===================================================================== *)

Module ArgsFacts.

Import Args.

Lemma lookup_setitem (k k' : String.string) (v : value) (d : dict) :
  lookup k (setitem k' v d) = if String.eqb k k' then Some v else lookup k d.
Proof.
  induction d as [|[k0 v0] d IH]; simpl.
  - destruct (String.eqb k k'); reflexivity.
  - destruct (String.eqb_spec k' k0) as [->|Hne]; simpl.
    + destruct (String.eqb k k0); reflexivity.
    + rewrite IH. destruct (String.eqb_spec k k0) as [->|Hne'].
      * destruct (String.eqb_spec k0 k') as [E|_]; [|reflexivity].
        contradiction Hne. symmetry. exact E.
      * reflexivity.
Qed.

Lemma lookup_not_key (k : String.string) (d : dict) :
  ~ In k (map fst d) -> lookup k d = None.
Proof.
  induction d as [|[k0 v0] d IH]; intros H; simpl; [reflexivity|].
  destruct (String.eqb_spec k k0) as [->|Hne].
  - contradiction H. left. reflexivity.
  - apply IH. intros Hin. apply H. right. exact Hin.
Qed.

(** A key of [other] has the value of [other] after the update, any other
    key the value it had. *)
Lemma lookup_update (k : String.string) (other : dict) :
  well_keyed other ->
  forall d,
    lookup k (update d other)
    = match lookup k other with Some v => Some v | None => lookup k d end.
Proof.
  unfold update. induction other as [|[k0 v0] other IH]; intros Hw d; [reflexivity|].
  inversion Hw as [|? ? Hk0 Hw']; subst.
  cbn [fold_left fst snd]. rewrite (IH Hw'). rewrite lookup_setitem. simpl.
  destruct (String.eqb_spec k k0) as [->|Hne].
  - rewrite (lookup_not_key _ _ Hk0). reflexivity.
  - reflexivity.
Qed.

(** X13. [prepare_args] returns a dict in which every key of [args_] has the
    value of [args_] and every other key the value of [DEFAULTS], so that it
    has every key of [DEFAULTS]; [DEFAULTS] itself is as before, and a later
    call starts from the same defaults. *)
Theorem X13_prepare_args_overrides_a_copy_of_the_defaults :
  forall (DEFAULTS args_ : dict),
    well_keyed args_ ->
    snd (prepare_args DEFAULTS args_) = DEFAULTS /\
    (forall k, lookup k (fst (prepare_args DEFAULTS args_))
               = match lookup k args_ with
                 | Some v => Some v
                 | None => lookup k DEFAULTS
                 end) /\
    (forall k v, lookup k DEFAULTS = Some v ->
                 lookup k (fst (prepare_args DEFAULTS args_)) <> None).
Proof.
  intros D a Hw. unfold prepare_args. cbn [fst snd].
  split; [reflexivity|]. split.
  - intros k. apply lookup_update. exact Hw.
  - intros k v Hk. rewrite (lookup_update k a Hw D), Hk.
    destruct (lookup k a); discriminate.
Qed.

Lemma X13_witness :
  well_keyed [("epochs", VInt 5)]%string /\
  lookup "epochs" (fst (prepare_args DEFAULTS [("epochs", VInt 5)]%string)) = Some (VInt 5) /\
  lookup "momentum" (fst (prepare_args DEFAULTS [("epochs", VInt 5)]%string))
  = Some (VFloat 0.9) /\
  snd (prepare_args DEFAULTS [("epochs", VInt 5)]%string) = DEFAULTS.
Proof.
  assert (H : well_keyed [("epochs", VInt 5)]%string).
  { repeat constructor. intros []. }
  destruct (X13_prepare_args_overrides_a_copy_of_the_defaults DEFAULTS _ H)
    as (Hd & Hl & _).
  split; [exact H|]. split; [rewrite Hl; reflexivity|].
  split; [rewrite Hl; reflexivity | exact Hd].
Defined.

(** X14. In [run] of train_lstm.py the arguments of a call stay in the
    [DEFAULTS] of the module: a value given to one call is in force in the
    next call that does not give the key ("epochs" apart), and after a call
    with a true "early_stop" the next call that does not give "early_stop"
    runs with [EPCS_MAX] epochs, whatever "epochs" it gives. *)
Theorem X14_run_arguments_stay_in_the_defaults :
  forall (defaults args_1 args_2 args1 defaults1 args2 defaults2 : dict),
    well_keyed args_1 -> well_keyed args_2 ->
    run_args defaults args_1 = Ok (args1, defaults1) ->
    run_args defaults1 args_2 = Ok (args2, defaults2) ->
    defaults1 = args1 /\
    (forall k v, lookup k args_1 = Some v -> lookup k args_2 = None ->
                 k <> "epochs"%string -> lookup k args2 = Some v) /\
    (forall v, lookup "early_stop" args_1 = Some v -> truthy v = true ->
               lookup "early_stop" args_2 = None ->
               lookup "epochs" args2 = Some (VInt EPCS_MAX)).
Proof.
  intros D a1 a2 args1 D1 args2 D2 Hw1 Hw2 H1 H2.
  unfold run_args, getitem in H1.
  destruct (lookup "early_stop" (update D a1)) as [e1|] eqn:E1; simpl in H1;
    [|discriminate].
  injection H1 as Ha1 Hd1. rewrite Ha1 in Hd1. subst D1.
  unfold run_args, getitem in H2.
  destruct (lookup "early_stop" (update args1 a2)) as [e2|] eqn:E2; simpl in H2;
    [|discriminate].
  injection H2 as Ha2 _.
  assert (Hkeep1 : forall k, k <> "epochs"%string ->
                             lookup k args1 = lookup k (update D a1)).
  { intros k Hk. rewrite <- Ha1. destruct (truthy e1); [|reflexivity].
    rewrite lookup_setitem. destruct (String.eqb_spec k "epochs"); [contradiction|].
    reflexivity. }
  assert (Hkeep2 : forall k, k <> "epochs"%string ->
                             lookup k args2 = lookup k (update args1 a2)).
  { intros k Hk. rewrite <- Ha2. destruct (truthy e2); [|reflexivity].
    rewrite lookup_setitem. destruct (String.eqb_spec k "epochs"); [contradiction|].
    reflexivity. }
  split; [reflexivity|]. split.
  - intros k v Hk1 Hk2 Hne.
    rewrite (Hkeep2 k Hne), (lookup_update k a2 Hw2), Hk2.
    rewrite (Hkeep1 k Hne), (lookup_update k a1 Hw1), Hk1. reflexivity.
  - intros v Hv Ht Hno.
    assert (He : lookup "early_stop" (update args1 a2) = Some v).
    { rewrite (lookup_update _ a2 Hw2), Hno.
      rewrite (Hkeep1 "early_stop"%string) by discriminate.
      rewrite (lookup_update _ a1 Hw1), Hv. reflexivity. }
    rewrite He in E2. injection E2 as <-. rewrite Ht in Ha2.
    rewrite <- Ha2, lookup_setitem. reflexivity.
Qed.

Lemma X14_witness :
  well_keyed [("early_stop", VBool true)]%string /\
  well_keyed [("epochs", VInt 5)]%string /\
  exists args1 args2,
    run_args DEFAULTS [("early_stop", VBool true)]%string = Ok (args1, args1) /\
    run_args args1 [("epochs", VInt 5)]%string = Ok (args2, args2) /\
    lookup "early_stop" args2 = Some (VBool true) /\
    lookup "epochs" args2 = Some (VInt EPCS_MAX).
Proof.
  assert (H1 : well_keyed [("early_stop", VBool true)]%string).
  { repeat constructor. intros []. }
  assert (H2 : well_keyed [("epochs", VInt 5)]%string).
  { repeat constructor. intros []. }
  destruct (run_args DEFAULTS [("early_stop", VBool true)]%string) as [[args1 d1]|e] eqn:E1;
    [|discriminate E1].
  assert (Hd1 : d1 = args1) by (vm_compute in E1; congruence).
  subst d1.
  destruct (run_args args1 [("epochs", VInt 5)]%string) as [[args2 d2]|e] eqn:E2.
  - assert (Hd2 : d2 = args2).
    { unfold run_args in E2. destruct (getitem _ _); simpl in E2; congruence. }
    subst d2.
    destruct (X14_run_arguments_stay_in_the_defaults DEFAULTS _ _ args1 args1 args2 args2
                H1 H2 E1 E2) as (_ & Hk & He).
    split; [exact H1|]. split; [exact H2|].
    exists args1, args2. split; [first [exact E1 | reflexivity]|].
    split; [first [exact E2 | reflexivity]|]. split.
    + apply (Hk "early_stop"%string (VBool true)); [reflexivity | reflexivity | discriminate].
    + apply (He (VBool true)); reflexivity.
  - exfalso. vm_compute in E1. injection E1 as <-. vm_compute in E2. discriminate.
Defined.

End ArgsFacts.

(* ===================================================================== *)
(** ** The command line *)
(* ===================================================================== *)

Module ClArgsFacts.

Import ClArgs.
Import LstmLabelsFacts.

Open Scope Q_scope.

Lemma warmup_check (w : Q) :
  Qle_bool 0 w && negb (Qle_bool 100 w) = true <-> 0 <= w < 100.
Proof.
  rewrite andb_true_iff, negb_true_iff, Qle_bool_iff, Qle_bool_false. tauto.
Qed.

Lemma keep_check (k : Q) :
  negb (Qle_bool k 0) && Qle_bool k 100 = true <-> 0 < k <= 100.
Proof.
  rewrite andb_true_iff, negb_true_iff, Qle_bool_iff, Qle_bool_false. tauto.
Qed.

Lemma exists_nonempty (fs : files) (p : String.string) :
  exists_ fs p = true -> p <> String.EmptyString.
Proof.
  unfold exists_. intros H. apply andb_true_iff in H. destruct H as [H _].
  apply negb_true_iff in H. apply String.eqb_neq. exact H.
Qed.

Lemma verify_out_made (args : Namespace) (fs : files) :
  out_dir args <> String.EmptyString ->
  verify_out args fs = (Ok args, with_out_dir args fs).
Proof.
  intros Hne. unfold verify_out, with_out_dir, makedirs.
  destruct (exists_ fs (out_dir args)); [reflexivity|].
  apply String.eqb_neq in Hne. rewrite Hne. reflexivity.
Qed.

Lemma verify_out_inv (args a : Namespace) (fs f : files) :
  verify_out args fs = (Ok a, f) ->
  a = args /\ f = with_out_dir args fs /\ out_dir args <> String.EmptyString.
Proof.
  unfold verify_out, with_out_dir, makedirs.
  destruct (exists_ fs (out_dir args)) eqn:Ex.
  - intros H. injection H as <- <-. repeat split. apply (exists_nonempty fs). exact Ex.
  - destruct (String.eqb_spec (out_dir args) String.EmptyString) as [E|Hne];
      intros H; [discriminate|].
    injection H as <- <-. repeat split. exact Hne.
Qed.

Lemma verify_warmup_inv (args a : Namespace) (fs f : files) :
  verify_warmup args fs = (Ok a, f) ->
  a = args /\ f = fs /\ 0 <= warmup_percent args < 100.
Proof.
  unfold verify_warmup.
  destruct (Qle_bool 0 (warmup_percent args)
            && negb (Qle_bool 100 (warmup_percent args))) eqn:Ew;
    cbn [assert bind]; intros H; [|discriminate].
  injection H as <- <-. repeat split; apply warmup_check in Ew; apply Ew.
Qed.

Lemma verify_num_sims_inv (args a : Namespace) (fs f : files) :
  verify_num_sims args fs = (Ok a, f) ->
  a = args /\ f = fs /\ exists n, num_sims args = Some n /\ (0 <= n)%Z.
Proof.
  unfold verify_num_sims. destruct (num_sims args) as [n|]; [|discriminate].
  destruct (0 <=? n)%Z eqn:En; cbn [assert bind]; intros H; [|discriminate].
  injection H as <- <-. repeat split. exists n. split; [reflexivity|].
  apply Z.leb_le. exact En.
Qed.

Lemma training_fields (E : Z) (args : Namespace) :
  let a := if early_stop args then set_epochs E args else args in
  degree a = degree args /\ max_iter a = max_iter args /\
  folds a = folds args /\ keep_percent a = keep_percent args.
Proof. destruct (early_stop args); repeat split; reflexivity. Qed.

Lemma verify_training_inv (E : Z) (args a : Namespace) (fs f : files) :
  verify_training E args fs = (Ok a, f) ->
  a = (if early_stop args then set_epochs E args else args) /\ f = fs /\
  (0 <= degree args)%Z /\ (0 < max_iter args)%Z /\ (2 <= folds args)%Z /\
  0 < keep_percent args <= 100.
Proof.
  unfold verify_training.
  destruct (training_fields E args) as (H1 & H2 & H3 & H4). cbv zeta in H1, H2, H3, H4.
  rewrite H1, H2, H3, H4.
  destruct (0 <=? degree args)%Z eqn:Ed; cbn [assert bind]; [|discriminate].
  destruct (0 <? max_iter args)%Z eqn:Em; cbn [assert bind]; [|discriminate].
  destruct (2 <=? folds args)%Z eqn:Ef; cbn [assert bind]; [|discriminate].
  destruct (negb (Qle_bool (keep_percent args) 0) && Qle_bool (keep_percent args) 100)
    eqn:Ek; cbn [assert bind]; intros H; [|discriminate].
  injection H as <- <-.
  apply Z.leb_le in Ed. apply Z.ltb_lt in Em. apply Z.leb_le in Ef.
  apply keep_check in Ek. repeat split; try assumption; apply Ek.
Qed.

Lemma then_verify_inv (psr_verify verify : verifier) (args a : Namespace) (fs f : files) :
  then_verify psr_verify verify args fs = (Ok a, f) ->
  exists a1 f1, psr_verify args fs = (Ok a1, f1) /\ verify a1 f1 = (Ok a, f).
Proof.
  unfold then_verify. destruct (psr_verify args fs) as [[a1|e] f1]; intros H;
    [|discriminate].
  exists a1, f1. split; [reflexivity | exact H].
Qed.

(** X15. The verifier that [add_training] returns (with the default
    [psr_verify]) accepts exactly the arguments with a warm-up percentage in
    [0, 100), an output directory that is not the empty path, a number of
    simulations that is given and not negative, a degree of at least 0, a
    positive number of iterations, at least 2 folds and a keep percentage in
    (0, 100].  It returns them with [EPCS_MAX] epochs under early stopping,
    unchanged otherwise, and the output directory exists afterwards. *)
Theorem X15_add_training_accepts_the_valid_arguments :
  forall (EPCS_MAX : Z) (args : Namespace) (fs : files),
    (acceptable args ->
     add_training EPCS_MAX no_verify args fs
     = (Ok (if early_stop args then set_epochs EPCS_MAX args else args),
        with_out_dir args fs) /\
     exists_ (with_out_dir args fs) (out_dir args) = true) /\
    (forall args' fs',
       add_training EPCS_MAX no_verify args fs = (Ok args', fs') -> acceptable args).
Proof.
  intros E args fs. split.
  - intros (Hw & Ho & (n & Hn & Hn0) & Hd & Hm & Hf & Hk). split.
    + unfold add_training, add_num_sims, add_common, add_out, add_warmup, then_verify,
        no_verify, verify_warmup.
      rewrite (proj2 (warmup_check _) Hw). cbn [assert bind].
      rewrite (verify_out_made args fs Ho).
      unfold verify_num_sims. rewrite Hn.
      rewrite (proj2 (Z.leb_le 0 n) Hn0). cbn [assert bind].
      unfold verify_training.
      destruct (training_fields E args) as (H1 & H2 & H3 & H4).
      cbv zeta in H1, H2, H3, H4. rewrite H1, H2, H3, H4.
      rewrite (proj2 (Z.leb_le _ _) Hd), (proj2 (Z.ltb_lt _ _) Hm),
        (proj2 (Z.leb_le _ _) Hf), (proj2 (keep_check _) Hk).
      reflexivity.
    + unfold with_out_dir. destruct (exists_ fs (out_dir args)) eqn:Ex; [exact Ex|].
      unfold exists_. simpl. rewrite String.eqb_refl.
      apply String.eqb_neq in Ho. rewrite Ho. reflexivity.
  - intros args' fs' H. unfold add_training in H.
    apply then_verify_inv in H. destruct H as (a3 & f3 & H & Ht).
    unfold add_num_sims in H.
    apply then_verify_inv in H. destruct H as (a2 & f2 & H & Hn).
    unfold add_common, add_out in H.
    apply then_verify_inv in H. destruct H as (a1 & f1 & H & Ho).
    unfold add_warmup in H.
    apply then_verify_inv in H. destruct H as (a0 & f0 & H & Hw).
    unfold no_verify in H. injection H as <- <-.
    apply verify_warmup_inv in Hw. destruct Hw as (-> & -> & Hw).
    apply verify_out_inv in Ho. destruct Ho as (-> & -> & Ho).
    apply verify_num_sims_inv in Hn. destruct Hn as (-> & -> & Hn).
    apply verify_training_inv in Ht. destruct Ht as (_ & _ & Hd & Hm & Hf & Hk).
    unfold acceptable. repeat split; try assumption; try apply Hw; apply Hk.
Qed.

Lemma X15_witness :
  acceptable demo_namespace /\
  add_training 10000 no_verify demo_namespace []
  = (Ok (set_epochs 10000 demo_namespace), ["out"%string]) /\
  exists_ ["out"%string] "out" = true.
Proof.
  assert (H : acceptable demo_namespace).
  { unfold acceptable. simpl. repeat split; try discriminate; try reflexivity.
    exists 3%Z. split; [reflexivity | discriminate]. }
  destruct (X15_add_training_accepts_the_valid_arguments 10000 demo_namespace [])
    as (Hacc & _).
  destruct (Hacc H) as (Hrun & Hex).
  split; [exact H|]. split; [exact Hrun | exact Hex].
Defined.

(** X16. The checks of [add_training] run in the order warm-up, output
    directory, number of simulations, training options, after the verifier
    that the caller passed.  A warm-up percentage outside [0, 100) is
    rejected before any directory is made; a negative number of simulations
    is rejected after the output directory has been made; and when the
    verifier of the caller raises, nothing else runs. *)
Theorem X16_add_training_checks_in_order :
  forall (EPCS_MAX : Z) (args : Namespace) (fs : files),
    (~ (0 <= warmup_percent args < 100) ->
     add_training EPCS_MAX no_verify args fs = (Raise AssertionError, fs)) /\
    (forall n,
       0 <= warmup_percent args < 100 ->
       out_dir args <> String.EmptyString ->
       exists_ fs (out_dir args) = false ->
       num_sims args = Some n -> (n < 0)%Z ->
       add_training EPCS_MAX no_verify args fs
       = (Raise AssertionError, out_dir args :: fs)) /\
    (forall (psr_verify : verifier) (e : exn) (fs' : files),
       psr_verify args fs = (Raise e, fs') ->
       add_training EPCS_MAX psr_verify args fs = (Raise e, fs')).
Proof.
  intros E args fs. split; [|split].
  - intros Hw.
    unfold add_training, add_num_sims, add_common, add_out, add_warmup, then_verify,
      no_verify, verify_warmup.
    destruct (Qle_bool 0 (warmup_percent args)
              && negb (Qle_bool 100 (warmup_percent args))) eqn:Ew.
    + apply warmup_check in Ew. contradiction.
    + reflexivity.
  - intros n Hw Ho Hex Hn Hneg.
    unfold add_training, add_num_sims, add_common, add_out, add_warmup, then_verify,
      no_verify, verify_warmup.
    rewrite (proj2 (warmup_check _) Hw). cbn [assert bind].
    rewrite (verify_out_made args fs Ho). unfold with_out_dir. rewrite Hex.
    unfold verify_num_sims. rewrite Hn.
    replace (0 <=? n)%Z with false by (symmetry; apply Z.leb_gt; exact Hneg).
    reflexivity.
  - intros pv e fs' Hpv.
    unfold add_training, add_num_sims, add_common, add_out, add_warmup, then_verify.
    rewrite Hpv. reflexivity.
Qed.

Lemma X16_witness :
  (0 <= warmup_percent demo_namespace < 100) /\
  add_training 10000 no_verify demo_namespace []
  = (Ok (set_epochs 10000 demo_namespace), ["out"%string]) /\
  add_training 10000 no_verify
    {| out_dir := "out"; warmup_percent := 10; num_sims := Some (-1)%Z;
       early_stop := true; epochs := 100; degree := 3; max_iter := 1000; folds := 5;
       keep_percent := 50; scale_params := "scale_params.json" |} []
  = (Raise AssertionError, ["out"%string]) /\
  add_training 10000 no_verify
    {| out_dir := "out"; warmup_percent := 100; num_sims := Some (-1)%Z;
       early_stop := true; epochs := 100; degree := 3; max_iter := 1000; folds := 5;
       keep_percent := 50; scale_params := "scale_params.json" |} []
  = (Raise AssertionError, []).
Proof.
  assert (Hw : 0 <= warmup_percent demo_namespace < 100) by (split; [discriminate | reflexivity]).
  split; [exact Hw|]. split; [reflexivity|]. split.
  - destruct (X16_add_training_checks_in_order 10000
                {| out_dir := "out"; warmup_percent := 10; num_sims := Some (-1)%Z;
                   early_stop := true; epochs := 100; degree := 3; max_iter := 1000;
                   folds := 5; keep_percent := 50;
                   scale_params := "scale_params.json" |} []) as (_ & H & _).
    apply (H (-1)%Z); [exact Hw | discriminate | reflexivity | reflexivity | lia].
  - reflexivity.
Defined.

End ClArgsFacts.

(* ===================================================================== *)
(** ** The training loop of train.py, once more *)
(* ===================================================================== *)

Module TrainMoreFacts.

Import Train.
Import TrainMore.
Import TrainFacts.

(** *** The validation passes of an epoch *)

Lemma bchs_per_val_covers {Batch : Type} (cfg : config Batch) :
  (num_bchs_trn cfg <= 15 * bchs_per_val cfg)%nat.
Proof.
  unfold bchs_per_val, VALS_PER_EPC.
  set (n := Z.of_nat (num_bchs_trn cfg)).
  pose proof (Qle_ceiling (inject_Z n / inject_Z 15)) as Hc.
  set (c := Qceiling (inject_Z n / inject_Z 15)) in *.
  assert (H : (inject_Z n <= inject_Z (15 * c))%Q).
  { rewrite inject_Z_mult.
    rewrite <- (Qmult_div_r (inject_Z n) (inject_Z 15)) at 1 by discriminate.
    apply Qmult_le_l; [reflexivity | exact Hc]. }
  rewrite <- Zle_Qle in H. unfold n in H. lia.
Qed.

Lemma multiples_at_most (b n k : nat) :
  b <> 0%nat -> (n <= k * b)%nat ->
  (length (filter (fun i => (i mod b =? 0)%nat) (seq 0 n)) <= k)%nat.
Proof.
  intros Hb Hn.
  assert (H : (length (filter (fun i => (i mod b =? 0)%nat) (seq 0 n))
               <= length (map (fun m => (m * b)%nat) (seq 0 k)))%nat);
    [|rewrite length_map, length_seq in H; exact H].
  apply NoDup_incl_length.
  - apply NoDup_filter. apply seq_NoDup.
  - intros i Hi. apply filter_In in Hi. destruct Hi as (Hi & Hmod).
    apply in_seq in Hi. apply Nat.eqb_eq in Hmod.
    apply in_map_iff. exists (i / b)%nat. split.
    + pose proof (Nat.div_mod_eq i b) as E. rewrite Hmod in E. lia.
    + apply in_seq. split; [lia|]. simpl.
      apply Nat.Div0.div_lt_upper_bound. lia.
Qed.

(** X17. In an epoch of [train] at most [VALS_PER_EPC] = 15 batches are
    followed by a validation pass, the first batch is one of them, and the
    modulo by [bchs_per_val] of line 543 never divides by zero: [bchs_per_val]
    is zero only when there is no batch. *)
Theorem X17_at_most_fifteen_validation_passes_per_epoch :
  forall (Batch : Type) (cfg : config Batch),
    (vals_per_epoch cfg <= 15)%nat /\
    (num_bchs_trn cfg <> 0%nat ->
     (1 <= vals_per_epoch cfg)%nat /\ validation_due cfg 0 = Ok true) /\
    (forall bch_idx_trn, (bch_idx_trn < num_bchs_trn cfg)%nat ->
                         exists due, validation_due cfg bch_idx_trn = Ok due).
Proof.
  intros Batch cfg.
  assert (Hdue : forall i, (i < num_bchs_trn cfg)%nat ->
                           validation_due cfg i = Ok (i mod bchs_per_val cfg =? 0)%nat).
  { intros i Hi. unfold validation_due.
    assert (Hb : bchs_per_val cfg <> 0%nat) by (apply bchs_per_val_pos; lia).
    apply Nat.eqb_neq in Hb. rewrite Hb. reflexivity. }
  split; [|split].
  - unfold vals_per_epoch, dues.
    destruct (Nat.eq_dec (bchs_per_val cfg) 0) as [E|Hb].
    + pose proof (bchs_per_val_covers cfg) as Hc. rewrite E in Hc.
      replace (num_bchs_trn cfg) with 0%nat by lia. simpl. lia.
    + apply multiples_at_most; [exact Hb|]. apply bchs_per_val_covers.
  - intros Hn. split.
    + unfold vals_per_epoch, dues.
      assert (Hin : In 0%nat (filter (fun i => (i mod bchs_per_val cfg =? 0)%nat)
                                (seq 0 (num_bchs_trn cfg)))).
      { apply filter_In. split; [apply in_seq; lia|].
        rewrite Nat.Div0.mod_0_l. reflexivity. }
      destruct (filter _ _); [destruct Hin | simpl; lia].
    + rewrite Hdue by lia. rewrite Nat.Div0.mod_0_l. reflexivity.
  - intros i Hi. eexists. apply Hdue. exact Hi.
Qed.

Section LoopMore.

Variables Model Batch : Type.
Variable fit : Model -> Batch -> Model.
Variable inference : Model -> Batch -> Q.
Variable cfg : config Batch.

Lemma validation_due_first :
  num_bchs_trn cfg <> 0%nat -> validation_due cfg 0 = Ok true.
Proof.
  intros Hn. unfold validation_due.
  pose proof (bchs_per_val_pos _ cfg Hn) as Hb.
  apply Nat.eqb_neq in Hb. rewrite Hb. rewrite Nat.Div0.mod_0_l. reflexivity.
Qed.

(** The first epoch and its first batch. *)
Lemma train_first_batch (net0 : Model) (out_flp0 : option Model) :
  ely_stp cfg = true -> (1 <= num_epochs cfg)%nat -> num_bchs_trn cfg <> 0%nat ->
  timed_out cfg 0 = false ->
  let s1 := {| net := fit net0 (ldr_trn cfg 0 0); out_flp := out_flp0;
               los_val_min := None; val_pat := val_pat_max cfg; log := [] |} in
  forall s2,
    (validation inference cfg s1 = (s2, Return) ->
     train fit inference cfg net0 out_flp0 = (s2, StoppedByPatience 0)) /\
    (forall e, validation inference cfg s1 = (s2, Throw e) ->
               train fit inference cfg net0 out_flp0 = (s2, Raised e)).
Proof.
  intros Hely He Hn Ht s1 s2. unfold train.
  destruct (num_epochs cfg) as [|k]; [lia|].
  destruct (num_bchs_trn cfg) as [|n] eqn:En; [contradiction Hn; reflexivity|].
  cbn [seq run_epochs]. rewrite Ht, En. cbn [seq run_batches].
  rewrite Hely. rewrite validation_due_first by (rewrite En; discriminate).
  cbn [net out_flp los_val_min val_pat log]. fold s1.
  split.
  - intros Hv. rewrite Hv. reflexivity.
  - intros e Hv. rewrite Hv. reflexivity.
Qed.

End LoopMore.

(** X18. With early stopping, an epoch and a batch at least and no timeout
    at the start: when the validation loss of the first pass is zero (as with
    a validation loader without a batch), [train] ends at the first batch of
    the first epoch with the [ZeroDivisionError] of the percentage of line
    564; one training step has been made and no checkpoint written. *)
Theorem X18_zero_validation_loss_divides_by_zero :
  forall (Model Batch : Type) (fit : Model -> Batch -> Model)
         (inference : Model -> Batch -> Q) (cfg : config Batch)
         (net0 : Model) (out_flp0 : option Model) (bchs : list Batch),
    ely_stp cfg = true -> ldr_val cfg = Some bchs ->
    (1 <= num_epochs cfg)%nat -> num_bchs_trn cfg <> 0%nat ->
    timed_out cfg 0 = false ->
    (sum_losses inference (fit net0 (ldr_trn cfg 0 0)) bchs == 0)%Q ->
    snd (train fit inference cfg net0 out_flp0) = Raised ZeroDivisionError /\
    net (fst (train fit inference cfg net0 out_flp0)) = fit net0 (ldr_trn cfg 0 0) /\
    out_flp (fst (train fit inference cfg net0 out_flp0)) = out_flp0 /\
    length (log (fst (train fit inference cfg net0 out_flp0))) = 1%nat.
Proof.
  intros Model Batch fit inference cfg net0 out_flp0 bchs Hely Hval He Hn Ht Hz.
  set (s1 := {| net := fit net0 (ldr_trn cfg 0 0); out_flp := out_flp0;
                los_val_min := None; val_pat := val_pat_max cfg; log := [] |}).
  assert (Hv : exists s2, validation inference cfg s1 = (s2, Throw ZeroDivisionError) /\
                          net s2 = net s1 /\ out_flp s2 = out_flp0 /\
                          length (log s2) = 1%nat).
  { unfold validation. rewrite Hval. cbn [net los_val_min out_flp val_pat log s1].
    unfold improvement. apply Qeq_bool_iff in Hz. rewrite Hz.
    eexists. split; [reflexivity|]. repeat split. }
  destruct Hv as (s2 & Hv & H1 & H2 & H3).
  destruct (train_first_batch Model Batch fit inference cfg net0 out_flp0
              Hely He Hn Ht s2) as (_ & Hthrow).
  rewrite (Hthrow _ Hv). cbn [fst snd]. repeat split; assumption.
Qed.

Lemma X18_witness :
  ely_stp demo_no_val = true /\ ldr_val demo_no_val = Some [] /\
  (sum_losses demo_inference (demo_fit 0%nat tt) [] == 0)%Q /\
  snd (train demo_fit demo_inference demo_no_val 0%nat None)
  = Raised ZeroDivisionError /\
  net (fst (train demo_fit demo_inference demo_no_val 0%nat None)) = 1%nat.
Proof.
  assert (H1 : ely_stp demo_no_val = true) by reflexivity.
  assert (H2 : ldr_val demo_no_val = Some []) by reflexivity.
  assert (H3 : (1 <= num_epochs demo_no_val)%nat) by (simpl; lia).
  assert (H4 : num_bchs_trn demo_no_val <> 0%nat) by discriminate.
  assert (H5 : timed_out demo_no_val 0 = false) by reflexivity.
  assert (H6 : (sum_losses demo_inference (demo_fit 0%nat tt) [] == 0)%Q) by reflexivity.
  destruct (X18_zero_validation_loss_divides_by_zero nat unit demo_fit demo_inference
              demo_no_val 0%nat None [] H1 H2 H3 H4 H5 H6) as (Hout & Hnet & _).
  split; [exact H1|]. split; [exact H2|]. split; [exact H6|].
  split; [exact Hout | exact Hnet].
Defined.

Section Plain.

Variables Model Batch : Type.
Variable fit : Model -> Batch -> Model.
Variable inference : Model -> Batch -> Q.
Variable cfg : config Batch.

(** Without early stopping the batches are training steps, and nothing
    else. *)
Lemma run_batches_plain (epoch_idx : nat) (todo : list nat) :
  ely_stp cfg = false ->
  forall s : state Model,
    run_batches fit inference cfg epoch_idx todo s
    = ({| net := after_batches fit cfg epoch_idx todo (net s); out_flp := out_flp s;
          los_val_min := los_val_min s; val_pat := val_pat s; log := log s |},
       Continue).
Proof.
  intros Hely. induction todo as [|i rest IH]; intros s.
  - destruct s. reflexivity.
  - cbn [run_batches]. rewrite Hely. rewrite IH. reflexivity.
Qed.

Lemma run_epochs_plain (len : nat) :
  ely_stp cfg = false ->
  forall (start : nat) (s : state Model),
  exists k,
    (k <= len)%nat /\
    fst (run_epochs fit inference cfg (seq start len) s)
    = {| net := after_epochs fit cfg (seq start k) (net s);
         out_flp := Some (after_epochs fit cfg (seq start k) (net s));
         los_val_min := los_val_min s; val_pat := val_pat s; log := log s |} /\
    (forall e, In e (seq start k) -> timed_out cfg e = false) /\
    (k = len /\ snd (run_epochs fit inference cfg (seq start len) s) = CompletedEpochs \/
     (k < len)%nat /\ timed_out cfg (start + k) = true /\
     snd (run_epochs fit inference cfg (seq start len) s)
     = StoppedByTimeout (start + k)).
Proof.
  intros Hely. induction len as [|len IH]; intros start s.
  - exists 0%nat. cbn [seq run_epochs fst snd]. unfold save_final. rewrite Hely.
    split; [lia|]. split; [reflexivity|]. split; [intros e []|]. left. split; reflexivity.
  - cbn [seq run_epochs]. destruct (timed_out cfg start) eqn:Et.
    + exists 0%nat. cbn [fst snd seq]. unfold save_final. rewrite Hely.
      split; [lia|]. split; [reflexivity|]. split; [intros e []|].
      right. rewrite Nat.add_0_r. split; [lia|]. split; [exact Et | reflexivity].
    + rewrite (run_batches_plain start (seq 0 (num_bchs_trn cfg)) Hely s).
      destruct (IH (S start)
                  {| net := after_batches fit cfg start (seq 0 (num_bchs_trn cfg)) (net s);
                     out_flp := out_flp s; los_val_min := los_val_min s;
                     val_pat := val_pat s; log := log s |})
        as (k & Hk & Hst & Hno & Hout).
      exists (S k). split; [lia|]. split; [exact Hst|]. split.
      * intros e [<-|He]; [exact Et | apply Hno; exact He].
      * replace (start + S k)%nat with (S start + k)%nat by lia.
        destruct Hout as [(-> & Hout)|(Hlt & Ht & Hout)];
          [left; split; [reflexivity | exact Hout]
          |right; split; [lia | split; [exact Ht | exact Hout]]].
Qed.

(** A validation pass that lets the loop go on or return leaves the live
    model and the checkpoint the same, if there is a checkpoint. *)
Lemma validation_synced (s s' : state Model) (sig : signal) :
  validation inference cfg s = (s', sig) ->
  (forall e, sig <> Throw e) -> synced s'.
Proof.
  unfold validation. destruct (ldr_val cfg) as [bchs|].
  - destruct (improvement _ _) as [prc|e].
    + destruct (exceeds prc (val_imp_thresh cfg)); intros H _; injection H as <- _;
        unfold synced; cbn [net out_flp].
      * intros saved E. injection E as <-. reflexivity.
      * intros saved E. rewrite E. reflexivity.
    + intros H Hno. injection H as _ <-. contradiction (Hno e). reflexivity.
  - intros H Hno. injection H as _ <-. contradiction (Hno TypeError). reflexivity.
Qed.

Lemma run_batches_synced (epoch_idx : nat) (todo : list nat) :
  forall s s' : state Model,
    run_batches fit inference cfg epoch_idx todo s = (s', Return) -> synced s'.
Proof.
  induction todo as [|i rest IH]; intros s s' H; cbn [run_batches] in H; [discriminate|].
  set (s1 := {| net := fit (net s) (ldr_trn cfg epoch_idx i); out_flp := out_flp s;
                los_val_min := los_val_min s; val_pat := val_pat s; log := log s |}) in *.
  destruct (ely_stp cfg); [|apply (IH s1 s' H)].
  destruct (validation_due cfg i) as [[|]|e]; [|apply (IH s1 s' H)|discriminate].
  destruct (validation inference cfg s1) as [s2 sig] eqn:Ev.
  destruct sig as [| |e].
  - apply (IH s2 s' H).
  - injection H as <-. apply (validation_synced s1 s2 Return Ev). intros e; discriminate.
  - discriminate.
Qed.

Lemma run_epochs_synced (todo : list nat) :
  forall (s s' : state Model) (e : nat),
    run_epochs fit inference cfg todo s = (s', StoppedByPatience e) -> synced s'.
Proof.
  induction todo as [|e0 rest IH]; intros s s' e H; cbn [run_epochs] in H; [discriminate|].
  destruct (timed_out cfg e0); [discriminate|].
  destruct (run_batches fit inference cfg e0 (seq 0 (num_bchs_trn cfg)) s)
    as [s1 sig] eqn:Eb.
  destruct sig as [| |x].
  - apply (IH s1 s' e H).
  - injection H as <- _. apply (run_batches_synced e0 _ s s1 Eb).
  - discriminate.
Qed.

End Plain.

(** X19. Without early stopping [train] never validates: it makes a training
    step on every batch of every epoch up to the first epoch that starts
    after the timeout (all epochs when there is none), in order, and then
    writes the model it returns into the checkpoint file. *)
Theorem X19_without_early_stopping_every_batch_is_trained_and_the_model_saved :
  forall (Model Batch : Type) (fit : Model -> Batch -> Model)
         (inference : Model -> Batch -> Q) (cfg : config Batch)
         (net0 : Model) (out_flp0 : option Model),
    ely_stp cfg = false ->
    exists k,
      (k <= num_epochs cfg)%nat /\
      net (fst (train fit inference cfg net0 out_flp0))
      = after_epochs fit cfg (seq 0 k) net0 /\
      out_flp (fst (train fit inference cfg net0 out_flp0))
      = Some (net (fst (train fit inference cfg net0 out_flp0))) /\
      log (fst (train fit inference cfg net0 out_flp0)) = [] /\
      (forall e, (e < k)%nat -> timed_out cfg e = false) /\
      (k = num_epochs cfg /\
       snd (train fit inference cfg net0 out_flp0) = CompletedEpochs \/
       (k < num_epochs cfg)%nat /\ timed_out cfg k = true /\
       snd (train fit inference cfg net0 out_flp0) = StoppedByTimeout k).
Proof.
  intros Model Batch fit inference cfg net0 out_flp0 Hely. unfold train.
  destruct (run_epochs_plain Model Batch fit inference cfg (num_epochs cfg) Hely 0%nat
              {| net := net0; out_flp := out_flp0; los_val_min := None;
                 val_pat := val_pat_max cfg; log := [] |})
    as (k & Hk & Hst & Hno & Hout).
  exists k. rewrite Hst. cbn [net out_flp log].
  split; [exact Hk|]. split; [reflexivity|]. split; [reflexivity|].
  split; [reflexivity|]. split.
  - intros e He. apply Hno. apply in_seq. lia.
  - exact Hout.
Qed.

Lemma X19_witness :
  ely_stp demo_plain = false /\
  train demo_fit demo_inference demo_plain 0%nat None
  = ({| net := 6%nat; out_flp := Some 6%nat; los_val_min := None; val_pat := 3%Z;
        log := [] |}, CompletedEpochs) /\
  exists k,
    (k <= 2)%nat /\
    net (fst (train demo_fit demo_inference demo_plain 0%nat None))
    = after_epochs demo_fit demo_plain (seq 0 k) 0%nat.
Proof.
  assert (H : ely_stp demo_plain = false) by reflexivity.
  destruct (X19_without_early_stopping_every_batch_is_trained_and_the_model_saved
              nat unit demo_fit demo_inference demo_plain 0%nat None H)
    as (k & Hk & Hnet & _).
  split; [exact H|]. split; [reflexivity|]. exists k. split; [exact Hk | exact Hnet].
Defined.

(** X20. Whenever [train] returns because the patience has run out, the
    model it returns is the model of the checkpoint file, if the file
    exists: the last validation pass has written the one or reloaded the
    other. *)
Theorem X20_a_run_that_stops_by_patience_returns_the_checkpoint :
  forall (Model Batch : Type) (fit : Model -> Batch -> Model)
         (inference : Model -> Batch -> Q) (cfg : config Batch)
         (net0 : Model) (out_flp0 : option Model) (epoch_idx : nat),
    snd (train fit inference cfg net0 out_flp0) = StoppedByPatience epoch_idx ->
    synced (fst (train fit inference cfg net0 out_flp0)).
Proof.
  intros Model Batch fit inference cfg net0 out_flp0 e H. unfold train in *.
  destruct (run_epochs fit inference cfg (seq 0 (num_epochs cfg))
              {| net := net0; out_flp := out_flp0; los_val_min := None;
                 val_pat := val_pat_max cfg; log := [] |}) as [s' out] eqn:Er.
  cbn [fst snd] in *. subst out.
  apply (run_epochs_synced Model Batch fit inference cfg _ _ s' e Er).
Qed.

(** The run of [demo_cfg] from a checkpoint file that holds the model 7. *)
Lemma X20_witness :
  snd (train demo_fit demo_inference demo_cfg 0%nat (Some 7%nat)) = StoppedByPatience 0 /\
  out_flp (fst (train demo_fit demo_inference demo_cfg 0%nat (Some 7%nat))) = Some 7%nat /\
  net (fst (train demo_fit demo_inference demo_cfg 0%nat (Some 7%nat))) = 7%nat.
Proof.
  assert (H : snd (train demo_fit demo_inference demo_cfg 0%nat (Some 7%nat))
              = StoppedByPatience 0) by reflexivity.
  pose proof (X20_a_run_that_stops_by_patience_returns_the_checkpoint nat unit demo_fit
                demo_inference demo_cfg 0%nat (Some 7%nat) 0%nat H) as Hs.
  split; [exact H|]. split; [reflexivity|]. apply Hs. reflexivity.
Defined.

(** X21. With early stopping, a threshold that is not negative and a
    patience of one (or less): the first validation pass, whose loss is
    taken as the lowest so far, is no improvement, so that [train] returns
    after the first batch of the first epoch, whatever that loss is, zero
    apart; no checkpoint is written, and the model returned is the model of
    a checkpoint file that was there before, if any. *)
Theorem X21_a_patience_of_one_stops_after_the_first_batch :
  forall (Model Batch : Type) (fit : Model -> Batch -> Model)
         (inference : Model -> Batch -> Q) (cfg : config Batch)
         (net0 : Model) (out_flp0 : option Model) (bchs : list Batch),
    ely_stp cfg = true -> ldr_val cfg = Some bchs ->
    (1 <= num_epochs cfg)%nat -> num_bchs_trn cfg <> 0%nat ->
    timed_out cfg 0 = false ->
    (0 <= val_imp_thresh cfg)%Q -> (val_pat_max cfg <= 1)%Z ->
    ~ (sum_losses inference (fit net0 (ldr_trn cfg 0 0)) bchs == 0)%Q ->
    snd (train fit inference cfg net0 out_flp0) = StoppedByPatience 0 /\
    net (fst (train fit inference cfg net0 out_flp0))
    = match out_flp0 with
      | Some saved => saved
      | None => fit net0 (ldr_trn cfg 0 0)
      end /\
    out_flp (fst (train fit inference cfg net0 out_flp0)) = out_flp0 /\
    length (log (fst (train fit inference cfg net0 out_flp0))) = 1%nat.
Proof.
  intros Model Batch fit inference cfg net0 out_flp0 bchs Hely Hval He Hn Ht Hthr Hpat Hnz.
  set (s1 := {| net := fit net0 (ldr_trn cfg 0 0); out_flp := out_flp0;
                los_val_min := None; val_pat := val_pat_max cfg; log := [] |}).
  set (los_val := sum_losses inference (fit net0 (ldr_trn cfg 0 0)) bchs) in *.
  assert (Hv : exists s2, validation inference cfg s1 = (s2, Return) /\
                          net s2 = match out_flp0 with
                                   | Some saved => saved
                                   | None => fit net0 (ldr_trn cfg 0 0)
                                   end /\
                          out_flp s2 = out_flp0 /\ length (log s2) = 1%nat).
  { unfold validation. rewrite Hval. cbn [net los_val_min out_flp val_pat log s1].
    fold los_val. unfold improvement.
    destruct (Qeq_bool los_val 0) eqn:E0; [apply Qeq_bool_iff in E0; contradiction|].
    unfold exceeds.
    destruct (Qlt_le_dec (val_imp_thresh cfg) ((los_val - los_val) / los_val * 100))
      as [Hlt|Hle].
    - exfalso. assert (Hz : ((los_val - los_val) / los_val * 100 == 0)%Q)
        by (field; exact Hnz).
      rewrite Hz in Hlt. apply (Qlt_not_le _ _ Hlt). exact Hthr.
    - cbn [val_pat].
      replace (val_pat_max cfg - 1 <=? 0)%Z with true by (symmetry; apply Z.leb_le; lia).
      eexists. split; [reflexivity|]. repeat split. }
  destruct Hv as (s2 & Hv & H1 & H2 & H3).
  destruct (train_first_batch Model Batch fit inference cfg net0 out_flp0
              Hely He Hn Ht s2) as (Hret & _).
  rewrite (Hret Hv). cbn [fst snd]. repeat split; assumption.
Qed.

Lemma X21_witness :
  ely_stp demo_impatient = true /\ ldr_val demo_impatient = Some [tt] /\
  (0 <= val_imp_thresh demo_impatient)%Q /\ (val_pat_max demo_impatient <= 1)%Z /\
  ~ (sum_losses demo_inference (demo_fit 0%nat tt) [tt] == 0)%Q /\
  train demo_fit demo_inference demo_impatient 0%nat None
  = ({| net := 1%nat; out_flp := None; los_val_min := Some (0 + 1)%Q; val_pat := 0%Z;
        log := [{| p_min := (0 + 1)%Q; p_val := (0 + 1)%Q |}] |}, StoppedByPatience 0) /\
  snd (train demo_fit demo_inference demo_impatient 0%nat None) = StoppedByPatience 0.
Proof.
  assert (H1 : ely_stp demo_impatient = true) by reflexivity.
  assert (H2 : ldr_val demo_impatient = Some [tt]) by reflexivity.
  assert (H3 : (1 <= num_epochs demo_impatient)%nat) by (simpl; lia).
  assert (H4 : num_bchs_trn demo_impatient <> 0%nat) by discriminate.
  assert (H5 : timed_out demo_impatient 0 = false) by reflexivity.
  assert (H6 : (0 <= val_imp_thresh demo_impatient)%Q) by discriminate.
  assert (H7 : (val_pat_max demo_impatient <= 1)%Z) by (simpl; lia).
  assert (H8 : ~ (sum_losses demo_inference (demo_fit 0%nat tt) [tt] == 0)%Q)
    by discriminate.
  destruct (X21_a_patience_of_one_stops_after_the_first_batch nat unit demo_fit
              demo_inference demo_impatient 0%nat None [tt] H1 H2 H3 H4 H5 H6 H7 H8)
    as (Hout & _).
  split; [exact H1|]. split; [exact H2|]. split; [exact H6|]. split; [exact H7|].
  split; [exact H8|]. split; [reflexivity | exact Hout].
Defined.

End TrainMoreFacts.

(* ===================================================================== *)
(** ** The validation schedule of train_lstm.py *)
(* ===================================================================== *)

Module LstmTrainFacts.

Import LstmTrain.

Lemma Qfloor_div (a c : Z) :
  (0 < c)%Z -> Qfloor (inject_Z a / inject_Z c) = (a / c)%Z.
Proof.
  intros Hc. destruct c as [|p|p]; try lia.
  unfold Qdiv, Qmult, Qinv, inject_Z, Qfloor. cbn [Qnum Qden].
  rewrite Z.mul_1_r. reflexivity.
Qed.

Lemma multiples_at_least (b n k : nat) :
  b <> 0%nat -> (forall m, (m < k)%nat -> (m * b < n)%nat) ->
  (k <= length (filter (fun i => (i mod b =? 0)%nat) (seq 0 n)))%nat.
Proof.
  intros Hb Hk.
  assert (H : (length (map (fun m => (m * b)%nat) (seq 0 k))
               <= length (filter (fun i => (i mod b =? 0)%nat) (seq 0 n)))%nat);
    [|rewrite length_map, length_seq in H; exact H].
  apply NoDup_incl_length.
  - apply Finite.Injective_map_NoDup; [|apply seq_NoDup].
    intros x y E. nia.
  - intros i Hi. apply in_map_iff in Hi. destruct Hi as (m & <- & Hm).
    apply in_seq in Hm. apply filter_In. split.
    + apply in_seq. specialize (Hk m). lia.
    + apply Nat.eqb_eq. apply Nat.Div0.mod_mul.
Qed.

Lemma validated_multiples (b n : nat) :
  b <> 0%nat ->
  validated b n = filter (fun i => (i mod b =? 0)%nat) (seq 0 n).
Proof.
  intros Hb. unfold validated, validation_due.
  apply Nat.eqb_neq in Hb. rewrite Hb. reflexivity.
Qed.

(** X27. [train] of train_lstm.py fails its assertion when [VALS_PER_EPC] is
    below 2.  Otherwise [bchs_per_val] is never zero, so that the modulo of
    line 403 does not divide by zero; an epoch of fewer than [VALS_PER_EPC]
    batches is validated after every batch; a longer one between
    [VALS_PER_EPC - 1] and [2 * VALS_PER_EPC - 3] times, and exactly
    [VALS_PER_EPC - 1] times when the number of batches is a multiple of
    [VALS_PER_EPC - 1]. *)
Theorem X27_lstm_validation_passes_per_epoch :
  forall (VALS_PER_EPC : Z) (num_bchs_trn : nat),
    ((VALS_PER_EPC < 2)%Z ->
     bchs_per_val VALS_PER_EPC num_bchs_trn = Raise AssertionError) /\
    ((2 <= VALS_PER_EPC)%Z ->
     exists b,
       bchs_per_val VALS_PER_EPC num_bchs_trn = Ok b /\ b <> 0%nat /\
       (forall bch_idx_trn, exists due, validation_due b bch_idx_trn = Ok due) /\
       ((Z.of_nat num_bchs_trn < VALS_PER_EPC)%Z ->
        validated b num_bchs_trn = seq 0 num_bchs_trn) /\
       ((VALS_PER_EPC <= Z.of_nat num_bchs_trn)%Z ->
        (VALS_PER_EPC - 1 <= Z.of_nat (length (validated b num_bchs_trn))
         <= 2 * VALS_PER_EPC - 3)%Z /\
        ((Z.of_nat num_bchs_trn mod (VALS_PER_EPC - 1) = 0)%Z ->
         Z.of_nat (length (validated b num_bchs_trn)) = (VALS_PER_EPC - 1)%Z))).
Proof.
  intros V n. split.
  - intros HV. unfold bchs_per_val.
    replace (2 <=? V)%Z with false by (symmetry; apply Z.leb_gt; exact HV).
    reflexivity.
  - intros HV. unfold bchs_per_val.
    replace (2 <=? V)%Z with true by (symmetry; apply Z.leb_le; exact HV).
    cbn [assert bind].
    destruct (Z.of_nat n <? V)%Z eqn:Hshort.
    + apply Z.ltb_lt in Hshort. exists 1%nat.
      split; [reflexivity|]. split; [discriminate|].
      split; [intros i; eexists; reflexivity|].
      split; [|intros Hlong; lia].
      intros _. rewrite validated_multiples by discriminate.
      apply forallb_filter_id. apply forallb_forall. intros i _.
      rewrite Nat.mod_1_r. reflexivity.
    + apply Z.ltb_ge in Hshort.
      rewrite Qfloor_div by lia.
      set (q := (Z.of_nat n / (V - 1))%Z).
      pose proof (Z.div_mod (Z.of_nat n) (V - 1) ltac:(lia)) as Hdm.
      pose proof (Z.mod_pos_bound (Z.of_nat n) (V - 1) ltac:(lia)) as Hr.
      fold q in Hdm. set (r := (Z.of_nat n mod (V - 1))%Z) in *.
      assert (Hq : (1 <= q)%Z) by nia.
      exists (Z.to_nat q).
      assert (Hb : Z.to_nat q <> 0%nat) by lia.
      split; [reflexivity|]. split; [exact Hb|].
      split.
      { intros i. unfold validation_due. apply Nat.eqb_neq in Hb. rewrite Hb.
        eexists; reflexivity. }
      split; [intros Hlt; lia|].
      intros _. rewrite validated_multiples by exact Hb.
      assert (Hlow : (Z.to_nat (V - 1)
                      <= length (filter (fun i => (i mod Z.to_nat q =? 0)%nat) (seq 0 n)))%nat).
      { apply multiples_at_least; [exact Hb|]. intros m Hm.
        apply Nat2Z.inj_lt. rewrite Nat2Z.inj_mul, Z2Nat.id by lia. nia. }
      assert (Hup : (length (filter (fun i => (i mod Z.to_nat q =? 0)%nat) (seq 0 n))
                     <= Z.to_nat (2 * V - 3))%nat).
      { apply TrainMoreFacts.multiples_at_most; [exact Hb|].
        apply Nat2Z.inj_le. rewrite Nat2Z.inj_mul, !Z2Nat.id by lia. nia. }
      split; [lia|].
      intros Hmod.
      assert (Hex : (length (filter (fun i => (i mod Z.to_nat q =? 0)%nat) (seq 0 n))
                     <= Z.to_nat (V - 1))%nat).
      { apply TrainMoreFacts.multiples_at_most; [exact Hb|].
        apply Nat2Z.inj_le. rewrite Nat2Z.inj_mul, !Z2Nat.id by lia. nia. }
      lia.
Qed.

(** With the 15 of the source: 27 batches are validated 27 times, 28
    batches 14 times. *)
Lemma X27_witness :
  (2 <= 15)%Z /\
  bchs_per_val 15 27 = Ok 1%nat /\ length (validated 1 27) = 27%nat /\
  bchs_per_val 15 28 = Ok 2%nat /\ length (validated 2 28) = 14%nat /\
  (15 - 1 <= Z.of_nat (length (validated 2 28)) <= 2 * 15 - 3)%Z.
Proof.
  assert (H2 : (2 <= 15)%Z) by lia.
  destruct (X27_lstm_validation_passes_per_epoch 15 28) as (_ & H).
  destruct (H H2) as (b & Hb & _ & _ & _ & Hlong).
  assert (E : b = 2%nat) by (vm_compute in Hb; injection Hb as <-; reflexivity).
  subst b.
  split; [exact H2|]. split; [reflexivity|]. split; [reflexivity|].
  split; [exact Hb|]. split; [reflexivity|].
  apply Hlong. simpl. lia.
Defined.

End LstmTrainFacts.

(* ===================================================================== *)
(** ** The split of train.py, once more *)
(* ===================================================================== *)

Module SplitMoreFacts.

Import Split.
Import SplitFacts.

(** X22. For five arrays of N rows [split_data] returns a test part that is
    empty exactly when N <= 1 and, with [use_val], a validation part that is
    empty exactly when N <= 2; the training part is never empty for N >= 1,
    and holds at least N/2 - 1 of the examples. *)
Theorem X22_parts_of_a_small_dataset :
  forall (draw : nat -> nat) (is_svm : bool)
         (dat_in dat_out dat_out_raw dat_out_oracle num_flws : sarray)
         (bch_trn bch_tst : Z) (use_val : bool) (N : nat),
    Scaling.has_rows N dat_in -> dat_in <> [] ->
    Scaling.has_rows N dat_out -> one_field dat_out ->
    Scaling.has_rows N dat_out_raw -> one_field dat_out_raw ->
    Scaling.has_rows N dat_out_oracle -> one_field dat_out_oracle ->
    Scaling.has_rows N num_flws -> one_field num_flws ->
    exists ldr_trn ldr_val ldr_tst,
      split_data draw is_svm dat_in dat_out dat_out_raw dat_out_oracle num_flws
        bch_trn bch_tst use_val = Ok (ldr_trn, ldr_val, ldr_tst) /\
      (l_in ldr_tst = [] <-> (N <= 1)%nat) /\
      (use_val = true -> (val_rows ldr_val = [] <-> (N <= 2)%nat)) /\
      ((1 <= N)%nat -> l_in ldr_trn <> []) /\
      (N <= 2 * length (l_in ldr_trn) + 2)%nat.
Proof.
  intros draw is_svm dat_in dat_out dat_out_raw dat_out_oracle num_flws bch_trn bch_tst
    use_val N Hin Hne Hout Hout1 Hraw Hraw1 Horc Horc1 Hflw Hflw1.
  destruct (split_data_ok draw is_svm dat_in dat_out dat_out_raw dat_out_oracle
              num_flws bch_trn bch_tst use_val N Hin Hne Hout Hout1 Hraw Hraw1
              Horc Horc1 Hflw Hflw1)
    as (ldr_trn & ldr_val & ldr_tst & Hrun & _ & Hvi & _ & Hti & _ & _ & _ & _ & Hni & _).
  destruct (split_sizes use_val N) as (Ht & Hv & Hroom).
  pose proof (py_round_three_tenths (Z.of_nat N)) as Bt.
  pose proof (py_round_fifth (Z.of_nat N)) as Bv.
  pose proof (length_np_shuffle_seq draw N) as Hlen.
  set (p := np_shuffle draw (seq 0 N)) in *.
  set (nv := num_val_of use_val N) in *. set (nt := num_tst_of N) in *.
  set (rt := py_round (inject_Z (Z.of_nat N) * 0.3)) in *.
  set (rv := py_round (inject_Z (Z.of_nat N) * 0.2)) in *.
  assert (Lv : length (val_rows ldr_val) = nv).
  { rewrite Hvi, length_map, length_slice; lia. }
  assert (Lt : length (l_in ldr_tst) = nt).
  { rewrite Hti, length_map, length_slice; lia. }
  assert (Ln : length (l_in ldr_trn) = (N - (nv + nt))%nat).
  { rewrite Hni, length_map, length_skipn. lia. }
  assert (Hnil : forall l : matrix, l = [] <-> length l = 0%nat).
  { intros l. destruct l; simpl; split; intros H; try reflexivity; discriminate. }
  exists ldr_trn, ldr_val, ldr_tst. split; [exact Hrun|].
  split; [rewrite Hnil, Lt; lia|].
  split; [intros ->; rewrite Hnil, Lv; lia|].
  split; [intros HN Hl; apply Hnil in Hl; destruct use_val; lia|].
  destruct use_val; lia.
Qed.

Lemma X22_witness :
  let one := [[1]]%R in
  Scaling.has_rows 1 one /\ one <> [] /\ one_field one /\
  exists ldr_trn ldr_val ldr_tst,
    split_data (fun t => t) false one one one one one 8%Z 8%Z true
    = Ok (ldr_trn, ldr_val, ldr_tst) /\
    l_in ldr_tst = [] /\ val_rows ldr_val = [] /\ l_in ldr_trn <> [].
Proof.
  intros one.
  assert (H1 : Scaling.has_rows 1 one) by (constructor; [reflexivity | constructor]).
  assert (Hne : one <> []) by discriminate.
  split; [exact H1|]. split; [exact Hne|]. split; [reflexivity|].
  destruct (X22_parts_of_a_small_dataset (fun t => t) false one one one one one
              8%Z 8%Z true 1%nat H1 Hne H1 eq_refl H1 eq_refl H1 eq_refl H1 eq_refl)
    as (ldr_trn & ldr_val & ldr_tst & Hrun & Ht & Hv & Hn & _).
  exists ldr_trn, ldr_val, ldr_tst. split; [exact Hrun|].
  split; [apply Ht; lia|]. split; [apply (Hv eq_refl); lia | apply Hn; lia].
Defined.

(** X23. When the labels have not as many rows as the input features,
    [split_data] raises the [ValueError] of [np.concatenate] (line 390)
    before anything is shuffled. *)
Theorem X23_arrays_of_different_lengths_cannot_be_split :
  forall (draw : nat -> nat) (is_svm : bool)
         (dat_in dat_out dat_out_raw dat_out_oracle num_flws : sarray)
         (bch_trn bch_tst : Z) (use_val : bool) (n m : nat),
    Scaling.has_rows n dat_in -> dat_in <> [] ->
    Scaling.has_rows m dat_out -> dat_out <> [] ->
    n <> m ->
    split_data draw is_svm dat_in dat_out dat_out_raw dat_out_oracle num_flws
      bch_trn bch_tst use_val = Raise ValueError.
Proof.
  intros draw is_svm dat_in dat_out dat_out_raw dat_out_oracle num_flws bch_trn bch_tst
    use_val n m Hin Hne Hout Hne' Hnm.
  unfold split_data, shuffle_together.
  rewrite (clean_rows dat_in n Hin Hne), (clean_rows dat_out m Hout Hne').
  assert (H : hstack (map (in_row dat_in) (seq 0 n)) (map (in_row dat_out) (seq 0 m))
              = Raise ValueError).
  { unfold hstack. rewrite !length_map, !length_seq.
    apply Nat.eqb_neq in Hnm. rewrite Hnm. reflexivity. }
  rewrite H. reflexivity.
Qed.

Lemma X23_witness :
  Scaling.has_rows 2 [[1; 2]]%R /\ [[1; 2]]%R <> [] /\
  Scaling.has_rows 1 [[0]]%R /\ [[0]]%R <> [] /\ 2%nat <> 1%nat /\
  split_data (fun t => t) false [[1; 2]]%R [[0]]%R [[0]]%R [[0]]%R [[0]]%R 8%Z 8%Z false
  = Raise ValueError.
Proof.
  assert (H1 : Scaling.has_rows 2 [[1; 2]]%R) by (repeat constructor).
  assert (H2 : [[1; 2]]%R <> []) by discriminate.
  assert (H3 : Scaling.has_rows 1 [[0]]%R) by (repeat constructor).
  assert (H4 : [[0]]%R <> []) by discriminate.
  assert (H5 : 2%nat <> 1%nat) by discriminate.
  split; [exact H1|]. split; [exact H2|]. split; [exact H3|]. split; [exact H4|].
  split; [exact H5|].
  exact (X23_arrays_of_different_lengths_cannot_be_split (fun t => t) false
           [[1; 2]]%R [[0]]%R [[0]]%R [[0]]%R [[0]]%R 8%Z 8%Z false 2 1 H1 H2 H3 H4 H5).
Defined.

End SplitMoreFacts.

(* ===================================================================== *)
(** ** The data set of train.py, once more *)
(* ===================================================================== *)

Module IngestMoreFacts.

Import Ingest.
Import IngestMore.
Import ScalingFacts.
Import IngestFacts.

(** What [process_sim] leaves of the files: nothing new for a simulation that
    is discarded, the temporary file of the simulation otherwise. *)
Lemma process_sim_saved {Sim : Type} (net : Net Sim) (w : World Sim)
  (sim_flp tmp : String.string) (warmup_prc keep_prc : Q) (sequential : bool)
  (fs fs' : store) (r : option (String.string * Sim)) :
  process_sim net w sim_flp tmp warmup_prc keep_prc sequential fs = Ok (r, fs') ->
  match r with
  | None => fs' = fs
  | Some (flp, _) => flp = tmp_flp tmp sim_flp /\ exists c, fs' = save_tmp_file flp c fs
  end.
Proof.
  intros H. unfold process_sim in H.
  destruct (load_sim w sim_flp) as [sim [dat|]]; [|injection H as <- <-; reflexivity].
  apply bind_Ok_inv in H. destruct H as ([] & _ & H).
  apply bind_Ok_inv in H. destruct H as ([] & _ & H).
  apply bind_Ok_inv in H. destruct H as (dat_in & _ & H).
  apply bind_Ok_inv in H. destruct H as (dat_out & _ & H).
  destruct (has_non_finite w dat_in || has_non_finite w _)%bool;
    [injection H as <- <-; reflexivity|].
  apply bind_Ok_inv in H. destruct H as ([] & _ & H).
  apply bind_Ok_inv in H. destruct H as (clss & _ & H).
  apply bind_Ok_inv in H. destruct H as ([] & _ & H).
  apply bind_Ok_inv in H. destruct H as (orc & _ & H).
  destruct (modify_data net sim dat_in (convert_to_class net sim dat_out) dat_out orc
              sequential) as [[[[m_in m_out] m_raw] m_orc] grps].
  apply bind_Ok_inv in H. destruct H as (idxs & _ & H).
  apply bind_Ok_inv in H. destruct H as (t_in & _ & H).
  apply bind_Ok_inv in H. destruct H as (t_out & _ & H).
  apply bind_Ok_inv in H. destruct H as (t_raw & _ & H).
  apply bind_Ok_inv in H. destruct H as (t_orc & _ & H).
  injection H as <- <-. split; [reflexivity|]. eexists. reflexivity.
Qed.

Lemma parse_sims_unloadable {Sim : Type} (net : Net Sim) (w : World Sim) (args : Args)
  (tmp : String.string) (todo : list String.string) (fs : store) :
  (forall sim_flp, In sim_flp todo -> snd (load_sim w sim_flp) = None) ->
  parse_sims net w args tmp todo fs = Ok (map (fun _ => None) todo, fs).
Proof.
  induction todo as [|sim_flp rest IH]; intros H; [reflexivity|].
  cbn [parse_sims map]. unfold process_sim at 1.
  pose proof (H sim_flp (or_introl eq_refl)) as Hl.
  destruct (load_sim w sim_flp) as [sim loaded]. simpl in Hl. subst loaded.
  cbn [bind]. rewrite IH by (intros s Hs; apply H; right; exact Hs). reflexivity.
Qed.

Lemma parsed_none {A B : Type} (l : list B) :
  parsed (map (fun _ : B => @None A) l) = [].
Proof. induction l as [|b l IH]; [reflexivity | exact IH]. Qed.

(** X24. When none of the simulations found can be loaded (there may be
    none at all), [make_datasets] fails with the assertion of line 257, "No
    valid simulations found!", and writes no temporary file. *)
Theorem X24_no_loadable_simulation_fails_the_assertion :
  forall (Sim : Type) (net : Net Sim) (w : World Sim) (args : Args) (fs : store)
         (todo : list String.string),
    find_sims w args = Ok todo ->
    (forall sim_flp, In sim_flp todo -> snd (load_sim w sim_flp) = None) ->
    make_datasets net w args None fs = Raise AssertionError /\
    parse_sims net w args (tmp_of args) todo fs = Ok (map (fun _ => None) todo, fs).
Proof.
  intros Sim net w args fs todo Hfind Hload.
  pose proof (parse_sims_unloadable net w args (tmp_of args) todo fs Hload) as Hparse.
  split; [|exact Hparse].
  unfold make_datasets. rewrite Hfind. cbn [bind]. rewrite Hparse. cbn [bind].
  rewrite parsed_none. reflexivity.
Qed.

Lemma X24_witness :
  find_sims unloadable_world demo_args = Ok ["data/a.sim"; "data/b.sim"]%string /\
  (forall sim_flp, In sim_flp ["data/a.sim"; "data/b.sim"]%string ->
                   snd (load_sim unloadable_world sim_flp) = None) /\
  make_datasets demo_net unloadable_world demo_args None no_files = Raise AssertionError.
Proof.
  assert (H1 : find_sims unloadable_world demo_args
               = Ok ["data/a.sim"; "data/b.sim"]%string) by reflexivity.
  assert (H2 : forall sim_flp, In sim_flp ["data/a.sim"; "data/b.sim"]%string ->
                               snd (load_sim unloadable_world sim_flp) = None)
    by (intros; reflexivity).
  destruct (X24_no_loadable_simulation_fails_the_assertion unit demo_net unloadable_world
              demo_args no_files _ H1 H2) as (Hrun & _).
  split; [exact H1|]. split; [exact H2 | exact Hrun].
Defined.

Lemma tmp_flp_same_name (tmp s1 s2 : String.string) :
  drop_last 4 (basename s1) = drop_last 4 (basename s2) ->
  tmp_flp tmp s1 = tmp_flp tmp s2.
Proof. intros H. unfold tmp_flp. rewrite H. reflexivity. Qed.

Lemma load_saved (flp : String.string) (c : tmp_file) (fs : store) :
  load_tmp_file (save_tmp_file flp c fs) flp = Ok c.
Proof. unfold load_tmp_file, save_tmp_file. rewrite String.eqb_refl. reflexivity. Qed.

(** X25. Two simulation files whose names agree up to the directory and the
    last four characters have one temporary file: when both are parsed one
    after the other, as in the synchronous branch, the second overwrites
    what the first has stored, and the two files that [make_datasets] then
    loads (line 260) are both the data of the second simulation. *)
Theorem X25_simulations_of_one_name_share_a_temporary_file :
  forall (Sim : Type) (net : Net Sim) (w : World Sim) (args : Args)
         (tmp sim_flp1 sim_flp2 flp1 flp2 : String.string) (sim1 sim2 : Sim)
         (fs fs' : store),
    drop_last 4 (basename sim_flp1) = drop_last 4 (basename sim_flp2) ->
    parse_sims net w args tmp [sim_flp1; sim_flp2] fs
    = Ok ([Some (flp1, sim1); Some (flp2, sim2)], fs') ->
    flp1 = flp2 /\
    exists fs1 c2,
      process_sim net w sim_flp2 tmp (warmup_percent args) (keep_percent args) false fs1
      = Ok (Some (flp2, sim2), save_tmp_file flp2 c2 fs1) /\
      fs' = save_tmp_file flp2 c2 fs1 /\
      mapM (load_tmp_file fs') [flp1; flp2] = Ok [c2; c2].
Proof.
  intros Sim net w args tmp s1 s2 f1 f2 sim1 sim2 fs fs' Hname H.
  cbn [parse_sims] in H.
  apply bind_Ok_inv in H. destruct H as ([r1 fs1] & H1 & H).
  apply bind_Ok_inv in H. destruct H as ([rs fs2] & H2 & H).
  apply bind_Ok_inv in H2. destruct H2 as ([r2 fs2'] & H2 & H2').
  cbn [bind] in H2'. injection H2' as <- <-.
  injection H as -> -> <-.
  pose proof (process_sim_saved net w s1 tmp _ _ false fs fs1 _ H1) as (E1 & _).
  pose proof (process_sim_saved net w s2 tmp _ _ false fs1 fs2' _ H2) as (E2 & c2 & Hfs).
  assert (E : f1 = f2).
  { rewrite E1, E2. apply tmp_flp_same_name. exact Hname. }
  split; [exact E|]. exists fs1, c2. subst fs2'. split; [exact H2|].
  split; [reflexivity|]. rewrite E. cbn [mapM]. rewrite load_saved. reflexivity.
Qed.

Lemma X25_witness :
  drop_last 4 (basename "a/x.sim") = drop_last 4 (basename "b/x.sim") /\
  exists fs',
    parse_sims demo_net demo_world same_name_args "out" ["a/x.sim"; "b/x.sim"]%string
      no_files
    = Ok ([Some ("out/x_tmp.npz"%string, tt); Some ("out/x_tmp.npz"%string, tt)], fs') /\
    exists c2, mapM (load_tmp_file fs') ["out/x_tmp.npz"; "out/x_tmp.npz"]%string
               = Ok [c2; c2].
Proof.
  assert (H1 : drop_last 4 (basename "a/x.sim") = drop_last 4 (basename "b/x.sim"))
    by reflexivity.
  split; [exact H1|].
  assert (Hp : forall (sim_flp : String.string) (fs : store),
             tmp_flp "out" sim_flp = "out/x_tmp.npz"%string ->
             process_sim demo_net demo_world sim_flp "out" 10 50 false fs
             = Ok (Some ("out/x_tmp.npz"%string, tt),
                   save_tmp_file "out/x_tmp.npz"
                     ([[1; 2; 3]], [[0; 0; 0]], [[0; 0; 0]], [[0; 0; 0]], [0%Z])%R fs)).
  { intros sim_flp fs Hf. unfold process_sim. cbn -[valid_class IZR tmp_flp].
    rewrite demo_valid_class. cbn -[IZR tmp_flp]. rewrite Hf. reflexivity. }
  eexists. split.
  - cbn [parse_sims]. unfold same_name_args at 1 2. cbn [warmup_percent keep_percent].
    rewrite (Hp "a/x.sim"%string no_files eq_refl). cbn [bind].
    unfold same_name_args at 1 2. cbn [warmup_percent keep_percent].
    rewrite (Hp "b/x.sim"%string _ eq_refl). cbn [bind]. reflexivity.
  - match goal with
    | |- exists c2, mapM (load_tmp_file ?fs') _ = _ =>
        assert (Hrun : parse_sims demo_net demo_world same_name_args "out"
                         ["a/x.sim"; "b/x.sim"]%string no_files
                       = Ok ([Some ("out/x_tmp.npz"%string, tt);
                              Some ("out/x_tmp.npz"%string, tt)], fs'))
    end.
    { cbn [parse_sims]. unfold same_name_args at 1 2. cbn [warmup_percent keep_percent].
      rewrite (Hp "a/x.sim"%string no_files eq_refl). cbn [bind].
      unfold same_name_args at 1 2. cbn [warmup_percent keep_percent].
      rewrite (Hp "b/x.sim"%string _ eq_refl). cbn [bind]. reflexivity. }
    destruct (X25_simulations_of_one_name_share_a_temporary_file unit demo_net
                demo_world same_name_args "out" "a/x.sim" "b/x.sim" _ _ tt tt _ _
                H1 Hrun) as (_ & fs1 & c2 & _ & _ & Hload).
    exists c2. exact Hload.
Defined.

End IngestMoreFacts.

(* ===================================================================== *)
(** ** A trial of train.py *)
(* ===================================================================== *)

Module RunTorchFacts.

Import Split.
Import SplitFacts.
Import RunTorch.

Lemma split_without_validation (draw : nat -> nat) (is_svm : bool)
  (dat_in dat_out dat_out_raw dat_out_oracle num_flws : sarray) (bch_trn bch_tst : Z)
  (ldr_trn ldr_tst : loader) (ldr_val : option loader) :
  split_data draw is_svm dat_in dat_out dat_out_raw dat_out_oracle num_flws
    bch_trn bch_tst false = Ok (ldr_trn, ldr_val, ldr_tst) ->
  ldr_val = None.
Proof.
  unfold split_data.
  destruct (shuffle_together draw dat_in dat_out dat_out_raw dat_out_oracle num_flws)
    as [s|e]; cbn [bind]; intros H; [|discriminate].
  injection H as _ <- _. reflexivity.
Qed.

(** X26. [run_torch] splits the data without a validation part ([use_val]
    is left at its default), so that [ldr_val] is [None]: with early stopping
    the trial returns no result, whatever the rest of it does.  It raises
    [AttributeError] at [ldr_val.dataset] (line 692) before the training
    starts, or what the split raises; for five arrays of one length the
    split returns, and it is the [AttributeError]. *)
Theorem X26_run_torch_with_early_stopping_raises :
  forall (A : Type) (train_and_test : loader -> option loader -> loader -> A + raised)
         (draw : nat -> nat) (is_svm : bool)
         (dat_in dat_out dat_out_raw dat_out_oracle num_flws : sarray)
         (train_batch test_batch : Z),
    (run_torch train_and_test draw is_svm dat_in dat_out dat_out_raw dat_out_oracle
       num_flws train_batch test_batch true = inr AttributeError \/
     exists e,
       split_data draw is_svm dat_in dat_out dat_out_raw dat_out_oracle num_flws
         train_batch test_batch false = Raise e /\
       run_torch train_and_test draw is_svm dat_in dat_out dat_out_raw dat_out_oracle
         num_flws train_batch test_batch true = inr (Other e)) /\
    (forall n,
       Scaling.has_rows n dat_in -> dat_in <> [] ->
       Scaling.has_rows n dat_out -> one_field dat_out ->
       Scaling.has_rows n dat_out_raw -> one_field dat_out_raw ->
       Scaling.has_rows n dat_out_oracle -> one_field dat_out_oracle ->
       Scaling.has_rows n num_flws -> one_field num_flws ->
       run_torch train_and_test draw is_svm dat_in dat_out dat_out_raw dat_out_oracle
         num_flws train_batch test_batch true = inr AttributeError).
Proof.
  intros A rest draw is_svm dat_in dat_out dat_out_raw dat_out_oracle num_flws
    train_batch test_batch.
  assert (Hcases :
            run_torch rest draw is_svm dat_in dat_out dat_out_raw dat_out_oracle
              num_flws train_batch test_batch true = inr AttributeError \/
            exists e,
              split_data draw is_svm dat_in dat_out dat_out_raw dat_out_oracle num_flws
                train_batch test_batch false = Raise e /\
              run_torch rest draw is_svm dat_in dat_out dat_out_raw dat_out_oracle
                num_flws train_batch test_batch true = inr (Other e)).
  { unfold run_torch.
    destruct (split_data draw is_svm dat_in dat_out dat_out_raw dat_out_oracle num_flws
                train_batch test_batch false) as [[[ldr_trn ldr_val] ldr_tst]|e] eqn:Es.
    - left. rewrite (split_without_validation _ _ _ _ _ _ _ _ _ _ _ _ Es). reflexivity.
    - right. exists e. split; reflexivity. }
  split; [exact Hcases|].
  intros n Hin Hne Hout Hout1 Hraw Hraw1 Horc Horc1 Hflw Hflw1.
  destruct Hcases as [H|(e & Hs & _)]; [exact H|].
  destruct (split_data_ok draw is_svm dat_in dat_out dat_out_raw dat_out_oracle
              num_flws train_batch test_batch false n Hin Hne Hout Hout1 Hraw Hraw1
              Horc Horc1 Hflw Hflw1) as (t & v & u & Hrun & _).
  rewrite Hrun in Hs. discriminate.
Qed.

Lemma X26_witness :
  let ten := [0; 1; 2; 3; 4; 5; 6; 7; 8; 9]%R in
  Scaling.has_rows 10 [ten] /\ [ten] <> [] /\ one_field [ten] /\
  run_torch demo_rest (fun t => t) false [ten] [ten] [ten] [ten] [ten] 8%Z 8%Z true
  = inr AttributeError /\
  run_torch demo_rest (fun t => t) false [ten] [ten] [ten] [ten] [ten] 8%Z 8%Z false
  = inl (1 # 2, 3)%Q.
Proof.
  intros ten.
  assert (H10 : Scaling.has_rows 10 [ten]) by (constructor; [reflexivity | constructor]).
  assert (Hne : [ten] <> []) by discriminate.
  destruct (X26_run_torch_with_early_stopping_raises (Q * Q) demo_rest (fun t => t) false
              [ten] [ten] [ten] [ten] [ten] 8%Z 8%Z) as (_ & H).
  split; [exact H10|]. split; [exact Hne|]. split; [reflexivity|]. split.
  - apply (H 10%nat); first [exact H10 | exact Hne | reflexivity].
  - destruct (split_data_ok (fun t => t) false [ten] [ten] [ten] [ten] [ten] 8%Z 8%Z
                false 10 H10 Hne H10 eq_refl H10 eq_refl H10 eq_refl H10 eq_refl)
      as (t & v & u & Hrun & _).
    unfold run_torch. rewrite Hrun. reflexivity.
Defined.

End RunTorchFacts.
